(** * create_roles_overview: the graph-building core, embedded and verified

    The development follows [create_roles_overview.py]:

    - [get_yaml_content]        (the Metadata Fetcher),
    - [set_role_attributes],
      [set_play_attributes]     (the Attribute Extractor),
    - [add_dependencies]        (the Dependency Linker),
    - [generate_projects_data]  (the Inventory Builder: traversal, then
                                 reconciliation),
    - [main]                    (the option loop),
    - [generate_dot_graph]      (the calls that make the diagram).

    Python values coming out of [yaml.safe_load] are embedded as the
    inductive type [yaml]; Python dictionaries whose iteration order the
    program relies on are insertion-ordered association lists (the order
    of [dict.items()] since Python 3.7); exceptions
    and [sys.exit] are outcomes of the type [result]; the diagnostics
    printed with [cprint] and the calls of the fetcher are recorded in an
    event log that is threaded through the code.

    Modelling boundaries: strings are sequences of 8-bit characters; YAML
    floats, dates and non-string mapping keys are not represented; regular
    expressions are given as syntax trees of the subset the program itself
    uses, and the host that is pasted into the pattern of a source URL is
    read as a pattern only when it has no metacharacter but the dot
    ([Re.plain]); what was printed before an abort is not tracked. *)

From Stdlib Require Import String Ascii List ZArith Lia Bool.
From Stdlib Require Import Decimal DecimalString DecimalNat DecimalZ DecimalFacts.
Import ListNotations.

Open Scope string_scope.
Open Scope list_scope.

(* ================================================================== *)
(** ** Outcomes of a computation: value, exception, or [sys.exit] *)

Inductive exn : Type :=
| KeyError (key : string)
| TypeError
| AttributeError
| GitlabHttpError (msg : string)
| GitlabGetError (msg : string)
| OtherError (msg : string).

Inductive result (A : Type) : Type :=
| Ok (a : A)
| Raise (e : exn)
| Exit (status : Z).

Arguments Ok {A} a.
Arguments Raise {A} e.
Arguments Exit {A} status.

Definition rbind {A B} (r : result A) (f : A -> result B) : result B :=
  match r with
  | Ok a => f a
  | Raise e => Raise e
  | Exit n => Exit n
  end.

(* ================================================================== *)
(** ** Python values as produced by [yaml.safe_load] *)

#[local] Set Warnings "-register-all".

Inductive yaml : Type :=
| YNull
| YBool (b : bool)
| YInt (z : Z)
| YStr (s : string)
| YList (l : list yaml)
| YMap (m : list (string * yaml)).

#[local] Set Warnings "register-all".

(** The hashable values: what can be a dictionary key. *)
Inductive scalar : Type :=
| SNull
| SBool (b : bool)
| SInt (z : Z)
| SStr (s : string).

(** Python's [==] on hashable values: [True == 1] and [False == 0]. *)
Definition scalar_eqb (a b : scalar) : bool :=
  match a, b with
  | SNull, SNull => true
  | SStr s, SStr t => String.eqb s t
  | SInt x, SInt y => Z.eqb x y
  | SBool x, SBool y => Bool.eqb x y
  | SBool x, SInt y => Z.eqb (if x then 1 else 0) y
  | SInt x, SBool y => Z.eqb x (if y then 1 else 0)
  | _, _ => false
  end.

(** [hash(v)]: lists and dictionaries are unhashable. *)
Definition hashable (v : yaml) : result scalar :=
  match v with
  | YNull => Ok SNull
  | YBool b => Ok (SBool b)
  | YInt z => Ok (SInt z)
  | YStr s => Ok (SStr s)
  | YList _ | YMap _ => Raise TypeError
  end.

(** [bool(v)], as used by [if content:]. *)
Definition truthy (v : yaml) : bool :=
  match v with
  | YNull => false
  | YBool b => b
  | YInt z => negb (Z.eqb z 0)
  | YStr s => negb (String.eqb s "")
  | YList l => match l with [] => false | _ => true end
  | YMap m => match m with [] => false | _ => true end
  end.

(** [isinstance(v, str)] *)
Definition is_str (v : yaml) : bool :=
  match v with YStr _ => true | _ => false end.

Fixpoint assoc {V} (m : list (string * V)) (k : string) : option V :=
  match m with
  | [] => None
  | (k', v) :: m' => if String.eqb k' k then Some v else assoc m' k
  end.

(** [v[k]] for a string [k]: only a dictionary can be subscripted by a
    string; a missing key is a [KeyError], anything else a [TypeError]. *)
Definition subscript (v : yaml) (k : string) : result yaml :=
  match v with
  | YMap m => match assoc m k with
              | Some x => Ok x
              | None => Raise (KeyError k)
              end
  | _ => Raise TypeError
  end.

(** Is [sub] a substring of [s]?  ([sub in s] on two strings.) *)
Fixpoint is_substring (sub s : string) : bool :=
  if String.prefix sub s then true
  else match s with
       | EmptyString => false
       | String _ s' => is_substring sub s'
       end.

Definition is_the_string (k : string) (v : yaml) : bool :=
  match v with YStr s => String.eqb s k | _ => false end.

(** [k in v] for a string [k]: key membership on a dictionary, element
    membership on a list, substring test on a string. *)
Definition contains (k : string) (v : yaml) : result bool :=
  match v with
  | YMap m => Ok (match assoc m k with Some _ => true | None => false end)
  | YList l => Ok (existsb (is_the_string k) l)
  | YStr s => Ok (is_substring k s)
  | _ => Raise TypeError
  end.

(** [len(v)] *)
Definition len (v : yaml) : result nat :=
  match v with
  | YStr s => Ok (String.length s)
  | YList l => Ok (List.length l)
  | YMap m => Ok (List.length m)
  | _ => Raise TypeError
  end.

Fixpoint chars (s : string) : list yaml :=
  match s with
  | EmptyString => []
  | String c s' => YStr (String c EmptyString) :: chars s'
  end.

(** The elements a [for] loop over [v] visits: the items of a list, the
    keys of a dictionary, the characters of a string. *)
Definition iterate (v : yaml) : result (list yaml) :=
  match v with
  | YList l => Ok l
  | YMap m => Ok (map (fun kv => YStr (fst kv)) m)
  | YStr s => Ok (chars s)
  | _ => Raise TypeError
  end.

(** [str(n)] for integers. *)
Definition str_Z (z : Z) : string := NilZero.string_of_int (Z.to_int z).
Definition str_nat (n : nat) : string := NilZero.string_of_uint (Nat.to_uint n).

(** [s.replace(old, new)] for a non-empty [old]: occurrences are replaced
    from left to right and do not overlap. *)
Fixpoint replace_from (old new : string) (skip : nat) (s : string) : string :=
  match s with
  | EmptyString => EmptyString
  | String c s' =>
      match skip with
      | S k => replace_from old new k s'
      | O => if String.prefix old s
             then new ++ replace_from old new (String.length old - 1) s'
             else String c (replace_from old new 0 s')
      end
  end.

Definition replace (old new s : string) : string := replace_from old new 0 s.

(* ================================================================== *)
(** ** The regular expressions of the program

    A backtracking matcher for the constructs the program's patterns are
    made of.  [re_match] is [re.match]: the pattern has to match at the
    start of the string, not necessarily to its end. *)

Module Re.

Inductive cset : Type :=
| Any               (* .    : every character but a newline *)
| Lit (c : ascii)   (* c    *)
| Not (c : ascii).  (* [^c] : every character but c, newline included *)

Inductive re : Type :=
| Eps
| One (cs : cset)
| Many1 (cs : cset)  (* cs+, greedy *)
| Seq (r1 r2 : re)
| Grp (r : re)       (* ( r ), capturing *)
| Bol                (* ^ *)
| Eol.               (* $ *)

Definition newline : ascii := Ascii.ascii_of_nat 10.

Definition accepts (cs : cset) (c : ascii) : bool :=
  match cs with
  | Any => negb (Ascii.eqb c newline)
  | Lit a => Ascii.eqb c a
  | Not a => negb (Ascii.eqb c a)
  end.

(** [$] without the MULTILINE flag: the end of the string, or just
    before a newline that ends the string. *)
Definition at_end (s : string) : bool :=
  match s with
  | EmptyString => true
  | String c EmptyString => Ascii.eqb c newline
  | _ => false
  end.

Fixpoint set_nth {A} (i : nat) (x : A) (l : list A) : list A :=
  match l, i with
  | [], _ => []
  | _ :: t, O => x :: t
  | h :: t, S j => h :: set_nth j x t
  end.

Section Matcher.
Variable R : Type.

(** One or more characters of [cs]: the longest run is tried first,
    then shorter ones. *)
Fixpoint many1 (cs : cset) (pos : nat) (s : string)
         (k : nat -> string -> option R) : option R :=
  match s with
  | EmptyString => None
  | String c s' =>
      if accepts cs c then
        match many1 cs (S pos) s' k with
        | Some r => Some r
        | None => k (S pos) s'
        end
      else None
  end.

(** [run r pos s caps k]: match [r] against [s], which starts at
    offset [pos] of the subject; [caps] holds the text of the groups
    opened so far; [k] matches what follows [r]. *)
Fixpoint run (r : re) (pos : nat) (s : string) (caps : list string)
         (k : nat -> string -> list string -> option R) : option R :=
  match r with
  | Eps => k pos s caps
  | One cs =>
      match s with
      | String c s' => if accepts cs c then k (S pos) s' caps else None
      | EmptyString => None
      end
  | Many1 cs => many1 cs pos s (fun p' s' => k p' s' caps)
  | Seq a b => run a pos s caps (fun p1 s1 c1 => run b p1 s1 c1 k)
  | Grp a =>
      let i := List.length caps in
      run a pos s (caps ++ [EmptyString])
          (fun p1 s1 c1 =>
             k p1 s1 (set_nth i (String.substring 0 (p1 - pos) s) c1))
  | Bol => if Nat.eqb pos 0 then k pos s caps else None
  | Eol => if at_end s then k pos s caps else None
  end.
End Matcher.

(** [re.match(r, s)]: [None], or the texts of the groups 1, 2, ... *)
Definition re_match (r : re) (s : string) : option (list string) :=
  run (list string) r 0 s [] (fun _ _ caps => Some caps).

(** [m.group(1)] on the result of [re.match]; on [None] the attribute
    access raises [AttributeError]. *)
Definition group1 (m : option (list string)) : result string :=
  match m with
  | None => Raise AttributeError
  | Some caps => Ok (nth 0 caps EmptyString)
  end.

Fixpoint seq (rs : list re) : re :=
  match rs with
  | [] => Eps
  | r :: rs' => Seq r (seq rs')
  end.

(** A string read as a pattern in which only [.] is special: what
    [re.compile] makes of a string without other metacharacters. *)
Fixpoint of_plain (s : string) : re :=
  match s with
  | EmptyString => Eps
  | String c s' =>
      Seq (if Ascii.eqb c "."%char then One Any else One (Lit c))
          (of_plain s')
  end.

Definition metachars : list ascii :=
  [ "\"; "^"; "$"; "*"; "+"; "?"; "{"; "}"; "["; "]"; "("; ")"; "|" ]%char.

(** The strings [of_plain] reads as Python does. *)
Fixpoint plain (s : string) : bool :=
  match s with
  | EmptyString => true
  | String c s' =>
      negb (existsb (Ascii.eqb c) metachars) && plain s'
  end.

End Re.

(* ================================================================== *)
(** ** Python dictionaries: insertion-ordered, keys compared with [==] *)

Module Dict.
Section Ops.
Context {K V : Type}.
Variable eqb : K -> K -> bool.

(** [d[k]], [None] standing for [KeyError]. *)
Fixpoint get (d : list (K * V)) (k : K) : option V :=
  match d with
  | [] => None
  | (k', v) :: d' => if eqb k' k then Some v else get d' k
  end.

(** [d[k] = v]: an existing key keeps its place (and the key object
    first inserted), a new key goes to the end. *)
Fixpoint set (d : list (K * V)) (k : K) (v : V) : list (K * V) :=
  match d with
  | [] => [(k, v)]
  | (k', v') :: d' =>
      if eqb k' k then (k', v) :: d' else (k', v') :: set d' k v
  end.

Definition keys (d : list (K * V)) : list K := map fst d.
End Ops.
End Dict.

(* ================================================================== *)
(** ** The event log: diagnostics and fetcher calls *)

Inductive color : Type := red | yellow | blue.

Inductive diag : Type :=
| skip_archived (project_name : string)
| skip_no_files (project_name : string)
| tree_failed (msg : string)
| file_info_failed (msg : string)
| symlink_in_meta (path : string) (target : string)
| symlink_in_requirements (path : string) (target : string)
| includes_unsupported (path : string)
| no_src (project_name : string) (dep_name : yaml) (missing : string)
| unknown_path (target : scalar).

Inductive event : Type :=
| Printed (c : color) (d : diag)                  (* cprint(..., c) *)
| Fetched (project_id : Z) (path filename : string).
                                        (* a call of get_yaml_content *)

(** Computations that print and may abort. *)
Definition M (A : Type) : Type := list event -> result (A * list event).

Definition ret {A} (a : A) : M A := fun log => Ok (a, log).

Definition bind {A B} (m : M A) (f : A -> M B) : M B :=
  fun log =>
    match m log with
    | Ok (a, log') => f a log'
    | Raise e => Raise e
    | Exit n => Exit n
    end.

Definition lift {A} (r : result A) : M A :=
  fun log =>
    match r with
    | Ok a => Ok (a, log)
    | Raise e => Raise e
    | Exit n => Exit n
    end.

Definition emit (e : event) : M unit := fun log => Ok (tt, log ++ [e]).

Definition cprint (d : diag) (c : color) : M unit := emit (Printed c d).

Definition sys_exit {A} (status : Z) : M A := fun _ => Exit status.

Declare Scope M_scope.
Delimit Scope M_scope with M.
Notation "x <- m ;; k" := (bind m (fun x => k))
  (at level 61, m at next level, right associativity) : M_scope.
Notation "m ;;; k" := (bind m (fun _ => k))
  (at level 61, right associativity) : M_scope.
Notation "' pat <- m ;; k" := (bind m (fun x => match x with pat => k end))
  (at level 61, pat pattern, m at next level, right associativity) : M_scope.

(* ================================================================== *)
(** ** The hosting platform, as far as the program looks at it *)

(** An entry of a directory listing: [f["name"]], [f.get('id')]. *)
Module Item.
Record t : Type := { name : string; id : string }.
End Item.

(** What [repository_blob] returns; [content] is the outcome of
    [yaml.safe_load(base64.b64decode(file_info['content']))], both
    library calls. *)
Module FileInfo.
Record t : Type := { content : result yaml }.
End FileInfo.

Module Project.
Record t : Type := {
  id : Z;
  name : string;
  archived : bool;
  path_with_namespace : string;
  ssh_url_to_repo : string;
  web_url : string;
  (* the names of [project.tags.list()] *)
  tags : result (list string);
  (* [repository_tree(path=..., ref=default_branch)] *)
  repository_tree : string -> result (list Item.t);
  repository_blob : string -> result FileInfo.t
}.
End Project.

Record Gitlab : Type := {
  (* gl.projects.list(all=True, visibility='internal') *)
  projects_list : result (list Project.t);
  (* gl.projects.get(id) *)
  projects_get : Z -> result Project.t
}.

(* ================================================================== *)
(** ** Entities *)

(** The values of the ["state"] key. *)
Inductive kind : Type := role | play | role_extern | role_unknown.

Definition kind_str (k : kind) : string :=
  match k with
  | role => "role"
  | play => "play"
  | role_extern => "role_extern"
  | role_unknown => "role_unknown"
  end.

Module Entity.
(** The dictionary built for one project.  The three optional fields
    are the keys a play does not have. *)
Record t : Type := {
  state : kind;
  name : scalar;
  url : string;
  web_url : string;
  group : string;
  description : option yaml;
  platforms : option yaml;
  galaxy_tags : option yaml;
  git_tags : list string;
  used_by : list string
}.

(** [e["used_by"] = ids] *)
Definition set_used_by (e : t) (ids : list string) : t :=
  {| state := state e; name := name e; url := url e;
     web_url := web_url e; group := group e;
     description := description e; platforms := platforms e;
     galaxy_tags := galaxy_tags e; git_tags := git_tags e;
     used_by := ids |}.
End Entity.


(* ================================================================== *)
(** ** The program *)

Local Open Scope M_scope.

(** The edge table [used_by_data]: target path (or bare name) to the
    identities that declare it, in insertion order. *)
Definition edges : Type := list (scalar * list string).

(** [^(.+)/[^/]+$] *)
Definition group_pattern : Re.re :=
  Re.seq [ Re.Bol; Re.Grp (Re.Many1 Re.Any); Re.One (Re.Lit "/");
           Re.Many1 (Re.Not "/"); Re.Eol ].

(** [try: content["galaxy_info"][key] except KeyError: default] *)
Definition galaxy_info_or (content : yaml) (key : string) (default : yaml)
  : result yaml :=
  match rbind (subscript content "galaxy_info") (fun g => subscript g key) with
  | Raise (KeyError _) => Ok default
  | r => r
  end.

(** [re.match("^(.+)/[^/]+$", project.path_with_namespace).group(1)] *)
Definition group_of (project : Project.t) : result string :=
  Re.group1 (Re.re_match group_pattern (Project.path_with_namespace project)).

Definition set_role_attributes (project : Project.t) (content : yaml)
  : result Entity.t :=
  rbind (galaxy_info_or content "description" (YStr "")) (fun description =>
  rbind (galaxy_info_or content "platforms" (YList [])) (fun platforms =>
  rbind (galaxy_info_or content "galaxy_tags" (YList [])) (fun galaxy_tags =>
  rbind (group_of project) (fun group =>
  rbind (Project.tags project) (fun git_tags =>
  Ok {| Entity.description := Some description;
        Entity.platforms := Some platforms;
        Entity.galaxy_tags := Some galaxy_tags;
        Entity.state := role;
        Entity.name := SStr (Project.name project);
        Entity.url := Project.ssh_url_to_repo project;
        Entity.web_url := Project.web_url project;
        Entity.group := group;
        Entity.git_tags := git_tags;
        Entity.used_by := [] |}))))).

Definition set_play_attributes (project : Project.t) (content : yaml)
  : result Entity.t :=
  rbind (group_of project) (fun group =>
  rbind (Project.tags project) (fun git_tags =>
  Ok {| Entity.state := play;
        Entity.name := SStr (Project.name project);
        Entity.url := Project.ssh_url_to_repo project;
        Entity.web_url := Project.web_url project;
        Entity.group := group;
        Entity.used_by := [];
        Entity.git_tags := git_tags;
        Entity.description := None;
        Entity.platforms := None;
        Entity.galaxy_tags := None |})).

(** [next(f for f in items if f["name"] == filename)], [None] standing
    for [StopIteration]. *)
Definition first_named (items : list Item.t) (filename : string)
  : option Item.t :=
  find (fun f => String.eqb (Item.name f) filename) items.

Definition tree_not_found : string := "404: 404 Tree Not Found".

(** The first event only records that the fetcher was called; the
    [Exit] branches make the matches total, a call of the library does
    not exit. *)
Definition get_yaml_content (project : Project.t) (path filename : string)
  : M yaml :=
  emit (Fetched (Project.id project) path filename) ;;;
  let content := YMap [] in
  match Project.repository_tree project path with
  | Raise (GitlabHttpError e) => sys_exit 255
  | Raise (GitlabGetError e) =>
      cprint (skip_no_files (Project.name project)) blue ;;;
      (if negb (String.eqb e tree_not_found)
       then cprint (tree_failed e) red
       else ret tt) ;;;
      ret content
  | Raise e => lift (Raise e)
  | Exit n => sys_exit n
  | Ok items =>
      if Nat.ltb 0 (List.length items) then
        match first_named items filename with
        | None => ret content
        | Some meta_main =>
            match Project.repository_blob project (Item.id meta_main) with
            | Raise (GitlabHttpError e) =>
                cprint (file_info_failed e) red ;;;
                ret content
            | Raise e => lift (Raise e)
            | Exit n => sys_exit n
            | Ok file_info => lift (FileInfo.content file_info)
            end
        end
      else ret content
  end.

(** How the body of a [for] loop ends. *)
Inductive flow (A : Type) : Type :=
| Next (a : A)
| Break (a : A).

Arguments Next {A} a.
Arguments Break {A} a.

(** [if prjid not in used_by_data[t]: used_by_data[t].append(prjid)],
    and [used_by_data[t] = [prjid]] when the lookup fails. *)
Definition record_edge (used_by_data : edges) (target : scalar)
           (prjid : string) : edges :=
  match Dict.get scalar_eqb used_by_data target with
  | Some ids =>
      if existsb (String.eqb prjid) ids then used_by_data
      else Dict.set scalar_eqb used_by_data target (ids ++ [prjid])
  | None => Dict.set scalar_eqb used_by_data target [prjid]
  end.

Section Configuration.

(** The module-level settings [main] fills in from the command line. *)
Variable GITLAB_URL : string.
Variable PATH_FILTERS : list Re.re.

(** [r'^git@{0}:(.+).git$'.format(GITLAB_URL.replace('https://', ''))].
    The code pastes the host into the pattern unescaped.  The host is
    read with [Re.of_plain], which is what [re.match] makes of it when
    it holds no metacharacter other than the dot, that is when
    [Re.plain (replace "https://" "" GITLAB_URL) = true]; a host with
    [|], brackets or the like is outside the patterns embedded here, and
    the numbered statements that depend on what the pattern matches
    carry [Re.plain] of the host as a premise. *)
Definition url_pattern : Re.re :=
  Re.seq [ Re.Bol; Re.of_plain "git@";
           Re.of_plain (replace "https://" "" GITLAB_URL);
           Re.One (Re.Lit ":"); Re.Grp (Re.Many1 Re.Any); Re.One Re.Any;
           Re.of_plain "git"; Re.Eol ].

(** The target of one dependency: the path inside its source URL, or,
    when it has no ["src"], its name, which is then also appended to
    [external]. *)
Definition dependency_target (project : Project.t) (dep : yaml)
           (external : list scalar) : M (scalar * list scalar) :=
  match subscript dep "src" with
  | Ok src =>
      match src with
      | YStr s =>
          dep_path_with_namespace <-
            lift (Re.group1 (Re.re_match url_pattern s)) ;;
          ret (SStr dep_path_with_namespace, external)
      | _ => lift (Raise TypeError)
      end
  | Raise (KeyError e) =>
      name <- lift (subscript dep "name") ;;
      cprint (no_src (Project.name project) name e) yellow ;;;
      dep_path_with_namespace <- lift (hashable name) ;;
      ret (dep_path_with_namespace, external ++ [dep_path_with_namespace])
  | Raise e => lift (Raise e)
  | Exit n => sys_exit n
  end.

(** The body of the loop of [add_dependencies]. *)
Definition add_dependency (project : Project.t) (prjid : string)
           (dep : yaml) (st : edges * list scalar)
  : M (flow (edges * list scalar)) :=
  let '(used_by_data, external) := st in
  is_include <- lift (contains "include" dep) ;;
  if is_include then
    cprint (includes_unsupported (Project.path_with_namespace project)) red ;;;
    ret (Break st)
  else
    '(dep_path_with_namespace, external') <-
      dependency_target project dep external ;;
    ret (Next (record_edge used_by_data dep_path_with_namespace prjid,
               external')).

Fixpoint add_dependencies_loop (project : Project.t) (prjid : string)
         (deps : list yaml) (st : edges * list scalar)
  : M (edges * list scalar) :=
  match deps with
  | [] => ret st
  | dep :: deps' =>
      r <- add_dependency project prjid dep st ;;
      match r with
      | Break st' => ret st'
      | Next st' => add_dependencies_loop project prjid deps' st'
      end
  end.

(** Returns the edge table and, since the list [external] is extended
    in place, that list as well. *)
Definition add_dependencies (project : Project.t) (prjid : string)
           (dep_list : yaml) (used_by_data : edges) (external : list scalar)
  : M (edges * list scalar) :=
  deps <- lift (iterate dep_list) ;;
  add_dependencies_loop project prjid deps (used_by_data, external).

(** The dictionaries and the list [generate_projects_data] builds up. *)
Record state : Type := {
  projects_data : list (string * Entity.t);
  used_by_data : edges;
  projects_mapping : list (string * string);
  projects_extern : list scalar
}.

Definition initial : state :=
  {| projects_data := []; used_by_data := [];
     projects_mapping := []; projects_extern := [] |}.

(** [projects_data[prjid] = entity; projects_mapping[path] = prjid] *)
Definition register (st : state) (prjid path : string) (e : Entity.t)
  : state :=
  {| projects_data := Dict.set String.eqb (projects_data st) prjid e;
     used_by_data := used_by_data st;
     projects_mapping := Dict.set String.eqb (projects_mapping st) path prjid;
     projects_extern := projects_extern st |}.

(** [used_by_data = add_dependencies(p, prjid, deps, used_by_data,
    projects_extern)] *)
Definition link (p : Project.t) (prjid : string) (deps : yaml) (st : state)
  : M state :=
  '(used_by_data', projects_extern') <-
    add_dependencies p prjid deps (used_by_data st) (projects_extern st) ;;
  ret {| projects_data := projects_data st;
         used_by_data := used_by_data';
         projects_mapping := projects_mapping st;
         projects_extern := projects_extern' |}.

(** The body of [if re.match(path, p.path_with_namespace):]. *)
Definition process (gl : Gitlab) (p : Project.t) (st : state) : M state :=
  real_project <- lift (projects_get gl (Project.id p)) ;;
  let prjid := (Project.name p ++ "-" ++ str_Z (Project.id p))%string in
  content <- get_yaml_content real_project "meta" "main.yml" ;;
  if truthy content then
    if is_str content then
      cprint (symlink_in_meta (Project.path_with_namespace p)
                (match content with YStr s => s | _ => "" end)) yellow ;;;
      ret st
    else
      e <- lift (set_role_attributes real_project content) ;;
      let st := register st prjid (Project.path_with_namespace p) e in
      has_dependencies <- lift (contains "dependencies" content) ;;
      if has_dependencies then
        dependencies <- lift (subscript content "dependencies") ;;
        n <- lift (len dependencies) ;;
        if Nat.ltb 0 n then link p prjid dependencies st else ret st
      else ret st
  else
    content <- get_yaml_content real_project "roles" "requirements.yml" ;;
    if truthy content then
      if is_str content then
        cprint (symlink_in_requirements (Project.path_with_namespace p)
                  (match content with YStr s => s | _ => "" end)) yellow ;;;
        ret st
      else
        e <- lift (set_play_attributes real_project content) ;;
        let st := register st prjid (Project.path_with_namespace p) e in
        link p prjid content st
    else ret st.

(** [for path in PATH_FILTERS: if re.match(path, ...): ...] *)
Fixpoint filters_loop (gl : Gitlab) (paths : list Re.re) (p : Project.t)
         (st : state) : M state :=
  match paths with
  | [] => ret st
  | path :: paths' =>
      match Re.re_match path (Project.path_with_namespace p) with
      | Some _ =>
          st' <- process gl p st ;;
          filters_loop gl paths' p st'
      | None => filters_loop gl paths' p st
      end
  end.

(** [for p in projects: ...] *)
Fixpoint projects_loop (gl : Gitlab) (projects : list Project.t)
         (st : state) : M state :=
  match projects with
  | [] => ret st
  | p :: projects' =>
      if Project.archived p then
        cprint (skip_archived (Project.name p)) blue ;;;
        projects_loop gl projects' st
      else
        st' <- filters_loop gl PATH_FILTERS p st ;;
        projects_loop gl projects' st'
  end.

(** The first half of [generate_projects_data]: everything before the
    reconciliation loop. *)
Definition traverse (gl : Gitlab) : M state :=
  projects <- lift (projects_list gl) ;;
  projects_loop gl projects initial.

End Configuration.

(** [projects_mapping[target]]: the keys of the mapping are strings. *)
Definition mapping_get (projects_mapping : list (string * string))
           (target : scalar) : option string :=
  match target with
  | SStr path => Dict.get String.eqb projects_mapping path
  | _ => None
  end.

(** [target in projects_extern] *)
Definition is_extern (projects_extern : list scalar) (target : scalar)
  : bool :=
  existsb (fun x => scalar_eqb x target) projects_extern.

Definition placeholder_id (cnt : nat) : string :=
  "zzz-unknown-" ++ str_nat cnt.

Definition placeholder (state : kind) (target : scalar) : Entity.t :=
  {| Entity.web_url := "";
     Entity.group := "unknown";
     Entity.description := Some (YStr "unknown");
     Entity.platforms := Some (YList []);
     Entity.git_tags := [];
     Entity.galaxy_tags := Some (YList []);
     Entity.used_by := [];
     Entity.url := "";
     Entity.state := state;
     Entity.name := target |}.

(** [projects_data[prjid]["used_by"] = ids] *)
Definition assign_used_by (projects_data : list (string * Entity.t))
           (prjid : string) (ids : list string)
  : result (list (string * Entity.t)) :=
  match Dict.get String.eqb projects_data prjid with
  | Some e =>
      Ok (Dict.set String.eqb projects_data prjid (Entity.set_used_by e ids))
  | None => Raise (KeyError prjid)
  end.

(** The body of the reconciliation loop, [cnt += 1] included. *)
Definition reconcile_step (projects_mapping : list (string * string))
           (projects_extern : list scalar)
           (acc : list (string * Entity.t) * nat)
           (item : scalar * list string)
  : M (list (string * Entity.t) * nat) :=
  let '(projects_data, cnt) := acc in
  let '(dep_path_with_namespace, dep_prjid_list) := item in
  '(used_by_prjid, projects_data) <-
    match mapping_get projects_mapping dep_path_with_namespace with
    | Some used_by_prjid => ret (used_by_prjid, projects_data)
    | None =>
        cprint (unknown_path dep_path_with_namespace) red ;;;
        let used_by_prjid := placeholder_id cnt in
        let state :=
          if is_extern projects_extern dep_path_with_namespace
          then role_extern else role_unknown in
        ret (used_by_prjid,
             Dict.set String.eqb projects_data used_by_prjid
               (placeholder state dep_path_with_namespace))
    end ;;
  projects_data <-
    lift (assign_used_by projects_data used_by_prjid dep_prjid_list) ;;
  ret (projects_data, S cnt).

(** [for dep_path_with_namespace, dep_prjid_list in used_by_data.items()] *)
Fixpoint reconcile_loop (projects_mapping : list (string * string))
         (projects_extern : list scalar) (items : edges)
         (acc : list (string * Entity.t) * nat)
  : M (list (string * Entity.t) * nat) :=
  match items with
  | [] => ret acc
  | item :: items' =>
      acc' <- reconcile_step projects_mapping projects_extern acc item ;;
      reconcile_loop projects_mapping projects_extern items' acc'
  end.

(** The second half of [generate_projects_data]. *)
Definition reconcile (st : state) : M (list (string * Entity.t)) :=
  '(projects_data, _) <-
    reconcile_loop (projects_mapping st) (projects_extern st)
      (used_by_data st) (projects_data st, 0%nat) ;;
  ret projects_data.

Definition generate_projects_data (GITLAB_URL : string)
           (PATH_FILTERS : list Re.re) (gl : Gitlab)
  : M (list (string * Entity.t)) :=
  st <- traverse GITLAB_URL PATH_FILTERS gl ;;
  reconcile st.

(* ================================================================== *)
(** ** Vocabulary of the statements *)

(** The result of a computation without its log. *)
Definition outcome {A} (r : result (A * list event)) : result A :=
  match r with
  | Ok (a, _) => Ok a
  | Raise e => Raise e
  | Exit n => Exit n
  end.

(** No identity occurs twice in the list of a target. *)
Definition deduplicated (used_by_data : edges) : Prop :=
  Forall (fun item => NoDup (snd item)) used_by_data.

Fixpoint occurs (c : ascii) (s : string) : bool :=
  match s with
  | EmptyString => false
  | String c' s' => Ascii.eqb c' c || occurs c s'
  end.

(** The metadata files the fetcher was asked for in project [id]. *)
Fixpoint fetches (id : Z) (log : list event) : list (string * string) :=
  match log with
  | [] => []
  | Fetched id' path filename :: log' =>
      if Z.eqb id' id then (path, filename) :: fetches id log'
      else fetches id log'
  | Printed _ _ :: log' => fetches id log'
  end.

(** The galaxy_info key [key] is absent from the document [content]:
    there is no galaxy_info at all, or it is a mapping without [key]. *)
Definition galaxy_key_absent (content : yaml) (key : string) : Prop :=
  exists m, content = YMap m /\
    (assoc m "galaxy_info" = None \/
     exists g, assoc m "galaxy_info" = Some (YMap g) /\ assoc g key = None).

(** [log'] continues [log] without a further call of the fetcher. *)
Definition prints_only (log log' : list event) : Prop :=
  exists l, log' = log ++ l /\ forall id, fetches id l = [].

(** Every character of [s] is in the set [cs]. *)
Fixpoint every (cs : Re.cset) (s : string) : bool :=
  match s with
  | EmptyString => true
  | String c s' => Re.accepts cs c && every cs s'
  end.

(* ================================================================== *)
(** ** Example snapshots *)

Module Scenario.

Definition GITLAB_URL : string := "https://gitlab.example.com".

(** [--filter infra/] *)
Definition PATH_FILTERS : list Re.re := [ Re.of_plain "infra/" ].

(** A repository tree with one directory [dir] holding one file. *)
Definition tree_with (dir filename blob : string)
  : string -> result (list Item.t) :=
  fun path =>
    if String.eqb path dir
    then Ok [ {| Item.name := filename; Item.id := blob |} ]
    else Raise (GitlabGetError tree_not_found).

Definition blob_of (doc : yaml) : string -> result FileInfo.t :=
  fun _ => Ok {| FileInfo.content := Ok doc |}.

Definition repository (id : Z) (name : string)
           (tree : string -> result (list Item.t))
           (blob : string -> result FileInfo.t) : Project.t :=
  {| Project.id := id;
     Project.name := name;
     Project.archived := false;
     Project.path_with_namespace := "infra/" ++ name;
     Project.ssh_url_to_repo := "git@gitlab.example.com:infra/" ++ name ++ ".git";
     Project.web_url := "https://gitlab.example.com/infra/" ++ name;
     Project.tags := Ok [];
     Project.repository_tree := tree;
     Project.repository_blob := blob |}.

(** A role: [meta/main.yml] holds [doc]. *)
Definition role_repository (id : Z) (name : string) (doc : yaml) : Project.t :=
  repository id name (tree_with "meta" "main.yml" "b1") (blob_of doc).

(** A play: [roles/requirements.yml] holds [doc]. *)
Definition play_repository (id : Z) (name : string) (doc : yaml) : Project.t :=
  repository id name (tree_with "roles" "requirements.yml" "b2") (blob_of doc).

Fixpoint find_project (projects : list Project.t) (id : Z)
  : result Project.t :=
  match projects with
  | [] => Raise (GitlabGetError "404: 404 Project Not Found")
  | p :: projects' =>
      if Z.eqb (Project.id p) id then Ok p else find_project projects' id
  end.

Definition snapshot (projects : list Project.t) : Gitlab :=
  {| projects_list := Ok projects; projects_get := find_project projects |}.

(** The role "webserver" (id 12) and the play "site" (id 5). *)
Definition webserver : Project.t :=
  role_repository 12 "webserver"
    (YMap [ ("galaxy_info",
             YMap [ ("description", YStr "Installs nginx") ]) ]).

Definition site : Project.t :=
  play_repository 5 "site"
    (YList [ YMap [ ("src",
                     YStr "git@gitlab.example.com:infra/webserver.git") ] ]).

Definition webserver_and_site : Gitlab := snapshot [ webserver; site ].

(** Two filters that both match [infra/webserver]:
    [--filter infra --filter infra/]. *)
Definition overlapping_filters : list Re.re :=
  [ Re.of_plain "infra"; Re.of_plain "infra/" ].

(** A role that is itself called "zzz-unknown" and has id 1; its two
    dependencies come from Galaxy. *)
Definition zzz : Project.t :=
  role_repository 1 "zzz-unknown"
    (YMap [ ("dependencies",
             YList [ YMap [ ("name", YStr "a") ];
                     YMap [ ("name", YStr "b") ] ]) ]).

(** A play whose only requirement is a Galaxy collection. *)
Definition galaxy_user : Project.t :=
  play_repository 7 "deploy"
    (YList [ YMap [ ("name", YStr "community.general") ] ]).


(** A play that requires a role hosted elsewhere. *)
Definition foreign_src : yaml :=
  YMap [ ("src", YStr "https://github.com/geerlingguy/ansible-role-java.git") ].

Definition foreign_user : Project.t :=
  play_repository 8 "build" (YList [ foreign_src ]).

(** A repository whose [meta/main.yml] is listed, while the retrieval of
    its blob fails with an HTTP error. *)
Definition unreadable : Project.t :=
  repository 3 "broken" (tree_with "meta" "main.yml" "b1")
    (fun _ => Raise (GitlabHttpError "500: Internal Server Error")).

End Scenario.

(** What has to follow the group: one character, [git], the end. *)
Definition after_group : Re.re :=
  Re.seq [ Re.One Re.Any; Re.of_plain "git"; Re.Eol ].

(** [used_by_data'] continues [used_by_data]: the same targets in the
    same order, each list extended at its end, new targets after them. *)
Inductive grows : edges -> edges -> Prop :=
| grows_nil used_by_data' : grows [] used_by_data'
| grows_cons target ids more used_by_data used_by_data' :
    grows used_by_data used_by_data' ->
    grows ((target, ids) :: used_by_data)
          ((target, ids ++ more) :: used_by_data').

(** Two external lists with the same members. *)
Definition same_externals (external external' : list scalar) : Prop :=
  forall target, is_extern external target = is_extern external' target.

(** Two states the reconciliation cannot tell apart. *)
Definition same_state (st st' : state) : Prop :=
  projects_data st = projects_data st' /\
  used_by_data st = used_by_data st' /\
  projects_mapping st = projects_mapping st' /\
  same_externals (projects_extern st) (projects_extern st').

(** Two runs that end alike: with related values, or with the same
    exception, or with the same exit status; the logs are left aside. *)
Definition alike {A} (R : A -> A -> Prop) (r r' : result (A * list event))
  : Prop :=
  match r, r' with
  | Ok (a, _), Ok (a', _) => R a a'
  | Raise e, Raise e' => e = e'
  | Exit n, Exit n' => n = n'
  | _, _ => False
  end.

(** [f], [n] times in a row. *)
Fixpoint times {A} (n : nat) (f : A -> M A) (a : A) : M A :=
  match n with
  | O => ret a
  | S n' => bind (f a) (times n' f)
  end.

(** Does the filter match the path of the project? *)
Definition selects (path : Re.re) (p : Project.t) : bool :=
  match Re.re_match path (Project.path_with_namespace p) with
  | Some _ => true
  | None => false
  end.

(** Two results of the linker: the same table, external lists with the
    same members. *)
Definition linked_alike (st st' : edges * list scalar) : Prop :=
  fst st = fst st' /\ same_externals (snd st) (snd st').

(** [id] is the identity of an entity of the set. *)
Definition known (entities : list (string * Entity.t)) (id : string) : Prop :=
  Dict.get String.eqb entities id <> None.

(** What the traversal puts into [projects_data]: a role or a play,
    named by a string, not yet used by anyone. *)
Definition discovered (e : Entity.t) : Prop :=
  (Entity.state e = role \/ Entity.state e = play) /\
  Entity.used_by e = [] /\
  exists n, Entity.name e = SStr n.

(** What holds of the dictionaries between two projects of the
    traversal: the mapping and the edge table name entities only. *)
Definition consistent (st : state) : Prop :=
  (forall path prjid,
      Dict.get String.eqb (projects_mapping st) path = Some prjid ->
      known (projects_data st) prjid) /\
  Forall (fun item => Forall (known (projects_data st)) (snd item))
         (used_by_data st) /\
  Forall (fun entry => discovered (snd entry)) (projects_data st).

(** A role or play carries a name that is a string; a placeholder
    carries no location. *)
Definition well_formed (e : Entity.t) : Prop :=
  match Entity.state e with
  | role | play => exists n, Entity.name e = SStr n
  | role_extern | role_unknown =>
      Entity.url e = "" /\ Entity.web_url e = "" /\
      Entity.group e = "unknown" /\ Entity.git_tags e = []
  end.

(** What the reconciliation keeps true of every entity, [seen] being
    the identities the traversal has made. *)
Definition settled (seen : string -> Prop) (e : Entity.t) : Prop :=
  Forall seen (Entity.used_by e) /\ NoDup (Entity.used_by e) /\
  well_formed e.

(* ================================================================== *)
(** ** The diagram: [generate_dot_graph]

    The graph object is an external collaborator; what is embedded are
    the calls [g.node] and [g.edge] that the two loops make on it, in
    their order.  A failing lookup ends the program before [g.render()],
    so nothing is returned then. *)

Inductive dot : Type :=
| node (name : scalar) (color : string)     (* g.node(name, color=color) *)
| edge (tail_name head_name : scalar).      (* g.edge(tail_name, head_name) *)

Definition color_map : list (string * string) :=
  [ ("role", "lightblue");
    ("role_unknown", "red");
    ("role_extern", "yellow");
    ("play", "limegreen") ].

(** [color_map[e["state"]]] *)
Definition color_of (e : Entity.t) : result string :=
  match assoc color_map (kind_str (Entity.state e)) with
  | Some color => Ok color
  | None => Raise (KeyError (kind_str (Entity.state e)))
  end.

(** The body of the inner loop. *)
Definition draw_use (data : list (string * Entity.t)) (prj : Entity.t)
           (usedby_id : string) : result (list dot) :=
  match Dict.get String.eqb data usedby_id with
  | None => Raise (KeyError usedby_id)
  | Some user =>
      rbind (color_of user) (fun user_color =>
      rbind (color_of prj) (fun prj_color =>
      Ok [ node (Entity.name user) user_color;
           node (Entity.name prj) prj_color;
           edge (Entity.name user) (Entity.name prj) ]))
  end.

(** [for usedby_id in prj["used_by"]: ...] *)
Fixpoint draw_uses (data : list (string * Entity.t)) (prj : Entity.t)
         (used_by : list string) : result (list dot) :=
  match used_by with
  | [] => Ok []
  | usedby_id :: used_by' =>
      rbind (draw_use data prj usedby_id) (fun calls =>
      rbind (draw_uses data prj used_by') (fun calls' =>
      Ok (calls ++ calls')))
  end.

(** [for prjid, prj in data.items(): ...] *)
Fixpoint draw_entities (data items : list (string * Entity.t))
  : result (list dot) :=
  match items with
  | [] => Ok []
  | (prjid, prj) :: items' =>
      rbind (draw_uses data prj (Entity.used_by prj)) (fun calls =>
      rbind (draw_entities data items') (fun calls' =>
      Ok (calls ++ calls')))
  end.

Definition generate_dot_graph (data : list (string * Entity.t))
  : result (list dot) :=
  draw_entities data data.

(** One use: the entity [prj] is used by the entity [user]. *)
Definition uses (data : list (string * Entity.t)) (user prj : Entity.t)
  : Prop :=
  exists prjid usedby_id,
    In (prjid, prj) data /\ In usedby_id (Entity.used_by prj) /\
    Dict.get String.eqb data usedby_id = Some user.

(* ================================================================== *)
(** ** The command line: the option loop of [main]

    [getopt.getopt] is library code: the loop is given the pairs
    [(o, a)] it returns.  [usage()] only prints.  [assert False] raises
    [AssertionError] (unless Python runs with [-O]), rendered here as
    [OtherError]. *)

Module Main.

Record t : Type := {
  PATH_FILTERS : list string;
  GITLAB_URL : string;
  token : option string;       (* [None] is the initial [False] *)
  show_unknown : bool
}.

(** The module-level defaults and the two locals of [main]. *)
Definition initial : t :=
  {| PATH_FILTERS := [];
     GITLAB_URL := "https://gitlab.example.com";
     token := None;
     show_unknown := false |}.

End Main.

(** [s.lstrip(c)] for a single character [c]. *)
Fixpoint lstrip (c : ascii) (s : string) : string :=
  match s with
  | EmptyString => EmptyString
  | String c' s' => if Ascii.eqb c' c then lstrip c s' else s
  end.

(** [o in (name1, name2)] *)
Definition one_of (o : string) (names : list string) : bool :=
  existsb (String.eqb o) names.

Definition unhandled_option : exn :=
  OtherError "AssertionError: unhandled option".

(** The body of [for o, a in opts:]. *)
Definition handle_option (st : Main.t) (o a : string) : result Main.t :=
  if one_of o [ "-h"; "--help" ] then
    Exit 0                                       (* usage(); sys.exit() *)
  else if one_of o [ "-f"; "--filter" ] then
    Ok {| Main.PATH_FILTERS := Main.PATH_FILTERS st ++ [ lstrip "/" a ];
          Main.GITLAB_URL := Main.GITLAB_URL st;
          Main.token := Main.token st;
          Main.show_unknown := Main.show_unknown st |}
  else if one_of o [ "-g"; "--gitlab-url" ] then
    Ok {| Main.PATH_FILTERS := Main.PATH_FILTERS st;
          Main.GITLAB_URL := a;
          Main.token := Main.token st;
          Main.show_unknown := Main.show_unknown st |}
  else if one_of o [ "-t"; "--token" ] then
    Ok {| Main.PATH_FILTERS := Main.PATH_FILTERS st;
          Main.GITLAB_URL := Main.GITLAB_URL st;
          Main.token := Some a;
          Main.show_unknown := Main.show_unknown st |}
  else if one_of o [ "-U"; "--show-unkown" ] then
    Ok {| Main.PATH_FILTERS := Main.PATH_FILTERS st;
          Main.GITLAB_URL := Main.GITLAB_URL st;
          Main.token := Main.token st;
          Main.show_unknown := true |}
  else Raise unhandled_option.

Fixpoint options_loop (opts : list (string * string)) (st : Main.t)
  : result Main.t :=
  match opts with
  | [] => Ok st
  | (o, a) :: opts' =>
      rbind (handle_option st o a) (options_loop opts')
  end.

(** The names [getopt.getopt(argv, "f:g:ht:U", ["filter=", "help",
    "token=", "show-unknown"])] can return as [o]: a dash and the
    letter for a short option, two dashes and the full name for a long
    one. *)
Fixpoint short_names (shortopts : string) : list string :=
  match shortopts with
  | EmptyString => []
  | String c s =>
      if Ascii.eqb c ":" then short_names s
      else String "-" (String c EmptyString) :: short_names s
  end.

Fixpoint without_equals (name : string) : string :=
  match name with
  | EmptyString => EmptyString
  | String c s => if Ascii.eqb c "=" then EmptyString
                  else String c (without_equals s)
  end.

Definition long_names (longopts : list string) : list string :=
  map (fun name => ("--" ++ without_equals name)%string) longopts.

Definition getopt_names : list string :=
  short_names "f:g:ht:U"
  ++ long_names [ "filter="; "help"; "token="; "show-unknown" ].

Definition is_filter (oa : string * string) : bool :=
  one_of (fst oa) [ "-f"; "--filter" ].
Definition is_url (oa : string * string) : bool :=
  one_of (fst oa) [ "-g"; "--gitlab-url" ].
Definition is_token (oa : string * string) : bool :=
  one_of (fst oa) [ "-t"; "--token" ].
Definition is_flag (oa : string * string) : bool :=
  one_of (fst oa) [ "-U"; "--show-unkown" ].

(** A project the traversal looks at: not archived, and matched by at
    least one filter. *)
Definition visible (paths : list Re.re) (p : Project.t) : bool :=
  negb (Project.archived p) && existsb (fun path => selects path p) paths.

(* ================================================================== *)
(** ** Example entity sets and command lines *)

Module Overview.

(** What the build makes of [Scenario.webserver_and_site]. *)
Definition webserver : Entity.t :=
  {| Entity.state := role;
     Entity.name := SStr "webserver";
     Entity.url := "git@gitlab.example.com:infra/webserver.git";
     Entity.web_url := "https://gitlab.example.com/infra/webserver";
     Entity.group := "infra";
     Entity.description := Some (YStr "Installs nginx");
     Entity.platforms := Some (YList []);
     Entity.galaxy_tags := Some (YList []);
     Entity.git_tags := [];
     Entity.used_by := [ "site-5" ] |}.

Definition site : Entity.t :=
  {| Entity.state := play;
     Entity.name := SStr "site";
     Entity.url := "git@gitlab.example.com:infra/site.git";
     Entity.web_url := "https://gitlab.example.com/infra/site";
     Entity.group := "infra";
     Entity.description := None;
     Entity.platforms := None;
     Entity.galaxy_tags := None;
     Entity.git_tags := [];
     Entity.used_by := [] |}.

Definition webserver_and_site : list (string * Entity.t) :=
  [ ("webserver-12", webserver); ("site-5", site) ].

(** The same set, with a user of the role that is no entity. *)
Definition dangling : list (string * Entity.t) :=
  [ ("webserver-12", Entity.set_used_by webserver [ "site-5"; "gone-1" ]);
    ("site-5", site) ].

(** The calls the diagram of [webserver_and_site] is made of. *)
Definition diagram : list dot :=
  [ node (SStr "site") "limegreen";
    node (SStr "webserver") "lightblue";
    edge (SStr "site") (SStr "webserver") ].

(** An archived role under [infra/]. *)
Definition retired : Project.t :=
  {| Project.id := 9;
     Project.name := "retired";
     Project.archived := true;
     Project.path_with_namespace := "infra/retired";
     Project.ssh_url_to_repo := "git@gitlab.example.com:infra/retired.git";
     Project.web_url := "https://gitlab.example.com/infra/retired";
     Project.tags := Ok [];
     Project.repository_tree := Scenario.tree_with "meta" "main.yml" "b1";
     Project.repository_blob :=
       Scenario.blob_of (YMap [ ("galaxy_info", YMap []) ]) |}.

Definition with_retired : Gitlab :=
  Scenario.snapshot [ Scenario.webserver; retired; Scenario.site ].

(** The platform of [with_retired] when it does not list the archived
    role. *)
Definition without_retired : Gitlab :=
  {| projects_list := Ok [ Scenario.webserver; Scenario.site ];
     projects_get :=
       Scenario.find_project [ Scenario.webserver; retired; Scenario.site ] |}.

(** [-f /infra/ -g https://git.example.org --filter //apps -t secret -U] *)
Definition command_line : list (string * string) :=
  [ ("-f", "/infra/"); ("-g", "https://git.example.org");
    ("--filter", "//apps"); ("-t", "secret"); ("-U", "") ].

Definition settings : Main.t :=
  {| Main.PATH_FILTERS := [ "infra/"; "apps" ];
     Main.GITLAB_URL := "https://git.example.org";
     Main.token := Some "secret";
     Main.show_unknown := true |}.

(** Two requirements: a role of the own instance and a collection. *)
Definition requirements : yaml :=
  YList [ YMap [ ("src", YStr "git@gitlab.example.com:infra/webserver.git") ];
          YMap [ ("name", YStr "community.general") ] ].

End Overview.

(* ================================================================== *)
(** * Properties *)

(** ** The log monad *)

Lemma bind_ok {A B} (m : M A) (f : A -> M B) log a log' :
  m log = Ok (a, log') -> bind m f log = f a log'.
Proof. unfold bind. intros ->. reflexivity. Qed.

Lemma bind_raise {A B} (m : M A) (f : A -> M B) log e :
  m log = Raise e -> bind m f log = Raise e.
Proof. unfold bind. intros ->. reflexivity. Qed.

Lemma bind_inv {A B} (m : M A) (f : A -> M B) log b log2 :
  bind m f log = Ok (b, log2) ->
  exists a log1, m log = Ok (a, log1) /\ f a log1 = Ok (b, log2).
Proof.
  unfold bind. destruct (m log) as [[a log1] | e | n]; try discriminate.
  intros H. exists a, log1. split; [reflexivity | exact H].
Qed.

Lemma lift_inv {A} (r : result A) log a log' :
  lift r log = Ok (a, log') -> r = Ok a /\ log' = log.
Proof.
  unfold lift. destruct r; try discriminate.
  intros H. injection H as -> ->. split; reflexivity.
Qed.

Lemma ret_inv {A} (x : A) log a log' :
  ret x log = Ok (a, log') -> a = x /\ log' = log.
Proof. unfold ret. intros H. injection H as -> ->. split; reflexivity. Qed.

(** Peel one [bind] off a computation that is known to have succeeded. *)
Ltac step H :=
  let a := fresh "a" in
  let l := fresh "log" in
  let H1 := fresh "H" in
  apply bind_inv in H; destruct H as (a & l & H1 & H).

Tactic Notation "peel" hyp(H) "as" ident(a) ident(l) ident(H1) :=
  apply bind_inv in H; destruct H as (a & l & H1 & H).

(** ** Insertion-ordered dictionaries *)

Section DictFacts.
Context {K V : Type}.
Variable eqb : K -> K -> bool.

Lemma get_some_in (d : list (K * V)) k v :
  Dict.get eqb d k = Some v -> exists k', In (k', v) d.
Proof.
  induction d as [| [k' v'] d IH]; simpl; [discriminate |].
  destruct (eqb k' k).
  - intros H. injection H as ->. exists k'. left. reflexivity.
  - intros H. destruct (IH H) as (k'' & Hin). exists k''. right. exact Hin.
Qed.

Lemma set_Forall (P : K * V -> Prop) (d : list (K * V)) k v :
  Forall P d -> (forall k', P (k', v)) -> Forall P (Dict.set eqb d k v).
Proof.
  intros Hd Hv. induction Hd as [| [k' v'] d Hx Hd IH]; simpl.
  - constructor; [apply Hv | constructor].
  - destruct (eqb k' k); constructor; auto.
Qed.

Lemma set_fresh (d : list (K * V)) k v :
  Dict.get eqb d k = None -> Dict.set eqb d k v = d ++ [(k, v)].
Proof.
  induction d as [| [k' v'] d IH]; simpl; [reflexivity |].
  destruct (eqb k' k); [discriminate |].
  intros H. rewrite (IH H). reflexivity.
Qed.

Lemma set_keys_present (d : list (K * V)) k v v0 :
  Dict.get eqb d k = Some v0 ->
  Dict.keys (Dict.set eqb d k v) = Dict.keys d.
Proof.
  unfold Dict.keys.
  induction d as [| [k' v'] d IH]; simpl; [discriminate |].
  destruct (eqb k' k); simpl; [reflexivity |].
  intros H. rewrite (IH H). reflexivity.
Qed.

End DictFacts.

Lemma get_set_same {V} (d : list (string * V)) k v :
  Dict.get String.eqb (Dict.set String.eqb d k v) k = Some v.
Proof.
  induction d as [| [k' v'] d IH]; simpl.
  - rewrite String.eqb_refl. reflexivity.
  - destruct (String.eqb k' k) eqn:E; simpl; rewrite E; auto.
Qed.

Lemma get_set_other {V} (d : list (string * V)) k k0 v :
  k0 <> k ->
  Dict.get String.eqb (Dict.set String.eqb d k v) k0
  = Dict.get String.eqb d k0.
Proof.
  intros Hne. induction d as [| [k' v'] d IH]; simpl.
  - destruct (String.eqb k k0) eqn:E; [| reflexivity].
    apply String.eqb_eq in E. congruence.
  - destruct (String.eqb k' k) eqn:E; simpl.
    + apply String.eqb_eq in E. subst k'.
      destruct (String.eqb k k0) eqn:E0; [| reflexivity].
      apply String.eqb_eq in E0. congruence.
    + rewrite IH. reflexivity.
Qed.

(** ** The Dependency Linker *)

Section Linker.
Variable GITLAB_URL : string.
Variable project : Project.t.
Variable prjid : string.

Lemma add_dependency_include dep st log :
  contains "include" dep = Ok true ->
  add_dependency GITLAB_URL project prjid dep st log
  = Ok (Break st,
        log ++ [Printed red (includes_unsupported
                               (Project.path_with_namespace project))]).
Proof.
  intros H. unfold add_dependency. destruct st as [ub ext].
  unfold bind, lift. rewrite H. reflexivity.
Qed.

Lemma loop_stops_at_include pre inc post st log :
  contains "include" inc = Ok true ->
  outcome (add_dependencies_loop GITLAB_URL project prjid
             (pre ++ inc :: post) st log)
  = outcome (add_dependencies_loop GITLAB_URL project prjid pre st log).
Proof.
  intros Hinc. revert st log.
  induction pre as [| dep pre IH]; intros st log; simpl.
  - unfold bind. rewrite (add_dependency_include _ _ _ Hinc).
    destruct st; reflexivity.
  - unfold bind.
    destruct (add_dependency GITLAB_URL project prjid dep st log)
      as [[[st' | st'] log'] | e | n]; try reflexivity.
    apply IH.
Qed.

Lemma record_edge_deduplicated used_by_data target :
  deduplicated used_by_data ->
  deduplicated (record_edge used_by_data target prjid).
Proof.
  intros Hd. unfold record_edge.
  destruct (Dict.get scalar_eqb used_by_data target) as [ids |] eqn:Hget.
  - destruct (existsb (String.eqb prjid) ids) eqn:Hin; [exact Hd |].
    apply set_Forall; [exact Hd |]. intros k0. simpl.
    destruct (get_some_in _ _ _ _ Hget) as (k' & Hk').
    unfold deduplicated in Hd. rewrite Forall_forall in Hd.
    specialize (Hd _ Hk'). simpl in Hd.
    apply NoDup_app; [exact Hd | repeat constructor; intros [] | ].
    intros x Hx [<- | []].
    assert (existsb (String.eqb prjid) ids = true) as Habs.
    { apply existsb_exists. exists prjid. split; [exact Hx |].
      apply String.eqb_refl. }
    congruence.
  - apply set_Forall; [exact Hd |]. intros k0. simpl.
    repeat constructor. intros [].
Qed.

Lemma add_dependency_deduplicated dep used_by_data external log r log' :
  deduplicated used_by_data ->
  add_dependency GITLAB_URL project prjid dep (used_by_data, external) log
  = Ok (r, log') ->
  deduplicated (fst (match r with Next st | Break st => st end)).
Proof.
  intros Hd H. unfold add_dependency in H.
  step H. destruct a as [|].
  - step H. apply ret_inv in H. destruct H as [-> _]. exact Hd.
  - step H. destruct a as [target external'].
    apply ret_inv in H. destruct H as [-> _]. simpl.
    apply record_edge_deduplicated. exact Hd.
Qed.

Lemma loop_deduplicated deps used_by_data external log st' log' :
  deduplicated used_by_data ->
  add_dependencies_loop GITLAB_URL project prjid deps
    (used_by_data, external) log = Ok (st', log') ->
  deduplicated (fst st').
Proof.
  revert used_by_data external log.
  induction deps as [| dep deps IH]; intros ub ext log Hd H; simpl in H.
  - apply ret_inv in H. destruct H as [-> _]. exact Hd.
  - step H.
    pose proof (add_dependency_deduplicated _ _ _ _ _ _ Hd H0) as Hd'.
    destruct a as [[ub1 ext1] | [ub1 ext1]]; simpl in Hd'.
    + eapply IH; eassumption.
    + apply ret_inv in H. destruct H as [-> _]. exact Hd'.
Qed.

Lemma add_dependencies_keeps_deduplicated
      dep_list used_by_data external log used_by_data' external' log' :
  deduplicated used_by_data ->
  add_dependencies GITLAB_URL project prjid dep_list used_by_data external log
  = Ok ((used_by_data', external'), log') ->
  deduplicated used_by_data'.
Proof.
  intros Hd H. unfold add_dependencies in H. step H.
  apply (loop_deduplicated _ _ _ _ _ _ Hd H).
Qed.

End Linker.

(** C1.  When the dependency list holds an entry [inc] for which
    ["include" in inc] is true, [add_dependencies] stops there: the edge
    table and the external list it returns are those it returns for the
    entries before [inc] alone.  Nothing is recorded for [inc] or for the
    entries after it, and what the entries before it recorded stays. *)
Theorem add_dependencies_stops_at_include
        GITLAB_URL project prjid pre inc post used_by_data external log :
  contains "include" inc = Ok true ->
  outcome (add_dependencies GITLAB_URL project prjid
             (YList (pre ++ inc :: post)) used_by_data external log)
  = outcome (add_dependencies GITLAB_URL project prjid
               (YList pre) used_by_data external log).
Proof.
  intros Hinc. unfold add_dependencies, bind, lift. simpl.
  apply loop_stops_at_include. exact Hinc.
Qed.

(** C5 (amended).  [add_dependencies] keeps the edge table free of
    duplicates: if no list of the table it is given holds an identity
    twice, no list of the table it returns does, whatever the dependency
    list declares. *)
Theorem add_dependencies_deduplicated
        GITLAB_URL project prjid dep_list used_by_data external log
        used_by_data' external' log' :
  deduplicated used_by_data ->
  add_dependencies GITLAB_URL project prjid dep_list used_by_data external log
  = Ok ((used_by_data', external'), log') ->
  deduplicated used_by_data'.
Proof.
  apply add_dependencies_keeps_deduplicated.
Qed.

Lemma add_dependencies_stops_at_include_witness :
  contains "include" (YMap [ ("include", YStr "./other.yml") ]) = Ok true /\
  outcome (add_dependencies Scenario.GITLAB_URL Scenario.site "site-5"
             (YList ([ YMap [ ("name", YStr "a") ] ]
                     ++ YMap [ ("include", YStr "./other.yml") ]
                     :: [ YMap [ ("name", YStr "b") ] ])) [] [] [])
  = outcome (add_dependencies Scenario.GITLAB_URL Scenario.site "site-5"
               (YList [ YMap [ ("name", YStr "a") ] ]) [] [] []).
Proof.
  split; [reflexivity |].
  apply (add_dependencies_stops_at_include Scenario.GITLAB_URL Scenario.site
           "site-5" [ YMap [ ("name", YStr "a") ] ]
           (YMap [ ("include", YStr "./other.yml") ])
           [ YMap [ ("name", YStr "b") ] ] [] [] []).
  reflexivity.
Defined.

(** An include as the first entry: nothing at all is recorded. *)
Lemma include_first_records_nothing
      GITLAB_URL project prjid inc post used_by_data external log :
  contains "include" inc = Ok true ->
  outcome (add_dependencies GITLAB_URL project prjid
             (YList (inc :: post)) used_by_data external log)
  = Ok (used_by_data, external).
Proof.
  intros Hinc. unfold add_dependencies, bind, lift. simpl iterate. cbv iota.
  apply (loop_stops_at_include GITLAB_URL project prjid [] inc post
           (used_by_data, external) log Hinc).
Qed.

Lemma add_dependencies_deduplicated_witness :
  deduplicated [ (SStr "infra/webserver", [ "site-5" ]) ].
Proof.
  apply (add_dependencies_deduplicated Scenario.GITLAB_URL Scenario.site
           "site-5"
           (YList [ YMap [ ("src", YStr "git@gitlab.example.com:infra/webserver.git") ];
                    YMap [ ("src", YStr "git@gitlab.example.com:infra/webserver.git") ] ])
           [] [] [] _ [] []).
  - constructor.
  - vm_compute. reflexivity.
Defined.

(** A table that comes with an identity twice in a list keeps it:
    [add_dependencies] tests the identity it adds and nothing else. *)
Lemma prior_duplicates_are_kept :
  add_dependencies Scenario.GITLAB_URL Scenario.site "site-5"
    (YList [ YMap [ ("src",
                     YStr "git@gitlab.example.com:infra/webserver.git") ] ])
    [ (SStr "infra/webserver", [ "other-1"; "other-1" ]) ] [] []
  = Ok (([ (SStr "infra/webserver", [ "other-1"; "other-1"; "site-5" ]) ],
         []), []) /\
  ~ deduplicated
      [ (SStr "infra/webserver", [ "other-1"; "other-1"; "site-5" ]) ].
Proof.
  split; [vm_compute; reflexivity |].
  intros H. inversion H as [| item items Hitem _]. simpl in Hitem.
  inversion Hitem as [| x l Hnotin _]. apply Hnotin. left. reflexivity.
Qed.

(** ** Dependencies with a source the pattern does not match *)

Section ForeignSource.
Variable GITLAB_URL : string.
Variable project : Project.t.
Variable prjid : string.

Lemma add_dependency_no_break dep st log r log' :
  contains "include" dep = Ok false ->
  add_dependency GITLAB_URL project prjid dep st log = Ok (r, log') ->
  exists st', r = Next st'.
Proof.
  intros Hc H. unfold add_dependency in H. destruct st as [ub ext].
  step H. apply lift_inv in H0. destruct H0 as [H0 ->].
  rewrite Hc in H0. injection H0 as <-.
  step H. destruct a as [target ext'].
  apply ret_inv in H. destruct H as [-> _]. eexists. reflexivity.
Qed.

Lemma loop_app pre rest st log st1 log1 :
  Forall (fun dep => contains "include" dep = Ok false) pre ->
  add_dependencies_loop GITLAB_URL project prjid pre st log = Ok (st1, log1) ->
  add_dependencies_loop GITLAB_URL project prjid (pre ++ rest) st log
  = add_dependencies_loop GITLAB_URL project prjid rest st1 log1.
Proof.
  intros Hpre. revert st log.
  induction Hpre as [| dep pre Hdep Hpre IH]; intros st log H; simpl in *.
  - apply ret_inv in H. destruct H as [-> ->]. reflexivity.
  - step H.
    destruct (add_dependency_no_break _ _ _ _ _ Hdep H0) as (st' & ->).
    rewrite (bind_ok _ _ _ _ _ H0). apply IH. exact H.
Qed.

Lemma add_dependency_foreign_src m s st log :
  assoc m "include" = None ->
  assoc m "src" = Some (YStr s) ->
  Re.re_match (url_pattern GITLAB_URL) s = None ->
  add_dependency GITLAB_URL project prjid (YMap m) st log
  = Raise AttributeError.
Proof.
  intros Hinc Hsrc Hre. unfold add_dependency. destruct st as [ub ext].
  unfold bind, lift, contains, dependency_target, subscript.
  rewrite Hinc, Hsrc. unfold bind, lift. rewrite Hre. reflexivity.
Qed.

End ForeignSource.

(** C10.  A dependency that has a ["src"] whose value the pattern
    [^git@<host>:(.+).git$] does not match makes [add_dependencies] raise
    [AttributeError] ([.group] of [None]) as soon as the loop reaches it,
    that is, when the entries before it were linked: the entry is not
    turned into an external or unknown target.  (The host is one the
    model reads as Python does: no metacharacter other than the dot.) *)
Theorem add_dependencies_unmatched_src_raises
        GITLAB_URL project prjid pre m s post used_by_data external log
        st1 log1 :
  Re.plain (replace "https://" "" GITLAB_URL) = true ->
  Forall (fun dep => contains "include" dep = Ok false) pre ->
  add_dependencies GITLAB_URL project prjid (YList pre)
    used_by_data external log = Ok (st1, log1) ->
  assoc m "include" = None ->
  assoc m "src" = Some (YStr s) ->
  Re.re_match (url_pattern GITLAB_URL) s = None ->
  add_dependencies GITLAB_URL project prjid (YList (pre ++ YMap m :: post))
    used_by_data external log = Raise AttributeError.
Proof.
  intros _ Hpre Hrun Hinc Hsrc Hre.
  unfold add_dependencies in *. unfold bind, lift in *. simpl in *.
  rewrite (loop_app _ _ _ _ _ _ _ _ _ Hpre Hrun). simpl.
  apply bind_raise. eapply add_dependency_foreign_src; eassumption.
Qed.

Lemma add_dependencies_unmatched_src_raises_witness :
  add_dependencies Scenario.GITLAB_URL Scenario.foreign_user "build-8"
    (YList ([ YMap [ ("name", YStr "community.general") ] ]
            ++ Scenario.foreign_src :: []))
    [] [] [] = Raise AttributeError.
Proof.
  eapply (add_dependencies_unmatched_src_raises Scenario.GITLAB_URL
            Scenario.foreign_user "build-8"
            [ YMap [ ("name", YStr "community.general") ] ]
            [ ("src", YStr "https://github.com/geerlingguy/ansible-role-java.git") ]
            "https://github.com/geerlingguy/ansible-role-java.git"
            [] [] [] []).
  - reflexivity.
  - repeat constructor.
  - vm_compute. reflexivity.
  - reflexivity.
  - reflexivity.
  - vm_compute. reflexivity.
Defined.

(** The abort is reachable from the top: a play with such a requirement
    ends the whole build. *)
Lemma foreign_src_aborts_the_build :
  generate_projects_data Scenario.GITLAB_URL Scenario.PATH_FILTERS
    (Scenario.snapshot [ Scenario.foreign_user ]) []
  = Raise AttributeError.
Proof. vm_compute. reflexivity. Qed.

Lemma ascii_eqb_differs a c : a <> c -> Ascii.eqb c a = false.
Proof. intros H. apply Ascii.eqb_neq. congruence. Qed.

(** X7.  With a host that holds no metacharacter other than the dot,
    a source that does not start with [git@] is never matched. *)
Lemma url_pattern_needs_git_prefix GITLAB_URL s :
  Re.plain (replace "https://" "" GITLAB_URL) = true ->
  String.prefix "git@" s = false ->
  Re.re_match (url_pattern GITLAB_URL) s = None.
Proof.
  intros _. unfold Re.re_match, url_pattern. simpl.
  destruct s as [| c1 s]; [reflexivity |]. simpl.
  destruct (Ascii.ascii_dec "g" c1) as [<- | N];
    [| intros _; rewrite (ascii_eqb_differs _ _ N); reflexivity].
  destruct s as [| c2 s]; [reflexivity |]. simpl.
  destruct (Ascii.ascii_dec "i" c2) as [<- | N];
    [| intros _; rewrite (ascii_eqb_differs _ _ N); reflexivity].
  destruct s as [| c3 s]; [reflexivity |]. simpl.
  destruct (Ascii.ascii_dec "t" c3) as [<- | N];
    [| intros _; rewrite (ascii_eqb_differs _ _ N); reflexivity].
  destruct s as [| c4 s]; [reflexivity |]. simpl.
  destruct (Ascii.ascii_dec "@" c4) as [<- | N];
    [| intros _; rewrite (ascii_eqb_differs _ _ N); reflexivity].
  destruct s; discriminate.
Qed.

(** ** Hashable values and identities *)

Lemma scalar_eqb_refl a : scalar_eqb a a = true.
Proof.
  destruct a as [| b | z | s]; simpl.
  - reflexivity.
  - destruct b; reflexivity.
  - apply Z.eqb_refl.
  - apply String.eqb_refl.
Qed.



Lemma str_nat_inj i j : str_nat i = str_nat j -> i = j.
Proof.
  unfold str_nat. intros H.
  assert (forall n, Nat.to_uint n <> Nil) as Hnn.
  { intros n. rewrite <- (Unsigned.of_to n) at 1.
    rewrite Unsigned.to_of. apply unorm_nonnil. }
  apply Unsigned.to_uint_inj.
  pose proof (NilZero.usu _ (Hnn i)) as Hi.
  pose proof (NilZero.usu _ (Hnn j)) as Hj.
  rewrite H in Hi. rewrite Hi in Hj. injection Hj as ->. reflexivity.
Qed.

Lemma placeholder_id_inj i j : placeholder_id i = placeholder_id j -> i = j.
Proof.
  unfold placeholder_id. simpl. intros H. injection H as H.
  apply str_nat_inj. exact H.
Qed.

Lemma set_set_same {V} (d : list (string * V)) k v v' :
  Dict.set String.eqb (Dict.set String.eqb d k v) k v'
  = Dict.set String.eqb d k v'.
Proof.
  induction d as [| [k0 v0] d IH]; simpl.
  - rewrite String.eqb_refl. reflexivity.
  - destruct (String.eqb k0 k) eqn:E; simpl; rewrite E; [reflexivity |].
    rewrite IH. reflexivity.
Qed.

(** ** Reconciliation *)

Section Reconciliation.
Variable projects_mapping : list (string * string).
Variable projects_extern : list scalar.

Lemma reconcile_step_resolved projects_data cnt target ids log prjid e :
  mapping_get projects_mapping target = Some prjid ->
  Dict.get String.eqb projects_data prjid = Some e ->
  reconcile_step projects_mapping projects_extern (projects_data, cnt)
    (target, ids) log
  = Ok ((Dict.set String.eqb projects_data prjid (Entity.set_used_by e ids),
         S cnt), log).
Proof.
  intros Hmap Hget. unfold reconcile_step, bind. rewrite Hmap.
  unfold ret, lift, assign_used_by. rewrite Hget. reflexivity.
Qed.

Lemma reconcile_step_unresolved projects_data cnt target ids log :
  mapping_get projects_mapping target = None ->
  reconcile_step projects_mapping projects_extern (projects_data, cnt)
    (target, ids) log
  = Ok ((Dict.set String.eqb projects_data (placeholder_id cnt)
           (Entity.set_used_by
              (placeholder (if is_extern projects_extern target
                            then role_extern else role_unknown) target) ids),
         S cnt),
        log ++ [Printed red (unknown_path target)]).
Proof.
  intros Hmap. unfold reconcile_step, bind. rewrite Hmap.
  unfold cprint, emit, ret, lift, assign_used_by.
  rewrite get_set_same, set_set_same. reflexivity.
Qed.

Lemma reconcile_loop_app before rest acc log acc1 log1 :
  reconcile_loop projects_mapping projects_extern before acc log
  = Ok (acc1, log1) ->
  reconcile_loop projects_mapping projects_extern (before ++ rest) acc log
  = reconcile_loop projects_mapping projects_extern rest acc1 log1.
Proof.
  revert acc log. induction before as [| item before IH]; intros acc log H;
    cbn [reconcile_loop List.app] in *.
  - apply ret_inv in H. destruct H as [-> ->]. reflexivity.
  - step H. unfold bind at 1. rewrite H0. apply IH. exact H.
Qed.

Lemma reconcile_step_counts acc item log pd' cnt' log' :
  reconcile_step projects_mapping projects_extern acc item log
  = Ok ((pd', cnt'), log') ->
  cnt' = S (snd acc).
Proof.
  destruct acc as [pd cnt], item as [target ids]. intros H.
  unfold reconcile_step in H. step H. destruct a as [prjid pd1].
  step H. apply ret_inv in H. destruct H as [H _].
  injection H as _ ->. reflexivity.
Qed.

Lemma reconcile_loop_counts items pd cnt log pd' cnt' log' :
  reconcile_loop projects_mapping projects_extern items (pd, cnt) log
  = Ok ((pd', cnt'), log') ->
  cnt' = length items + cnt.
Proof.
  revert pd cnt log. induction items as [| item items IH];
    intros pd cnt log H; cbn [reconcile_loop List.length] in *.
  - apply ret_inv in H. destruct H as [H _]. injection H as _ ->.
    reflexivity.
  - step H. destruct a as [pd1 cnt1].
    apply reconcile_step_counts in H0. simpl in H0. subst cnt1.
    apply IH in H. lia.
Qed.

End Reconciliation.

(** ** The identities of the placeholders are new *)

Lemma get_none_not_in {V} (d : list (string * V)) k :
  ~ In k (Dict.keys d) -> Dict.get String.eqb d k = None.
Proof.
  unfold Dict.keys. induction d as [| [k' v] d IH]; simpl; [reflexivity |].
  intros Hn. destruct (String.eqb_spec k' k) as [-> | Hne].
  - exfalso. apply Hn. left. reflexivity.
  - apply IH. intros Hin. apply Hn. right. exact Hin.
Qed.

Lemma keys_set {V} (d : list (string * V)) k v k' :
  In k' (Dict.keys (Dict.set String.eqb d k v)) ->
  In k' (Dict.keys d) \/ k' = k.
Proof.
  unfold Dict.keys. induction d as [| [k0 v0] d IH]; simpl.
  - intros [<- | []]. right. reflexivity.
  - destruct (String.eqb k0 k); simpl.
    + intros [<- | Hin]; auto.
    + intros [<- | Hin]; auto. destruct (IH Hin); auto.
Qed.

Lemma placeholder_id_prefix cnt :
  String.prefix "zzz-unknown-" (placeholder_id cnt) = true.
Proof. unfold placeholder_id. simpl. destruct (str_nat cnt); reflexivity. Qed.

Section Fresh.
Variable projects_mapping : list (string * string).
Variable projects_extern : list scalar.

Lemma reconcile_step_keys pd cnt item log pd' cnt' log' k :
  reconcile_step projects_mapping projects_extern (pd, cnt) item log
  = Ok ((pd', cnt'), log') ->
  In k (Dict.keys pd') -> In k (Dict.keys pd) \/ k = placeholder_id cnt.
Proof.
  destruct item as [target ids]. intros H Hin.
  destruct (mapping_get projects_mapping target) as [prjid |] eqn:Hmap.
  - unfold reconcile_step in H. rewrite Hmap in H.
    peel H as r l1 H1. apply ret_inv in H1. destruct H1 as [-> _].
    peel H as pd1 l2 H2. apply ret_inv in H. destruct H as [H _].
    injection H as -> _. apply lift_inv in H2. destruct H2 as [H2 _].
    unfold assign_used_by in H2.
    destruct (Dict.get String.eqb pd prjid) as [e |] eqn:Hget;
      [| discriminate].
    injection H2 as <-. left.
    rewrite (set_keys_present String.eqb pd prjid _ e Hget) in Hin.
    exact Hin.
  - rewrite (reconcile_step_unresolved _ _ _ _ _ _ _ Hmap) in H.
    injection H as <- _ _. apply keys_set in Hin. exact Hin.
Qed.

Lemma reconcile_loop_keys items : forall pd cnt log pd' cnt' log' k,
  reconcile_loop projects_mapping projects_extern items (pd, cnt) log
  = Ok ((pd', cnt'), log') ->
  In k (Dict.keys pd') ->
  In k (Dict.keys pd) \/
  exists j, cnt <= j < cnt' /\ k = placeholder_id j.
Proof.
  induction items as [| item items IH]; intros pd cnt log pd' cnt' log' k H Hin;
    cbn [reconcile_loop] in H.
  - apply ret_inv in H. destruct H as [H _]. injection H as -> ->.
    left. exact Hin.
  - peel H as acc l1 H1. destruct acc as [pd1 cnt1].
    pose proof (reconcile_step_counts _ _ _ _ _ _ _ _ H1) as Hc.
    simpl in Hc. subst cnt1.
    pose proof (reconcile_loop_counts _ _ _ _ _ _ _ _ _ H) as Hc'.
    destruct (IH _ _ _ _ _ _ k H Hin) as [Hk | (j & Hj & ->)].
    + destruct (reconcile_step_keys _ _ _ _ _ _ _ k H1 Hk) as [Hk' | ->].
      * left. exact Hk'.
      * right. exists cnt. split; [lia | reflexivity].
    + right. exists j. split; [lia | reflexivity].
Qed.

Lemma placeholder_is_fresh items pd0 log0 pd cnt log :
  (forall k, In k (Dict.keys pd0) -> String.prefix "zzz-unknown-" k = false) ->
  reconcile_loop projects_mapping projects_extern items (pd0, 0) log0
  = Ok ((pd, cnt), log) ->
  Dict.get String.eqb pd (placeholder_id cnt) = None.
Proof.
  intros Hplain Hrun. apply get_none_not_in. intros Hin.
  destruct (reconcile_loop_keys _ _ _ _ _ _ _ _ Hrun Hin)
    as [Hk | (j & Hj & Heq)].
  - apply Hplain in Hk. rewrite placeholder_id_prefix in Hk. discriminate.
  - apply placeholder_id_inj in Heq. lia.
Qed.

End Fresh.

(** C2 (amended).  When the reconciliation pass comes to the pair
    [(target, ids)] of the edge table, its counter equals the position
    of the pair.  If [target] is a key of [projects_mapping], the entity
    it names gets [ids] as its [used_by], whatever it held before, and
    nothing else changes.  Otherwise a placeholder is stored under
    ["zzz-unknown-" + str(position)]: its kind is [role_extern] if
    [target] is in [projects_extern] and [role_unknown] if not, its url
    and web_url are empty, its name is [target] and its [used_by] is
    [ids].  That identity differs from the one of every other position;
    when no entity carries it yet the placeholder is one new entity,
    added after the existing ones; and no entity carries it when no
    identity of the traversal starts with ["zzz-unknown-"]. *)
Theorem reconcile_handles_each_pair
        projects_mapping projects_extern before target ids after
        projects_data0 log0 entities cnt log :
  reconcile_loop projects_mapping projects_extern before
    (projects_data0, 0) log0 = Ok ((entities, cnt), log) ->
  let step :=
    reconcile_step projects_mapping projects_extern (entities, cnt)
      (target, ids) in
  cnt = length before /\
  reconcile_loop projects_mapping projects_extern
    (before ++ (target, ids) :: after) (projects_data0, 0) log0
  = bind step (reconcile_loop projects_mapping projects_extern after) log /\
  (forall prjid e,
      mapping_get projects_mapping target = Some prjid ->
      Dict.get String.eqb entities prjid = Some e ->
      step log = Ok ((Dict.set String.eqb entities prjid
                        (Entity.set_used_by e ids), S cnt), log)) /\
  (mapping_get projects_mapping target = None ->
   let e :=
     Entity.set_used_by
       (placeholder (if is_extern projects_extern target
                     then role_extern else role_unknown) target) ids in
   step log = Ok ((Dict.set String.eqb entities (placeholder_id cnt) e,
                   S cnt),
                  log ++ [Printed red (unknown_path target)]) /\
   Entity.url e = "" /\ Entity.web_url e = "" /\
   Entity.name e = target /\ Entity.used_by e = ids /\
   (forall j, j <> cnt -> placeholder_id j <> placeholder_id cnt) /\
   (Dict.get String.eqb entities (placeholder_id cnt) = None ->
    Dict.set String.eqb entities (placeholder_id cnt) e
    = entities ++ [(placeholder_id cnt, e)]) /\
   ((forall k, In k (Dict.keys projects_data0) ->
               String.prefix "zzz-unknown-" k = false) ->
    Dict.get String.eqb entities (placeholder_id cnt) = None)).
Proof.
  intros Hrun step. split; [| split; [| split]].
  - apply reconcile_loop_counts in Hrun. lia.
  - rewrite (reconcile_loop_app _ _ _ _ _ _ _ _ Hrun). reflexivity.
  - intros prjid e Hmap Hget. apply reconcile_step_resolved; assumption.
  - intros Hmap e. repeat split.
    + apply reconcile_step_unresolved. exact Hmap.
    + intros j Hj Heq. apply Hj. apply placeholder_id_inj. exact Heq.
    + apply set_fresh.
    + intros Hplain. eapply placeholder_is_fresh; eassumption.
Qed.

Lemma reconcile_handles_each_pair_witness :
  reconcile_loop [ ("infra/webserver", "webserver-12") ] [ SStr "b" ]
    ([ (SStr "a", [ "site-5" ]) ]
     ++ (SStr "b", [ "site-5"; "webserver-12" ])
     :: [ (SStr "infra/webserver", [ "site-5" ]) ])
    ([ ("webserver-12", placeholder role (SStr "webserver")) ], 0%nat) []
  = bind (reconcile_step [ ("infra/webserver", "webserver-12") ]
            [ SStr "b" ]
            ([ ("webserver-12", placeholder role (SStr "webserver"));
               ("zzz-unknown-0",
                Entity.set_used_by (placeholder role_unknown (SStr "a"))
                  [ "site-5" ]) ], 1%nat)
            (SStr "b", [ "site-5"; "webserver-12" ]))
      (reconcile_loop [ ("infra/webserver", "webserver-12") ] [ SStr "b" ]
         [ (SStr "infra/webserver", [ "site-5" ]) ])
      [ Printed red (unknown_path (SStr "a")) ].
Proof.
  refine (proj1 (proj2
    (reconcile_handles_each_pair
       [ ("infra/webserver", "webserver-12") ] [ SStr "b" ]
       [ (SStr "a", [ "site-5" ]) ]
       (SStr "b") [ "site-5"; "webserver-12" ]
       [ (SStr "infra/webserver", [ "site-5" ]) ]
       [ ("webserver-12", placeholder role (SStr "webserver")) ] []
       _ _ _ _))).
  vm_compute. reflexivity.
Defined.

(** A repository that is called "zzz-unknown" and has id 1: the
    placeholder made for the second pair of the edge table gets its
    identity, and replaces it in the entity set. *)
Lemma placeholder_identity_collides :
  exists st log entities log1 e,
    traverse Scenario.GITLAB_URL Scenario.PATH_FILTERS
      (Scenario.snapshot [ Scenario.zzz ]) [] = Ok (st, log) /\
    used_by_data st
    = [ (SStr "a", [ "zzz-unknown-1" ]) ] ++ [ (SStr "b", [ "zzz-unknown-1" ]) ] /\
    reconcile_loop (projects_mapping st) (projects_extern st)
      [ (SStr "a", [ "zzz-unknown-1" ]) ] (projects_data st, 0%nat) log
    = Ok ((entities, 1%nat), log1) /\
    mapping_get (projects_mapping st) (SStr "b") = None /\
    Dict.get String.eqb entities (placeholder_id 1) = Some e /\
    Entity.state e = role /\
    option_map (fun r => map (fun x => (fst x, Entity.state (snd x))) (fst r))
      (match generate_projects_data Scenario.GITLAB_URL Scenario.PATH_FILTERS
               (Scenario.snapshot [ Scenario.zzz ]) [] with
       | Ok r => Some r
       | _ => None
       end)
    = Some [ ("zzz-unknown-1", role_extern); ("zzz-unknown-0", role_extern) ].
Proof.
  do 5 eexists. vm_compute. repeat split; reflexivity.
Qed.

(** ** Dependencies without a source *)


Lemma get_set_scalar {V} (d : list (scalar * V)) k v :
  Dict.get scalar_eqb (Dict.set scalar_eqb d k v) k = Some v.
Proof.
  induction d as [| [k' v'] d IH]; simpl.
  - rewrite scalar_eqb_refl. reflexivity.
  - destruct (scalar_eqb k' k) eqn:E; simpl; rewrite E; auto.
Qed.

Lemma record_edge_records used_by_data target prjid :
  exists ids,
    Dict.get scalar_eqb (record_edge used_by_data target prjid) target
    = Some ids /\ In prjid ids.
Proof.
  unfold record_edge.
  destruct (Dict.get scalar_eqb used_by_data target) as [ids |] eqn:Hget.
  - destruct (existsb (String.eqb prjid) ids) eqn:Hin.
    + exists ids. split; [exact Hget |].
      apply existsb_exists in Hin. destruct Hin as (x & Hx & Heq).
      apply String.eqb_eq in Heq. subst x. exact Hx.
    + exists (ids ++ [prjid]). split; [apply get_set_scalar |].
      apply in_or_app. right. left. reflexivity.
  - exists [prjid]. split; [apply get_set_scalar |]. left. reflexivity.
Qed.



(** The scenario from end to end: a play that requires
    [{name: "community.general"}]. *)
Lemma community_general_becomes_external :
  outcome (generate_projects_data Scenario.GITLAB_URL Scenario.PATH_FILTERS
             (Scenario.snapshot [ Scenario.galaxy_user ]) [])
  = Ok [ ("deploy-7",
          {| Entity.state := play;
             Entity.name := SStr "deploy";
             Entity.url := "git@gitlab.example.com:infra/deploy.git";
             Entity.web_url := "https://gitlab.example.com/infra/deploy";
             Entity.group := "infra";
             Entity.description := None;
             Entity.platforms := None;
             Entity.galaxy_tags := None;
             Entity.git_tags := [];
             Entity.used_by := [] |});
         ("zzz-unknown-0",
          {| Entity.state := role_extern;
             Entity.name := SStr "community.general";
             Entity.url := "";
             Entity.web_url := "";
             Entity.group := "unknown";
             Entity.description := Some (YStr "unknown");
             Entity.platforms := Some (YList []);
             Entity.galaxy_tags := Some (YList []);
             Entity.git_tags := [];
             Entity.used_by := [ "deploy-7" ] |}) ].
Proof. vm_compute. reflexivity. Qed.


(** ** The pattern of the group: [^(.+)/[^/]+$] *)

Section Many1.
Variable R : Type.
Variable cs : Re.cset.

Lemma many1_inv s : forall pos k (r : R),
  Re.many1 R cs pos s k = Some r ->
  exists a b, s = (a ++ b)%string /\ a <> EmptyString /\ every cs a = true /\
              k (pos + String.length a) b = Some r.
Proof.
  induction s as [| c s IH]; intros pos k r H; simpl in H; [discriminate |].
  destruct (Re.accepts cs c) eqn:Hc; [| discriminate].
  destruct (Re.many1 R cs (S pos) s k) as [r' |] eqn:Hm.
  - injection H as ->. destruct (IH _ _ _ Hm) as (a & b & -> & Ha & He & Hk).
    exists (String c a), b. repeat split.
    + discriminate.
    + simpl. rewrite Hc. exact He.
    + simpl. rewrite Nat.add_succ_r. exact Hk.
  - exists (String c EmptyString), s. repeat split.
    + discriminate.
    + simpl. rewrite Hc. reflexivity.
    + simpl. rewrite Nat.add_1_r. exact H.
Qed.

Lemma many1_some a : forall b pos k (r : R),
  a <> EmptyString -> every cs a = true ->
  k (pos + String.length a) b = Some r ->
  exists r', Re.many1 R cs pos (a ++ b)%string k = Some r'.
Proof.
  induction a as [| c a IH]; intros b pos k r Ha He Hk; [congruence |].
  simpl in He. apply andb_true_iff in He. destruct He as [Hc He].
  simpl. rewrite Hc.
  destruct (Re.many1 R cs (S pos) (a ++ b)%string k) as [r' |] eqn:Hm.
  - exists r'. reflexivity.
  - destruct a as [| c' a].
    + simpl in *. rewrite Nat.add_1_r in Hk. exists r. exact Hk.
    + exfalso. simpl String.length in Hk. rewrite Nat.add_succ_r in Hk.
      destruct (IH b (S pos) k r) as (r' & Hr'); try assumption.
      * discriminate.
      * congruence.
Qed.
End Many1.

Lemma group_pattern_unfold s :
  Re.re_match group_pattern s =
  Re.many1 _ Re.Any 0 s (fun p1 s1 =>
    match s1 with
    | String c s2 =>
        if Re.accepts (Re.Lit "/") c then
          Re.many1 _ (Re.Not "/") (S p1) s2 (fun _ s3 =>
            if Re.at_end s3 then Some [String.substring 0 (p1 - 0) s] else None)
        else None
    | EmptyString => None
    end).
Proof. reflexivity. Qed.

Lemma substring_prefix a : forall b,
  String.substring 0 (String.length a) (a ++ b)%string = a.
Proof.
  induction a as [| c a IH]; intros b; simpl.
  - destruct b; reflexivity.
  - rewrite IH. reflexivity.
Qed.

Lemma occurs_append c a : forall b,
  occurs c (a ++ b)%string = occurs c a || occurs c b.
Proof.
  induction a as [| c' a IH]; intros b; simpl; [reflexivity |].
  rewrite IH. apply orb_assoc.
Qed.

Lemma every_not_occurs c a : every (Re.Not c) a = negb (occurs c a).
Proof.
  induction a as [| c' a IH]; simpl; [reflexivity |].
  rewrite IH, negb_orb. reflexivity.
Qed.

Lemma every_any_occurs a : every Re.Any a = negb (occurs Re.newline a).
Proof.
  induction a as [| c' a IH]; simpl; [reflexivity |].
  rewrite IH, negb_orb. reflexivity.
Qed.

Lemma at_end_no_slash s : Re.at_end s = true -> occurs "/" s = false.
Proof.
  destruct s as [| c [| c' s]]; simpl; try discriminate; [reflexivity |].
  intros H. apply Ascii.eqb_eq in H. subst c. reflexivity.
Qed.

Lemma append_empty_r s : (s ++ "")%string = s.
Proof. induction s; simpl; congruence. Qed.

(** The text before the last ["/"] is determined by the string. *)
Lemma last_slash_unique g : forall g' seg seg',
  occurs "/" seg = false -> occurs "/" seg' = false ->
  (g ++ String "/" seg)%string = (g' ++ String "/" seg')%string -> g = g'.
Proof.
  induction g as [| c g IH]; intros [| c' g'] seg seg' Hs Hs' H; simpl in H.
  - reflexivity.
  - injection H as <- ->. rewrite occurs_append in Hs. simpl in Hs.
    rewrite orb_true_r in Hs. discriminate.
  - injection H as -> <-. rewrite occurs_append in Hs'. simpl in Hs'.
    rewrite orb_true_r in Hs'. discriminate.
  - injection H as -> H. f_equal. exact (IH g' seg seg' Hs Hs' H).
Qed.

Lemma group_pattern_sound s caps :
  Re.re_match group_pattern s = Some caps ->
  exists g seg,
    caps = [g] /\ s = (g ++ String "/" seg)%string /\
    g <> EmptyString /\ occurs Re.newline g = false /\
    seg <> EmptyString /\ occurs "/" seg = false.
Proof.
  rewrite group_pattern_unfold. intros H.
  apply many1_inv in H. destruct H as (g & b & Hs & Hg & Hany & H).
  destruct b as [| c s2]; [discriminate |].
  destruct (Re.accepts (Re.Lit "/") c) eqn:Hc; [| discriminate].
  simpl in Hc. apply Ascii.eqb_eq in Hc. subst c.
  apply many1_inv in H. destruct H as (a2 & b2 & -> & Ha2 & Hnot & H).
  destruct (Re.at_end b2) eqn:Hend; [| discriminate].
  injection H as <-. exists g, (a2 ++ b2)%string. repeat split.
  - simpl. rewrite Nat.sub_0_r, Hs, substring_prefix. reflexivity.
  - exact Hs.
  - exact Hg.
  - rewrite every_any_occurs in Hany. apply negb_true_iff in Hany. exact Hany.
  - destruct a2; [congruence | simpl; discriminate].
  - rewrite occurs_append. rewrite every_not_occurs in Hnot.
    apply negb_true_iff in Hnot. rewrite Hnot. simpl.
    apply at_end_no_slash. exact Hend.
Qed.

Lemma group_pattern_complete g seg :
  g <> EmptyString -> occurs Re.newline g = false ->
  seg <> EmptyString -> occurs "/" seg = false ->
  Re.re_match group_pattern (g ++ String "/" seg)%string = Some [g].
Proof.
  intros Hg Hnl Hseg Hslash.
  assert (exists r, Re.re_match group_pattern (g ++ String "/" seg)%string
                    = Some r) as (r & Hr).
  { rewrite group_pattern_unfold.
    assert (every (Re.Not "/") seg = true) as Hev
        by (rewrite every_not_occurs, Hslash; reflexivity).
    set (k2 := fun (_ : nat) (s3 : string) =>
                 if Re.at_end s3
                 then Some [String.substring 0 (0 + String.length g - 0)
                              (g ++ String "/" seg)%string]
                 else None).
    destruct (many1_some _ (Re.Not "/") seg EmptyString
                (S (0 + String.length g)) k2 _ Hseg Hev eq_refl)
      as (r2 & Hr2).
    rewrite append_empty_r in Hr2.
    eapply many1_some.
    - exact Hg.
    - rewrite every_any_occurs, Hnl. reflexivity.
    - simpl. exact Hr2. }
  rewrite Hr. destruct (group_pattern_sound _ _ Hr)
    as (g' & seg' & -> & Heq & _ & _ & _ & Hslash').
  apply last_slash_unique in Heq; try assumption. subst g'. reflexivity.
Qed.

Lemma group_pattern_needs_slash s :
  occurs "/" s = false -> Re.re_match group_pattern s = None.
Proof.
  intros H. destruct (Re.re_match group_pattern s) as [caps |] eqn:E;
    [| reflexivity].
  destruct (group_pattern_sound _ _ E) as (g & seg & _ & -> & _).
  rewrite occurs_append in H. simpl in H. rewrite orb_true_r in H.
  discriminate.
Qed.

(** ** The Attribute Extractor *)

Lemma rbind_inv {A B} (r : result A) (f : A -> result B) b :
  rbind r f = Ok b -> exists a, r = Ok a /\ f a = Ok b.
Proof.
  destruct r as [a | e | n]; simpl; try discriminate.
  intros H. exists a. split; [reflexivity | exact H].
Qed.

Lemma galaxy_key_absent_default content key default :
  galaxy_key_absent content key ->
  galaxy_info_or content key default = Ok default.
Proof.
  intros (m & -> & [Hnone | (g & Hg & Hkey)]); unfold galaxy_info_or; simpl.
  - rewrite Hnone. reflexivity.
  - rewrite Hg. simpl. rewrite Hkey. reflexivity.
Qed.

(** The lookup in galaxy_info yields a value or a [TypeError] (when the
    document or its galaxy_info is not a mapping); it never exits. *)
Lemma galaxy_info_or_cases content key default :
  (exists v, galaxy_info_or content key default = Ok v) \/
  galaxy_info_or content key default = Raise TypeError.
Proof.
  unfold galaxy_info_or.
  destruct content as [| b | z | s | l | m]; simpl; auto.
  destruct (assoc m "galaxy_info") as [g |]; simpl; [| eauto].
  destruct g as [| b | z | s | l | g]; simpl; auto.
  destruct (assoc g key); eauto.
Qed.

(** C7.  The record [set_role_attributes] returns has the empty string
    as description and the empty list as platforms and galaxy_tags
    whenever the key is absent from galaxy_info, an empty [used_by], and
    as group the namespaced path without its last segment: the path is
    the group, a ["/"], and a non-empty segment without ["/"].  For a
    path without ["/"] the function raises.  And it does return: for a
    document without galaxy_info and a path made of a non-empty group
    without line break, a ["/"] and a non-empty segment without ["/"],
    the record with all defaults comes back. *)
Theorem set_role_attributes_record project content :
  (forall e,
      set_role_attributes project content = Ok e ->
      (galaxy_key_absent content "description" ->
       Entity.description e = Some (YStr "")) /\
      (galaxy_key_absent content "platforms" ->
       Entity.platforms e = Some (YList [])) /\
      (galaxy_key_absent content "galaxy_tags" ->
       Entity.galaxy_tags e = Some (YList [])) /\
      Entity.used_by e = [] /\
      exists segment,
        Project.path_with_namespace project
        = (Entity.group e ++ String "/" segment)%string /\
        segment <> EmptyString /\ occurs "/" segment = false) /\
  (occurs "/" (Project.path_with_namespace project) = false ->
   exists x, set_role_attributes project content = Raise x) /\
  (forall m group segment git_tags,
      content = YMap m ->
      assoc m "galaxy_info" = None ->
      Project.path_with_namespace project
      = (group ++ String "/" segment)%string ->
      group <> EmptyString -> occurs Re.newline group = false ->
      segment <> EmptyString -> occurs "/" segment = false ->
      Project.tags project = Ok git_tags ->
      set_role_attributes project content
      = Ok {| Entity.state := role;
              Entity.name := SStr (Project.name project);
              Entity.url := Project.ssh_url_to_repo project;
              Entity.web_url := Project.web_url project;
              Entity.group := group;
              Entity.description := Some (YStr "");
              Entity.platforms := Some (YList []);
              Entity.galaxy_tags := Some (YList []);
              Entity.git_tags := git_tags;
              Entity.used_by := [] |}).
Proof.
  split; [| split].
  - intros e H. unfold set_role_attributes in H.
    apply rbind_inv in H. destruct H as (d & Hd & H).
    apply rbind_inv in H. destruct H as (pl & Hpl & H).
    apply rbind_inv in H. destruct H as (gt & Hgt & H).
    apply rbind_inv in H. destruct H as (grp & Hgrp & H).
    apply rbind_inv in H. destruct H as (tags & Htags & H).
    injection H as <-. simpl. repeat split.
    + intros Habs. rewrite (galaxy_key_absent_default _ _ _ Habs) in Hd.
      congruence.
    + intros Habs. rewrite (galaxy_key_absent_default _ _ _ Habs) in Hpl.
      congruence.
    + intros Habs. rewrite (galaxy_key_absent_default _ _ _ Habs) in Hgt.
      congruence.
    + unfold group_of, Re.group1 in Hgrp.
      destruct (Re.re_match group_pattern
                  (Project.path_with_namespace project)) as [caps |] eqn:E;
        [| discriminate].
      destruct (group_pattern_sound _ _ E)
        as (g & seg & -> & Hpath & _ & _ & Hseg & Hslash).
      simpl in Hgrp. injection Hgrp as <-.
      exists seg. repeat split; assumption.
  - intros Hno. unfold set_role_attributes.
    destruct (galaxy_info_or_cases content "description" (YStr ""))
      as [(d & ->) | ->]; simpl; [| eauto].
    destruct (galaxy_info_or_cases content "platforms" (YList []))
      as [(pl & ->) | ->]; simpl; [| eauto].
    destruct (galaxy_info_or_cases content "galaxy_tags" (YList []))
      as [(gt & ->) | ->]; simpl; [| eauto].
    unfold group_of. rewrite (group_pattern_needs_slash _ Hno). simpl.
    eauto.
  - intros m group segment git_tags -> Hgi Hpath Hg Hnl Hseg Hslash Htags.
    unfold set_role_attributes, galaxy_info_or, group_of. simpl.
    rewrite Hgi. simpl. rewrite Hpath.
    rewrite (group_pattern_complete _ _ Hg Hnl Hseg Hslash). simpl.
    rewrite Htags. reflexivity.
Qed.

Lemma set_role_attributes_record_witness :
  set_role_attributes Scenario.webserver (YMap [ ("dependencies", YList []) ])
  = Ok {| Entity.state := role;
          Entity.name := SStr "webserver";
          Entity.url := "git@gitlab.example.com:infra/webserver.git";
          Entity.web_url := "https://gitlab.example.com/infra/webserver";
          Entity.group := "infra";
          Entity.description := Some (YStr "");
          Entity.platforms := Some (YList []);
          Entity.galaxy_tags := Some (YList []);
          Entity.git_tags := [];
          Entity.used_by := [] |}.
Proof.
  refine (proj2 (proj2 (set_role_attributes_record Scenario.webserver
                          (YMap [ ("dependencies", YList []) ])))
            [ ("dependencies", YList []) ] "infra" "webserver" []
            eq_refl eq_refl eq_refl _ eq_refl _ eq_refl eq_refl);
    discriminate.
Defined.

(** A path without separator: the extraction raises [AttributeError]. *)
Lemma set_role_attributes_without_separator project m :
  occurs "/" (Project.path_with_namespace project) = false ->
  assoc m "galaxy_info" = None ->
  set_role_attributes project (YMap m) = Raise AttributeError.
Proof.
  intros Hno Hgi. unfold set_role_attributes, galaxy_info_or, group_of.
  simpl. rewrite Hgi. simpl.
  rewrite (group_pattern_needs_slash _ Hno). reflexivity.
Qed.

(** ** The Metadata Fetcher *)

(** C3 (amended).  [get_yaml_content] exits with status 255 when the
    directory listing raises [GitlabHttpError].  It returns the empty
    document when the listing raises [GitlabGetError] (with the message
    of a missing tree, or with any other message, which is then reported
    as an error), when the listing is empty, when no entry has the file
    name, and when the retrieval of the blob raises [GitlabHttpError].
    Otherwise it returns the parsed document. *)
Theorem get_yaml_content_outcomes project path filename log :
  let log1 := log ++ [Fetched (Project.id project) path filename] in
  (forall e,
      Project.repository_tree project path = Raise (GitlabHttpError e) ->
      get_yaml_content project path filename log = Exit 255) /\
  (forall e,
      Project.repository_tree project path = Raise (GitlabGetError e) ->
      get_yaml_content project path filename log
      = Ok (YMap [],
            (log1 ++ [Printed blue (skip_no_files (Project.name project))])
            ++ (if String.eqb e tree_not_found then []
                else [Printed red (tree_failed e)]))) /\
  (Project.repository_tree project path = Ok [] ->
   get_yaml_content project path filename log = Ok (YMap [], log1)) /\
  (forall items,
      Project.repository_tree project path = Ok items ->
      first_named items filename = None ->
      get_yaml_content project path filename log = Ok (YMap [], log1)) /\
  (forall items meta_main e,
      Project.repository_tree project path = Ok items ->
      first_named items filename = Some meta_main ->
      Project.repository_blob project (Item.id meta_main)
      = Raise (GitlabHttpError e) ->
      get_yaml_content project path filename log
      = Ok (YMap [], log1 ++ [Printed red (file_info_failed e)])) /\
  (forall items meta_main file_info doc,
      Project.repository_tree project path = Ok items ->
      first_named items filename = Some meta_main ->
      Project.repository_blob project (Item.id meta_main) = Ok file_info ->
      FileInfo.content file_info = Ok doc ->
      get_yaml_content project path filename log = Ok (doc, log1)).
Proof.
  intros log1. unfold get_yaml_content, bind, emit. fold log1.
  repeat split.
  - intros e ->. reflexivity.
  - intros e ->. unfold cprint, emit, ret.
    destruct (String.eqb e tree_not_found); simpl.
    + rewrite List.app_nil_r. reflexivity.
    + reflexivity.
  - intros ->. reflexivity.
  - intros items -> Hnone. destruct items as [| f items]; [reflexivity |].
    simpl Nat.ltb. cbv iota. rewrite Hnone. reflexivity.
  - intros items f e -> Hsome Hblob.
    destruct items as [| f0 items]; [discriminate |].
    simpl Nat.ltb. cbv iota. rewrite Hsome, Hblob. reflexivity.
  - intros items f fi doc -> Hsome Hblob Hdoc.
    destruct items as [| f0 items]; [discriminate |].
    simpl Nat.ltb. cbv iota. rewrite Hsome, Hblob. unfold lift.
    rewrite Hdoc. reflexivity.
Qed.

Lemma get_yaml_content_outcomes_witness :
  get_yaml_content Scenario.unreadable "meta" "main.yml" []
  = Ok (YMap [],
        [ Fetched 3 "meta" "main.yml" ]
        ++ [ Printed red (file_info_failed "500: Internal Server Error") ]).
Proof.
  refine (proj1 (proj2 (proj2 (proj2 (proj2
            (get_yaml_content_outcomes Scenario.unreadable "meta" "main.yml"
               [])))))
            [ {| Item.name := "main.yml"; Item.id := "b1" |} ]
            {| Item.name := "main.yml"; Item.id := "b1" |}
            "500: Internal Server Error" eq_refl eq_refl eq_refl).
Defined.

(** Whatever the retrieval of the blob raises, the fetcher does not
    exit with status 255: a [GitlabHttpError] gives the empty document,
    any other exception goes on to the caller. *)
Lemma blob_failure_never_exits project path filename log items meta_main e :
  Project.repository_tree project path = Ok items ->
  first_named items filename = Some meta_main ->
  Project.repository_blob project (Item.id meta_main) = Raise e ->
  get_yaml_content project path filename log <> Exit 255.
Proof.
  intros Htree Hsome Hblob. unfold get_yaml_content, bind, emit.
  rewrite Htree. destruct items as [| f0 items]; [discriminate |].
  simpl Nat.ltb. cbv iota. rewrite Hsome, Hblob.
  destruct e; discriminate.
Qed.

(** The retrieval of the blob fails with an error that is not a
    not-found condition, and the fetcher returns the empty document
    instead of exiting with status 255. *)
Lemma blob_failure_does_not_abort :
  Project.repository_blob Scenario.unreadable "b1"
  = Raise (GitlabHttpError "500: Internal Server Error") /\
  outcome (get_yaml_content Scenario.unreadable "meta" "main.yml" [])
  = Ok (YMap []) /\
  get_yaml_content Scenario.unreadable "meta" "main.yml" [] <> Exit 255.
Proof.
  repeat split; try reflexivity. vm_compute. discriminate.
Qed.

(** ** Computations that agree step by step *)

Lemma bind_cong {A B} (m m' : M A) (f f' : A -> M B) log :
  m log = m' log -> (forall a l, f a l = f' a l) ->
  bind m f log = bind m' f' log.
Proof.
  intros Hm Hf. unfold bind. rewrite Hm.
  destruct (m' log) as [[a l] | |]; try reflexivity. apply Hf.
Qed.

(** ** The scenarios of the specification *)

(** A single filter that matches runs the body of the loop once. *)
Lemma one_matching_filter_runs_the_body_once GITLAB_URL gl path p st log :
  Re.re_match path (Project.path_with_namespace p) <> None ->
  filters_loop GITLAB_URL gl [ path ] p st log
  = process GITLAB_URL gl p st log.
Proof.
  intros H. cbn [filters_loop].
  destruct (Re.re_match path (Project.path_with_namespace p)); [| congruence].
  unfold bind.
  destruct (process GITLAB_URL gl p st log) as [[st1 log1] | |]; reflexivity.
Qed.

(** C8.  The role "webserver" (id 12), whose [meta/main.yml] holds a
    description and no dependencies, listed before the play "site"
    (id 5), whose [roles/requirements.yml] is
    [[{src: "git@gitlab.example.com:infra/webserver.git"}]], under a
    filter that matches both: the traversal makes the entity
    ["webserver-12"] of kind [role] with an empty [used_by] and leaves
    the edge table [{"infra/webserver": ["site-5"]}]; after the
    reconciliation the [used_by] of ["webserver-12"] is [["site-5"]]. *)
Theorem webserver_and_site_scenario path :
  Re.re_match path "infra/webserver" <> None ->
  Re.re_match path "infra/site" <> None ->
  exists st log entities log',
    traverse Scenario.GITLAB_URL [ path ] Scenario.webserver_and_site []
    = Ok (st, log) /\
    option_map (fun e => (Entity.state e, Entity.used_by e))
      (Dict.get String.eqb (projects_data st) "webserver-12")
    = Some (role, []) /\
    used_by_data st = [ (SStr "infra/webserver", [ "site-5" ]) ] /\
    reconcile st log = Ok (entities, log') /\
    generate_projects_data Scenario.GITLAB_URL [ path ]
      Scenario.webserver_and_site [] = Ok (entities, log') /\
    Dict.keys entities = [ "webserver-12"; "site-5" ] /\
    option_map Entity.used_by (Dict.get String.eqb entities "webserver-12")
    = Some [ "site-5" ].
Proof.
  intros Hw Hs.
  assert (exists st log,
             traverse Scenario.GITLAB_URL [ path ] Scenario.webserver_and_site []
             = Ok (st, log) /\
             traverse Scenario.GITLAB_URL Scenario.PATH_FILTERS
               Scenario.webserver_and_site [] = Ok (st, log))
    as (st & log & Hrun & Href).
  { unfold traverse, bind, lift. simpl projects_list. cbv iota.
    cbn [projects_loop Scenario.webserver_and_site].
    change (Project.archived Scenario.webserver) with false.
    change (Project.archived Scenario.site) with false. cbv iota.
    unfold bind.
    rewrite (one_matching_filter_runs_the_body_once _ _ path) by exact Hw.
    rewrite (one_matching_filter_runs_the_body_once _ _ (Re.of_plain "infra/"))
      by (vm_compute; discriminate).
    destruct (process Scenario.GITLAB_URL Scenario.webserver_and_site
                Scenario.webserver initial []) as [[st1 log1] | |] eqn:E1;
      try (vm_compute in E1; discriminate).
    rewrite (one_matching_filter_runs_the_body_once _ _ path) by exact Hs.
    rewrite (one_matching_filter_runs_the_body_once _ _ (Re.of_plain "infra/"))
      by (vm_compute; discriminate).
    destruct (process Scenario.GITLAB_URL Scenario.webserver_and_site
                Scenario.site st1 log1) as [[st2 log2] | |] eqn:E2.
    - exists st2, log2. split; reflexivity.
    - vm_compute in E1. injection E1 as <- <-. vm_compute in E2. discriminate.
    - vm_compute in E1. injection E1 as <- <-. vm_compute in E2. discriminate. }
  vm_compute in Href. injection Href as <- <-.
  do 4 eexists. unfold generate_projects_data, bind. rewrite Hrun.
  split; [reflexivity |].
  vm_compute. repeat split; reflexivity.
Qed.

Lemma webserver_and_site_scenario_witness :
  exists st log entities log',
    traverse Scenario.GITLAB_URL [ Re.of_plain "infra/" ]
      Scenario.webserver_and_site [] = Ok (st, log) /\
    option_map (fun e => (Entity.state e, Entity.used_by e))
      (Dict.get String.eqb (projects_data st) "webserver-12")
    = Some (role, []) /\
    used_by_data st = [ (SStr "infra/webserver", [ "site-5" ]) ] /\
    reconcile st log = Ok (entities, log') /\
    generate_projects_data Scenario.GITLAB_URL [ Re.of_plain "infra/" ]
      Scenario.webserver_and_site [] = Ok (entities, log') /\
    Dict.keys entities = [ "webserver-12"; "site-5" ] /\
    option_map Entity.used_by (Dict.get String.eqb entities "webserver-12")
    = Some [ "site-5" ].
Proof.
  apply (webserver_and_site_scenario (Re.of_plain "infra/"));
    vm_compute; discriminate.
Defined.

(** ** Repositories that match more than one filter *)

(** C4, at the input where it fails.  With the filters [infra] and
    [infra/], which both match
    [infra/webserver], the body of the filter loop runs twice for the
    repository: [meta/main.yml] is fetched twice although the role
    metadata is there.  With one of the filters it is fetched once. *)
Lemma repository_matching_two_filters_is_processed_twice :
  (forall path, In path Scenario.overlapping_filters ->
                Re.re_match path "infra/webserver" <> None) /\
  (exists entities log,
      generate_projects_data Scenario.GITLAB_URL Scenario.overlapping_filters
        (Scenario.snapshot [ Scenario.webserver ]) [] = Ok (entities, log) /\
      fetches 12 log = [ ("meta", "main.yml"); ("meta", "main.yml") ]) /\
  (exists entities log,
      generate_projects_data Scenario.GITLAB_URL Scenario.PATH_FILTERS
        (Scenario.snapshot [ Scenario.webserver ]) [] = Ok (entities, log) /\
      fetches 12 log = [ ("meta", "main.yml") ]).
Proof.
  split; [| split].
  - intros path [<- | [<- | []]]; vm_compute; discriminate.
  - do 2 eexists. vm_compute. split; reflexivity.
  - do 2 eexists. vm_compute. split; reflexivity.
Qed.

(** ** The edge table of a run *)

Section EdgeTable.
Variable GITLAB_URL : string.
Variable PATH_FILTERS : list Re.re.

Lemma link_deduplicated p prjid deps st log st' log' :
  deduplicated (used_by_data st) ->
  link GITLAB_URL p prjid deps st log = Ok (st', log') ->
  deduplicated (used_by_data st').
Proof.
  intros Hd H. unfold link in H. peel H as r l1 H1.
  destruct r as [ub ext]. apply ret_inv in H. destruct H as [-> _]. simpl.
  eapply add_dependencies_keeps_deduplicated; eassumption.
Qed.

Lemma process_deduplicated gl p st log st' log' :
  deduplicated (used_by_data st) ->
  process GITLAB_URL gl p st log = Ok (st', log') ->
  deduplicated (used_by_data st').
Proof.
  intros Hd H. unfold process in H.
  peel H as real l0 H0. peel H as content l1 H1.
  destruct (truthy content).
  - destruct (is_str content).
    + peel H as u l2 H2. apply ret_inv in H. destruct H as [-> _]. exact Hd.
    + peel H as e l2 H2. peel H as b l3 H3.
      destruct b.
      * peel H as deps l4 H4. peel H as n l5 H5.
        destruct (Nat.ltb 0 n).
        -- eapply link_deduplicated; [| exact H]. exact Hd.
        -- apply ret_inv in H. destruct H as [-> _]. exact Hd.
      * apply ret_inv in H. destruct H as [-> _]. exact Hd.
  - peel H as content2 l2 H2.
    destruct (truthy content2).
    + destruct (is_str content2).
      * peel H as u l3 H3. apply ret_inv in H. destruct H as [-> _]. exact Hd.
      * peel H as e l3 H3. eapply link_deduplicated; [| exact H]. exact Hd.
    + apply ret_inv in H. destruct H as [-> _]. exact Hd.
Qed.

Lemma filters_loop_deduplicated gl paths p st log st' log' :
  deduplicated (used_by_data st) ->
  filters_loop GITLAB_URL gl paths p st log = Ok (st', log') ->
  deduplicated (used_by_data st').
Proof.
  revert st log. induction paths as [| path paths IH]; intros st log Hd H;
    cbn [filters_loop] in H.
  - apply ret_inv in H. destruct H as [-> _]. exact Hd.
  - destruct (Re.re_match path (Project.path_with_namespace p)).
    + peel H as st1 l1 H1. apply (IH st1 l1); [| exact H].
      eapply process_deduplicated; eassumption.
    + apply (IH st log); assumption.
Qed.

Lemma projects_loop_deduplicated gl projects st log st' log' :
  deduplicated (used_by_data st) ->
  projects_loop GITLAB_URL PATH_FILTERS gl projects st log = Ok (st', log') ->
  deduplicated (used_by_data st').
Proof.
  revert st log. induction projects as [| p projects IH]; intros st log Hd H;
    cbn [projects_loop] in H.
  - apply ret_inv in H. destruct H as [-> _]. exact Hd.
  - destruct (Project.archived p).
    + peel H as u l1 H1. apply (IH st l1); assumption.
    + peel H as st1 l1 H1. apply (IH st1 l1); [| exact H].
      eapply filters_loop_deduplicated; eassumption.
Qed.

(** The edge table a traversal ends with holds no identity twice in the
    list of a target: every table [add_dependencies] is given in a run
    is deduplicated. *)
Lemma traverse_deduplicated gl log st log' :
  traverse GITLAB_URL PATH_FILTERS gl log = Ok (st, log') ->
  deduplicated (used_by_data st).
Proof.
  intros H. unfold traverse in H. peel H as projects l1 H1.
  eapply projects_loop_deduplicated; [| exact H]. constructor.
Qed.

End EdgeTable.

(** ** The calls of the fetcher *)

Lemma fetches_app id l1 l2 :
  fetches id (l1 ++ l2) = fetches id l1 ++ fetches id l2.
Proof.
  induction l1 as [| [c d | id' path f] l1 IH]; simpl; auto.
  destruct (Z.eqb id' id); simpl; rewrite IH; reflexivity.
Qed.

Lemma prints_only_refl log : prints_only log log.
Proof. exists []. split; [symmetry; apply List.app_nil_r | reflexivity]. Qed.

Lemma prints_only_trans l1 l2 l3 :
  prints_only l1 l2 -> prints_only l2 l3 -> prints_only l1 l3.
Proof.
  intros (a & -> & Ha) (b & -> & Hb). exists (a ++ b). split.
  - symmetry. apply List.app_assoc.
  - intros id. rewrite fetches_app, Ha, Hb. reflexivity.
Qed.

Lemma cprint_prints d c log u log' :
  cprint d c log = Ok (u, log') -> prints_only log log'.
Proof.
  unfold cprint, emit. intros H. injection H as _ <-.
  exists [Printed c d]. split; reflexivity.
Qed.

Lemma lift_prints {A} (r : result A) log a log' :
  lift r log = Ok (a, log') -> prints_only log log'.
Proof. intros H. apply lift_inv in H. destruct H as [_ ->]. apply prints_only_refl. Qed.

Lemma ret_prints {A} (x : A) log a log' :
  ret x log = Ok (a, log') -> prints_only log log'.
Proof. intros H. apply ret_inv in H. destruct H as [_ ->]. apply prints_only_refl. Qed.

Section Fetches.
Variable GITLAB_URL : string.

Lemma dependency_target_prints project dep external log r log' :
  dependency_target GITLAB_URL project dep external log = Ok (r, log') ->
  prints_only log log'.
Proof.
  unfold dependency_target. intros H.
  destruct (subscript dep "src") as [src | e | n].
  - destruct src; try (apply lift_inv in H; destruct H; discriminate).
    peel H as g l1 H1. apply lift_prints in H1. apply ret_prints in H.
    eauto using prints_only_trans.
  - destruct e; try (apply lift_inv in H; destruct H; discriminate).
    peel H as name l1 H1. apply lift_prints in H1.
    peel H as u l2 H2. apply cprint_prints in H2.
    peel H as k l3 H3. apply lift_prints in H3. apply ret_prints in H.
    eauto using prints_only_trans.
  - discriminate.
Qed.

Lemma add_dependency_prints project prjid dep st log r log' :
  add_dependency GITLAB_URL project prjid dep st log = Ok (r, log') ->
  prints_only log log'.
Proof.
  unfold add_dependency. destruct st as [ub ext]. intros H.
  peel H as b l1 H1. apply lift_prints in H1. destruct b.
  - peel H as u l2 H2. apply cprint_prints in H2. apply ret_prints in H.
    eauto using prints_only_trans.
  - peel H as t l2 H2. destruct t as [t ext'].
    apply dependency_target_prints in H2. apply ret_prints in H.
    eauto using prints_only_trans.
Qed.

Lemma add_dependencies_loop_prints project prjid deps st log st' log' :
  add_dependencies_loop GITLAB_URL project prjid deps st log = Ok (st', log') ->
  prints_only log log'.
Proof.
  revert st log. induction deps as [| dep deps IH]; intros st log H;
    cbn [add_dependencies_loop] in H.
  - apply ret_prints in H. exact H.
  - peel H as r l1 H1. apply add_dependency_prints in H1.
    apply (prints_only_trans _ _ _ H1).
    destruct r as [st1 | st1]; [apply IH in H | apply ret_prints in H];
      exact H.
Qed.

Lemma link_prints p prjid deps st log st' log' :
  link GITLAB_URL p prjid deps st log = Ok (st', log') -> prints_only log log'.
Proof.
  unfold link, add_dependencies. intros H.
  peel H as r l1 H1. destruct r as [ub ext]. apply ret_prints in H.
  peel H1 as ds l2 H2. apply lift_prints in H2.
  apply add_dependencies_loop_prints in H1.
  eauto using prints_only_trans.
Qed.

Lemma get_yaml_content_fetches project path filename log content log' :
  get_yaml_content project path filename log = Ok (content, log') ->
  prints_only (log ++ [Fetched (Project.id project) path filename]) log'.
Proof.
  unfold get_yaml_content. intros H. peel H as u l0 H0.
  unfold emit in H0. injection H0 as _ <-.
  destruct (Project.repository_tree project path) as [items | e | n].
  - destruct (Nat.ltb 0 (length items)); [| eapply ret_prints; exact H].
    destruct (first_named items filename) as [f |];
      [| eapply ret_prints; exact H].
    destruct (Project.repository_blob project (Item.id f)) as [fi | e | n].
    + eapply lift_prints; exact H.
    + destruct e; try (apply lift_inv in H; destruct H; discriminate).
      peel H as u1 l1 H1. apply cprint_prints in H1. apply ret_prints in H.
      eauto using prints_only_trans.
    + discriminate.
  - destruct e as [k | | | msg | msg | msg];
      try (apply lift_inv in H; destruct H; discriminate);
      try discriminate.
    peel H as u1 l1 H1. apply cprint_prints in H1.
    peel H as u2 l2 H2. apply ret_prints in H.
    apply (prints_only_trans _ _ _ H1).
    apply (prints_only_trans _ l2); [| exact H].
    destruct (negb (String.eqb msg tree_not_found)).
    + eapply cprint_prints; exact H2.
    + eapply ret_prints; exact H2.
  - discriminate.
Qed.

Lemma fetches_after id log log' extra :
  prints_only (log ++ extra) log' ->
  exists rest, log' = log ++ rest /\ fetches id rest = fetches id extra.
Proof.
  intros (l & -> & Hl). exists (extra ++ l). split.
  - symmetry. apply List.app_assoc.
  - rewrite fetches_app, Hl. apply List.app_nil_r.
Qed.

(** What follows the fetch of the role metadata when it is there. *)
Lemma role_branch_prints p real prjid content st log st' log' :
  (if is_str content
   then bind (cprint (symlink_in_meta (Project.path_with_namespace p)
                        (match content with YStr s => s | _ => "" end))
                yellow) (fun _ => ret st)
   else
     bind (lift (set_role_attributes real content)) (fun e =>
     let st := register st prjid (Project.path_with_namespace p) e in
     bind (lift (contains "dependencies" content)) (fun has_dependencies =>
     if has_dependencies then
       bind (lift (subscript content "dependencies")) (fun dependencies =>
       bind (lift (len dependencies)) (fun n =>
       if Nat.ltb 0 n then link GITLAB_URL p prjid dependencies st
       else ret st))
     else ret st))) log = Ok (st', log') ->
  prints_only log log'.
Proof.
  intros H. destruct (is_str content).
  - peel H as u l1 H1. apply cprint_prints in H1. apply ret_prints in H.
    eauto using prints_only_trans.
  - peel H as e l1 H1. apply lift_prints in H1.
    peel H as b l2 H2. apply lift_prints in H2.
    apply (prints_only_trans _ _ _ H1). apply (prints_only_trans _ _ _ H2).
    destruct b; [| eapply ret_prints; exact H].
    peel H as deps l3 H3. apply lift_prints in H3.
    peel H as n l4 H4. apply lift_prints in H4.
    apply (prints_only_trans _ _ _ H3). apply (prints_only_trans _ _ _ H4).
    destruct (Nat.ltb 0 n); [eapply link_prints | eapply ret_prints]; exact H.
Qed.

(** X11.  One run of the body of the filter loop asks for [meta/main.yml]
    once, and for [roles/requirements.yml] once more exactly when the
    role metadata is missing or empty. *)
Lemma process_fetches gl p real st log st' log' :
  projects_get gl (Project.id p) = Ok real ->
  process GITLAB_URL gl p st log = Ok (st', log') ->
  exists content rest,
    outcome (get_yaml_content real "meta" "main.yml" log) = Ok content /\
    log' = log ++ rest /\
    fetches (Project.id real) rest
    = ("meta", "main.yml")
        :: (if truthy content then [] else [ ("roles", "requirements.yml") ]).
Proof.
  intros Hreal H. unfold process in H. rewrite Hreal in H.
  peel H as r l0 H0. apply lift_inv in H0. destruct H0 as [H0 ->].
  injection H0 as <-.
  peel H as content l1 H1. exists content.
  rewrite H1. simpl outcome.
  apply get_yaml_content_fetches in H1.
  destruct (truthy content) eqn:Htruthy.
  - apply role_branch_prints in H.
    pose proof (prints_only_trans _ _ _ H1 H) as Hall.
    destruct (fetches_after (Project.id real) _ _ _ Hall) as (rest & -> & Hr).
    exists rest. repeat split. rewrite Hr. simpl.
    rewrite Z.eqb_refl. reflexivity.
  - peel H as content2 l2 H2.
    assert (prints_only l2 log') as Hp.
    { destruct (truthy content2); [| eapply ret_prints; exact H].
      destruct (is_str content2).
      - peel H as u l3 H3. apply cprint_prints in H3. apply ret_prints in H.
        eauto using prints_only_trans.
      - peel H as e l3 H3. apply lift_prints in H3. apply link_prints in H.
        eauto using prints_only_trans. }
    apply get_yaml_content_fetches in H2.
    destruct H1 as (a & -> & Ha), H2 as (b & -> & Hb), Hp as (c & -> & Hc).
    exists ([Fetched (Project.id real) "meta" "main.yml"] ++ a
            ++ [Fetched (Project.id real) "roles" "requirements.yml"]
            ++ b ++ c).
    repeat split.
    + repeat rewrite <- List.app_assoc. reflexivity.
    + repeat rewrite fetches_app. rewrite Ha, Hb, Hc. simpl.
      rewrite Z.eqb_refl. reflexivity.
Qed.

End Fetches.

(** The filter loop has no [break]: with two filters that both match,
    the body runs twice for the repository, the second time on the state
    the first run left. *)
Lemma two_matching_filters_run_the_body_twice
      GITLAB_URL gl path1 path2 p st log :
  Re.re_match path1 (Project.path_with_namespace p) <> None ->
  Re.re_match path2 (Project.path_with_namespace p) <> None ->
  filters_loop GITLAB_URL gl [ path1; path2 ] p st log
  = bind (process GITLAB_URL gl p st) (process GITLAB_URL gl p) log.
Proof.
  intros H1 H2. cbn [filters_loop].
  destruct (Re.re_match path1 (Project.path_with_namespace p));
    [| congruence].
  destruct (Re.re_match path2 (Project.path_with_namespace p));
    [| congruence].
  unfold bind.
  destruct (process GITLAB_URL gl p st log) as [[st1 log1] | |];
    try reflexivity.
  destruct (process GITLAB_URL gl p st1 log1) as [[st2 log2] | |];
    reflexivity.
Qed.

(** ** The pattern of a source URL *)

Lemma run_of_plain_self R h : forall pos rest caps k,
  Re.run R (Re.of_plain h) pos (h ++ rest)%string caps k
  = k (pos + String.length h) rest caps.
Proof.
  induction h as [| c h IH]; intros pos rest caps k; simpl.
  - rewrite Nat.add_0_r. reflexivity.
  - assert (Re.run R (if Ascii.eqb c "." then Re.One Re.Any
                      else Re.One (Re.Lit c))
              pos (String c (h ++ rest)%string) caps
              (fun p1 s1 c1 => Re.run R (Re.of_plain h) p1 s1 c1 k)
            = Re.run R (Re.of_plain h) (S pos) (h ++ rest)%string caps k) as ->.
    { destruct (Ascii.eqb_spec c ".") as [-> | Hne]; simpl.
      - reflexivity.
      - rewrite Ascii.eqb_refl. reflexivity. }
    rewrite IH. f_equal. lia.
Qed.

Lemma length_append_string x y :
  String.length (x ++ y)%string = String.length x + String.length y.
Proof. induction x; simpl; congruence. Qed.

Lemma append_length_cancel x : forall x' y y',
  (x ++ y)%string = (x' ++ y')%string ->
  String.length y = String.length y' -> x = x' /\ y = y'.
Proof.
  induction x as [| c x IH]; intros [| c' x'] y y' H Hlen; simpl in H.
  - auto.
  - subst y. simpl in Hlen. rewrite length_append_string in Hlen. lia.
  - subst y'. simpl in Hlen. rewrite length_append_string in Hlen. lia.
  - injection H as -> H. destruct (IH _ _ _ H Hlen) as [-> ->]. auto.
Qed.


Lemma after_group_sound R pos s caps k (r : R) :
  Re.run R after_group pos s caps k = Some r ->
  exists c tail,
    s = String c ("git" ++ tail)%string /\ Re.accepts Re.Any c = true /\
    Re.at_end tail = true /\ k (pos + 4) tail caps = Some r.
Proof.
  unfold after_group. simpl.
  destruct s as [| c s]; [discriminate |].
  destruct (negb (Ascii.eqb c Re.newline)) eqn:Hc; [| discriminate].
  destruct s as [| g s]; [discriminate |].
  destruct (Ascii.eqb_spec g "g") as [-> |]; [| discriminate].
  destruct s as [| i s]; [discriminate |].
  destruct (Ascii.eqb_spec i "i") as [-> |]; [| discriminate].
  destruct s as [| t s]; [discriminate |].
  destruct (Ascii.eqb_spec t "t") as [-> |]; [| discriminate].
  destruct (Re.at_end s) eqn:Hend; [| discriminate].
  intros H. exists c, s. repeat split; try assumption.
  replace (pos + 4) with (S (S (S (S pos)))) by lia. exact H.
Qed.

Lemma after_group_complete R pos c caps k :
  Re.accepts Re.Any c = true ->
  Re.run R after_group pos (String c "git") caps k = k (pos + 4) "" caps.
Proof.
  intros Hc. unfold after_group. simpl. simpl in Hc. rewrite Hc.
  replace (pos + 4) with (S (S (S (S pos)))) by lia. reflexivity.
Qed.

Lemma url_pattern_unfold GITLAB_URL rest :
  Re.re_match (url_pattern GITLAB_URL)
    ("git@" ++ replace "https://" "" GITLAB_URL ++ String ":" rest)%string
  = Re.many1 _ Re.Any
      (S (4 + String.length (replace "https://" "" GITLAB_URL))) rest
      (fun p1 s1 =>
         Re.run _ after_group p1 s1
           [ String.substring 0
               (p1 - S (4 + String.length (replace "https://" "" GITLAB_URL)))
               rest ]
           (fun _ _ caps => Some caps)).
Proof.
  unfold Re.re_match, url_pattern.
  cbn [Re.seq Re.run Nat.eqb].
  rewrite (run_of_plain_self _ "git@"). rewrite run_of_plain_self.
  cbn [Re.run Re.accepts]. rewrite Ascii.eqb_refl.
  cbn [List.length List.app Re.set_nth]. reflexivity.
Qed.

Lemma url_pattern_matches GITLAB_URL path c :
  path <> EmptyString -> occurs Re.newline path = false ->
  Re.accepts Re.Any c = true ->
  Re.re_match (url_pattern GITLAB_URL)
    ("git@" ++ replace "https://" "" GITLAB_URL
       ++ String ":" (path ++ String c "git"))%string
  = Some [ path ].
Proof.
  intros Hne Hnl Hc. rewrite url_pattern_unfold.
  set (pos0 := S (4 + String.length (replace "https://" "" GITLAB_URL))).
  set (rest := (path ++ String c "git")%string).
  set (K := fun (p1 : nat) (s1 : string) =>
              Re.run (list string) after_group p1 s1
                [ String.substring 0 (p1 - pos0) rest ]
                (fun _ _ caps => Some caps)).
  assert (exists r, Re.many1 _ Re.Any pos0 rest K = Some r) as (r & Hr).
  { eapply many1_some.
    - exact Hne.
    - rewrite every_any_occurs, Hnl. reflexivity.
    - unfold K. rewrite after_group_complete by exact Hc. reflexivity. }
  rewrite Hr. f_equal.
  apply many1_inv in Hr. destruct Hr as (a & b & Hab & Ha & Hall & HK).
  unfold K in HK. apply after_group_sound in HK.
  destruct HK as (c' & tail & -> & Hc' & Hend & HK).
  injection HK as <-.
  match goal with
  | |- [String.substring 0 ?n rest] = _ =>
      replace n with (String.length a) by (unfold pos0; lia)
  end.
  rewrite Hab, substring_prefix. f_equal.
  unfold rest in Hab.
  destruct tail as [| n [| n' tail]]; simpl in Hend; try discriminate.
  - simpl in Hab. symmetry in Hab.
    apply append_length_cancel in Hab; [| reflexivity].
    exact (proj1 Hab).
  - exfalso. apply Ascii.eqb_eq in Hend. subst n.
    change (a ++ String c' ("git" ++ String Re.newline ""))%string
      with (a ++ String c' (String "g" (String "i" (String "t"
              (String Re.newline "")))))%string in Hab.
    assert ((path ++ String c "git")%string
            = ((a ++ String c' "") ++ String "g" (String "i" (String "t"
                  (String Re.newline ""))))%string) as Hab'.
    { rewrite Hab. clear. induction a; simpl; congruence. }
    apply append_length_cancel in Hab'; [| reflexivity].
    destruct Hab' as [_ Hbad]. discriminate.
Qed.



(** ** The edge table only grows *)

Lemma grows_refl used_by_data : grows used_by_data used_by_data.
Proof.
  induction used_by_data as [| [t ids] d IH]; [constructor |].
  rewrite <- (List.app_nil_r ids) at 2. constructor. exact IH.
Qed.

Lemma grows_trans a b c : grows a b -> grows b c -> grows a c.
Proof.
  intros Hab. revert c. induction Hab as [| t ids more d d' Hd IH];
    intros c Hbc; [constructor |].
  inversion Hbc as [| t' ids' more' e e' He]; subst.
  rewrite <- List.app_assoc. constructor. apply IH. exact He.
Qed.

Lemma grows_set used_by_data target ids more :
  Dict.get scalar_eqb used_by_data target = Some ids ->
  grows used_by_data
        (Dict.set scalar_eqb used_by_data target (ids ++ more)).
Proof.
  induction used_by_data as [| [t l] d IH]; simpl; [discriminate |].
  destruct (scalar_eqb t target).
  - intros H. injection H as ->. constructor. apply grows_refl.
  - intros H. rewrite <- (List.app_nil_r l) at 2. constructor. apply IH.
    exact H.
Qed.

Lemma grows_set_new used_by_data target ids :
  Dict.get scalar_eqb used_by_data target = None ->
  grows used_by_data (Dict.set scalar_eqb used_by_data target ids).
Proof.
  induction used_by_data as [| [t l] d IH]; simpl; [constructor |].
  destruct (scalar_eqb t target); [discriminate |].
  intros H. rewrite <- (List.app_nil_r l) at 2. constructor. apply IH.
  exact H.
Qed.

Lemma record_edge_grows used_by_data target prjid :
  grows used_by_data (record_edge used_by_data target prjid).
Proof.
  unfold record_edge.
  destruct (Dict.get scalar_eqb used_by_data target) as [ids |] eqn:Hget.
  - destruct (existsb (String.eqb prjid) ids); [apply grows_refl |].
    apply grows_set. exact Hget.
  - apply grows_set_new. exact Hget.
Qed.

(** A recorded identity stays recorded when the table grows. *)
Lemma grows_keeps used_by_data used_by_data' target ids prjid :
  grows used_by_data used_by_data' ->
  Dict.get scalar_eqb used_by_data target = Some ids -> In prjid ids ->
  exists ids', Dict.get scalar_eqb used_by_data' target = Some ids' /\
               In prjid ids'.
Proof.
  intros Hg. induction Hg as [| t l more d d' Hd IH]; simpl; [discriminate |].
  destruct (scalar_eqb t target).
  - intros H Hin. injection H as ->. exists (ids ++ more). split; auto.
    apply in_or_app. left. exact Hin.
  - exact IH.
Qed.

Lemma record_edge_again used_by_data target ids prjid :
  Dict.get scalar_eqb used_by_data target = Some ids -> In prjid ids ->
  record_edge used_by_data target prjid = used_by_data.
Proof.
  intros Hget Hin. unfold record_edge. rewrite Hget.
  assert (existsb (String.eqb prjid) ids = true) as ->; [| reflexivity].
  apply existsb_exists. exists prjid. split; [exact Hin |].
  apply String.eqb_refl.
Qed.

Section Growth.
Variable GITLAB_URL : string.
Variable project : Project.t.
Variable prjid : string.

Lemma add_dependency_grows dep used_by_data external log r log' :
  add_dependency GITLAB_URL project prjid dep (used_by_data, external) log
  = Ok (r, log') ->
  let st' := match r with Next st | Break st => st end in
  grows used_by_data (fst st') /\ exists more, snd st' = external ++ more.
Proof.
  intros H. unfold add_dependency in H.
  peel H as b l1 H1. destruct b.
  - peel H as u l2 H2. apply ret_inv in H. destruct H as [-> _]. simpl.
    split; [apply grows_refl | exists []; symmetry; apply List.app_nil_r].
  - peel H as t l2 H2. destruct t as [target external'].
    apply ret_inv in H. destruct H as [-> _]. simpl.
    split; [apply record_edge_grows |].
    unfold dependency_target in H2.
    destruct (subscript dep "src") as [src | e | n].
    + destruct src; try (apply lift_inv in H2; destruct H2; discriminate).
      peel H2 as g l3 H3. apply ret_inv in H2. destruct H2 as [H2 _].
      injection H2 as _ ->. exists []. symmetry. apply List.app_nil_r.
    + destruct e; try (apply lift_inv in H2; destruct H2; discriminate).
      peel H2 as name l3 H3. peel H2 as u l4 H4. peel H2 as k l5 H5.
      apply ret_inv in H2. destruct H2 as [H2 _]. injection H2 as _ ->.
      exists [k]. reflexivity.
    + discriminate.
Qed.

Lemma loop_grows deps : forall used_by_data external log st' log',
  add_dependencies_loop GITLAB_URL project prjid deps
    (used_by_data, external) log = Ok (st', log') ->
  grows used_by_data (fst st') /\ exists more, snd st' = external ++ more.
Proof.
  induction deps as [| dep deps IH]; intros ub ext log st' log' H;
    cbn [add_dependencies_loop] in H.
  - apply ret_inv in H. destruct H as [-> _]. simpl.
    split; [apply grows_refl | exists []; symmetry; apply List.app_nil_r].
  - peel H as r l1 H1. apply add_dependency_grows in H1.
    destruct H1 as [Hg (more & Hmore)].
    destruct r as [[ub1 ext1] | [ub1 ext1]]; simpl in Hg, Hmore.
    + apply IH in H. destruct H as [Hg' (more' & Hmore')]. split.
      * eapply grows_trans; eassumption.
      * exists (more ++ more'). rewrite Hmore', Hmore.
        symmetry. apply List.app_assoc.
    + apply ret_inv in H. destruct H as [-> _]. simpl. split; [exact Hg |].
      exists more. exact Hmore.
Qed.

Lemma dependency_target_replay dep external log target external' log' :
  dependency_target GITLAB_URL project dep external log
  = Ok ((target, external'), log') ->
  exists more,
    external' = external ++ more /\
    forall E L, exists L',
      dependency_target GITLAB_URL project dep E L
      = Ok ((target, E ++ more), L').
Proof.
  unfold dependency_target. intros H.
  destruct (subscript dep "src") as [src | e | n].
  - destruct src; try (apply lift_inv in H; destruct H; discriminate).
    peel H as g l1 H1. apply lift_inv in H1. destruct H1 as [H1 _].
    apply ret_inv in H. destruct H as [H _]. injection H as -> ->.
    exists []. split; [symmetry; apply List.app_nil_r |]. intros E L.
    unfold bind, lift. rewrite H1, List.app_nil_r. eexists. reflexivity.
  - destruct e; try (apply lift_inv in H; destruct H; discriminate).
    peel H as name l1 H1. apply lift_inv in H1. destruct H1 as [H1 _].
    peel H as u l2 H2. peel H as k l3 H3.
    apply lift_inv in H3. destruct H3 as [H3 _].
    apply ret_inv in H. destruct H as [H _]. injection H as -> ->.
    exists [k]. split; [reflexivity |]. intros E L.
    unfold bind, lift, cprint, emit. rewrite H1, H3.
    eexists. reflexivity.
  - discriminate.
Qed.

(** Linking the same entry again, on a table that has grown since,
    changes nothing in the table and appends the same names. *)
Lemma add_dependency_replay dep used_by_data external log r log' :
  add_dependency GITLAB_URL project prjid dep (used_by_data, external) log
  = Ok (r, log') ->
  exists more,
    snd (match r with Next st | Break st => st end) = external ++ more /\
    forall U E L,
      grows (fst (match r with Next st | Break st => st end)) U ->
      exists L',
        add_dependency GITLAB_URL project prjid dep (U, E) L
        = Ok (match r with
              | Next _ => Next (U, E ++ more)
              | Break _ => Break (U, E ++ more)
              end, L').
Proof.
  intros H. unfold add_dependency in H.
  peel H as b l1 H1. apply lift_inv in H1. destruct H1 as [H1 _].
  destruct b.
  - peel H as u l2 H2. apply ret_inv in H. destruct H as [-> _].
    exists []. split; [symmetry; apply List.app_nil_r |]. intros U E L Hg.
    unfold add_dependency, bind, lift, cprint, emit, ret.
    rewrite H1, List.app_nil_r. eexists. reflexivity.
  - peel H as t l2 H2. destruct t as [target external'].
    apply ret_inv in H. destruct H as [-> _].
    destruct (dependency_target_replay _ _ _ _ _ _ H2) as (more & -> & HT).
    exists more. split; [reflexivity |]. intros U E L Hg. simpl in Hg.
    destruct (HT E L) as (L' & HT').
    unfold add_dependency, bind, lift. rewrite H1.
    rewrite HT'. exists L'. unfold ret.
    destruct (record_edge_records used_by_data target prjid)
      as (ids & Hget & Hin).
    destruct (grows_keeps _ _ _ _ _ Hg Hget Hin) as (ids' & Hget' & Hin').
    rewrite (record_edge_again _ _ _ _ Hget' Hin'). reflexivity.
Qed.

Lemma loop_replay deps : forall used_by_data external log st1 log1,
  add_dependencies_loop GITLAB_URL project prjid deps
    (used_by_data, external) log = Ok (st1, log1) ->
  exists more,
    snd st1 = external ++ more /\
    forall U E L,
      grows (fst st1) U ->
      exists L',
        add_dependencies_loop GITLAB_URL project prjid deps (U, E) L
        = Ok ((U, E ++ more), L').
Proof.
  induction deps as [| dep deps IH]; intros ub ext log st1 log1 H;
    cbn [add_dependencies_loop] in H.
  - apply ret_inv in H. destruct H as [-> _].
    exists []. split; [symmetry; apply List.app_nil_r |]. intros U E L Hg.
    cbn [add_dependencies_loop]. unfold ret. rewrite List.app_nil_r.
    eexists. reflexivity.
  - peel H as r l1 H1.
    destruct (add_dependency_replay _ _ _ _ _ _ H1) as (more1 & Hm1 & Hstep).
    destruct r as [[ub' ext'] | [ub' ext']]; cbn [fst snd] in Hm1, Hstep.
    + pose proof (loop_grows _ _ _ _ _ _ H) as [Hg' _].
      destruct (IH _ _ _ _ _ H) as (more2 & Hm2 & Hrest).
      exists (more1 ++ more2). split.
      * rewrite Hm2, Hm1. symmetry. apply List.app_assoc.
      * intros U E L Hg.
        destruct (Hstep U E L (grows_trans _ _ _ Hg' Hg)) as (L1 & HL1).
        destruct (Hrest U (E ++ more1) L1 Hg) as (L2 & HL2).
        exists L2. cbn [add_dependencies_loop]. unfold bind. rewrite HL1.
        rewrite HL2, List.app_assoc. reflexivity.
    + apply ret_inv in H. destruct H as [-> _]. cbn [fst snd].
      exists more1. split; [exact Hm1 |]. intros U E L Hg.
      destruct (Hstep U E L Hg) as (L1 & HL1).
      exists L1. cbn [add_dependencies_loop]. unfold bind. rewrite HL1.
      reflexivity.
Qed.

End Growth.

(** X8.  [add_dependencies] never takes anything back: the table it
    returns has the targets of the table it was given, in the same
    order and before any new target, each with its list extended at the
    end; and the external list it returns starts with the one given. *)
Theorem add_dependencies_only_adds
        GITLAB_URL project prjid dep_list used_by_data external log
        used_by_data' external' log' :
  add_dependencies GITLAB_URL project prjid dep_list used_by_data external log
  = Ok ((used_by_data', external'), log') ->
  grows used_by_data used_by_data' /\
  exists more, external' = external ++ more.
Proof.
  intros H. unfold add_dependencies in H. peel H as deps l1 H1.
  apply loop_grows in H. exact H.
Qed.

(** X9.  Linking the same dependency list a second time leaves the edge
    table as the first run made it; the names the first run appended to
    the external list are appended once more. *)
Theorem add_dependencies_twice
        GITLAB_URL project prjid dep_list used_by_data external log
        used_by_data' external' log' :
  add_dependencies GITLAB_URL project prjid dep_list used_by_data external log
  = Ok ((used_by_data', external'), log') ->
  exists more log'',
    external' = external ++ more /\
    add_dependencies GITLAB_URL project prjid dep_list
      used_by_data' external' log'
    = Ok ((used_by_data', external' ++ more), log'').
Proof.
  intros H. unfold add_dependencies in H |- *. peel H as deps l1 H1.
  apply lift_inv in H1. destruct H1 as [H1 _].
  destruct (loop_replay _ _ _ _ _ _ _ _ _ H) as (more & Hm & Hagain).
  destruct (Hagain used_by_data' external' log' (grows_refl _)) as (L & HL).
  exists more, L. split; [exact Hm |].
  unfold bind at 1. unfold lift at 1. rewrite H1. exact HL.
Qed.


(** ** Runs that end alike *)

Lemma alike_bind {A B} (R : A -> A -> Prop) (S : B -> B -> Prop)
      (m m' : M A) (f f' : A -> M B) log log' :
  alike R (m log) (m' log') ->
  (forall a a' l l', R a a' -> alike S (f a l) (f' a' l')) ->
  alike S (bind m f log) (bind m' f' log').
Proof.
  unfold alike at 1, bind. intros Hm Hf.
  destruct (m log) as [[a l] | e | n], (m' log') as [[a' l'] | e' | n'];
    try contradiction.
  - apply Hf. exact Hm.
  - exact Hm.
  - exact Hm.
Qed.

Lemma alike_lift {A} (r : result A) log log' :
  alike eq (lift r log) (lift r log').
Proof. destruct r; reflexivity. Qed.

Lemma alike_ret {A} (R : A -> A -> Prop) a a' log log' :
  R a a' -> alike R (ret a log) (ret a' log').
Proof. intros H. exact H. Qed.

Lemma alike_cprint d c d' c' log log' :
  alike eq (cprint d c log) (cprint d' c' log').
Proof. reflexivity. Qed.

Lemma alike_sym {A} (R : A -> A -> Prop) r r' :
  (forall a a', R a a' -> R a' a) -> alike R r r' -> alike R r' r.
Proof.
  intros HR. unfold alike.
  destruct r as [[a l] | e | n], r' as [[a' l'] | e' | n']; auto.
Qed.

Lemma alike_trans {A} (R : A -> A -> Prop) r1 r2 r3 :
  (forall a b c, R a b -> R b c -> R a c) ->
  alike R r1 r2 -> alike R r2 r3 -> alike R r1 r3.
Proof.
  intros HR. unfold alike.
  destruct r1 as [[a1 l1] | e1 | n1], r2 as [[a2 l2] | e2 | n2],
           r3 as [[a3 l3] | e3 | n3]; try contradiction; try congruence.
  apply HR.
Qed.

Lemma alike_outcome {A} (r r' : result (A * list event)) :
  alike eq r r' -> outcome r = outcome r'.
Proof.
  unfold alike, outcome.
  destruct r as [[a l] | e | n], r' as [[a' l'] | e' | n'];
    try contradiction; congruence.
Qed.

Lemma same_externals_refl external : same_externals external external.
Proof. intros t. reflexivity. Qed.

Lemma same_externals_app external external' more :
  same_externals external external' ->
  same_externals (external ++ more) (external' ++ more).
Proof.
  intros H t. unfold is_extern. rewrite !existsb_app.
  f_equal. apply H.
Qed.

Lemma same_externals_again external more :
  same_externals (external ++ more) ((external ++ more) ++ more).
Proof.
  intros t. unfold is_extern. rewrite !existsb_app.
  destruct (existsb _ external), (existsb _ more); reflexivity.
Qed.

Lemma same_state_refl st : same_state st st.
Proof.
  split; [reflexivity | split; [reflexivity | split; [reflexivity |]]].
  intros t. reflexivity.
Qed.

Lemma same_state_sym st st' : same_state st st' -> same_state st' st.
Proof.
  intros (H1 & H2 & H3 & H4).
  split; [congruence | split; [congruence | split; [congruence |]]].
  intros t. symmetry. apply H4.
Qed.

Lemma same_state_trans a b c :
  same_state a b -> same_state b c -> same_state a c.
Proof.
  intros (H1 & H2 & H3 & H4) (K1 & K2 & K3 & K4).
  split; [congruence | split; [congruence | split; [congruence |]]].
  intros t. rewrite H4. apply K4.
Qed.

(** ** The log is only written, the external list only appended to *)

Lemma get_yaml_content_alike project path filename log log' :
  alike eq (get_yaml_content project path filename log)
           (get_yaml_content project path filename log').
Proof.
  unfold get_yaml_content.
  apply (alike_bind eq); [reflexivity |]. intros _ _ l l' _.
  destruct (Project.repository_tree project path) as [items | e | n];
    try reflexivity.
  - destruct (Nat.ltb 0 (List.length items)); [| reflexivity].
    destruct (first_named items filename) as [f |]; [| reflexivity].
    destruct (Project.repository_blob project (Item.id f)) as [fi | e | n];
      try reflexivity.
    + apply alike_lift.
    + destruct e; reflexivity.
  - destruct e; try reflexivity.
    apply (alike_bind eq); [reflexivity |]. intros _ _ l1 l1' _.
    apply (alike_bind eq); [| reflexivity].
    destruct (negb (String.eqb msg tree_not_found)); reflexivity.
Qed.

Section Alike.
Variable GITLAB_URL : string.

Lemma dependency_target_alike project dep external external' log log' :
  same_externals external external' ->
  alike (fun x x' => fst x = fst x' /\ same_externals (snd x) (snd x'))
        (dependency_target GITLAB_URL project dep external log)
        (dependency_target GITLAB_URL project dep external' log').
Proof.
  intros He. unfold dependency_target.
  destruct (subscript dep "src") as [src | e | n]; try reflexivity.
  - destruct src; try reflexivity.
    apply (alike_bind eq); [apply alike_lift |]. intros g _ l l' <-.
    split; [reflexivity | exact He].
  - destruct e; try reflexivity.
    apply (alike_bind eq); [apply alike_lift |]. intros name _ l l' <-.
    apply (alike_bind eq); [reflexivity |]. intros _ _ l1 l1' _.
    apply (alike_bind eq); [apply alike_lift |]. intros k _ l2 l2' <-.
    split; [reflexivity |]. apply same_externals_app. exact He.
Qed.

Lemma add_dependency_alike project prjid dep used_by_data external external'
      log log' :
  same_externals external external' ->
  alike (fun r r' =>
           match r, r' with
           | Next st, Next st' | Break st, Break st' => linked_alike st st'
           | _, _ => False
           end)
        (add_dependency GITLAB_URL project prjid dep
           (used_by_data, external) log)
        (add_dependency GITLAB_URL project prjid dep
           (used_by_data, external') log').
Proof.
  intros He. unfold add_dependency.
  apply (alike_bind eq); [apply alike_lift |]. intros b _ l l' <-.
  destruct b.
  - apply (alike_bind eq); [reflexivity |]. intros _ _ l1 l1' _.
    split; [reflexivity | exact He].
  - apply (alike_bind
             (fun x x' => fst x = fst x' /\ same_externals (snd x) (snd x')));
      [apply dependency_target_alike; exact He |].
    intros [t e] [t' e'] l1 l1' [Ht Hext]. simpl in Ht, Hext. subst t'.
    split; [reflexivity | exact Hext].
Qed.

Lemma loop_alike project prjid deps :
  forall used_by_data external external' log log',
    same_externals external external' ->
    alike linked_alike
      (add_dependencies_loop GITLAB_URL project prjid deps
         (used_by_data, external) log)
      (add_dependencies_loop GITLAB_URL project prjid deps
         (used_by_data, external') log').
Proof.
  induction deps as [| dep deps IH]; intros ub ext ext' log log' He;
    cbn [add_dependencies_loop].
  - split; [reflexivity | exact He].
  - eapply alike_bind; [apply add_dependency_alike; exact He |].
    intros [[u e] | [u e]] [[u' e'] | [u' e']] l l' Hr; try contradiction;
      destruct Hr as [Hu Hext]; simpl in Hu, Hext; subst u'.
    + apply IH. exact Hext.
    + split; [reflexivity | exact Hext].
Qed.

Lemma link_alike p prjid deps st st' log log' :
  same_state st st' ->
  alike same_state (link GITLAB_URL p prjid deps st log)
                   (link GITLAB_URL p prjid deps st' log').
Proof.
  intros (Hpd & Hub & Hmap & Hext). unfold link, add_dependencies.
  rewrite Hub.
  eapply (alike_bind linked_alike).
  - apply (alike_bind eq); [apply alike_lift |]. intros ds _ l l' <-.
    apply loop_alike. exact Hext.
  - intros [u e] [u' e'] l l' [Hu He]. simpl in Hu, He. subst u'.
    unfold ret, alike, same_state. simpl.
    split; [exact Hpd | split; [reflexivity | split; [exact Hmap | exact He]]].
Qed.

Lemma register_same st st' prjid path e :
  same_state st st' ->
  same_state (register st prjid path e) (register st' prjid path e).
Proof.
  intros (Hpd & Hub & Hmap & Hext). unfold register.
  split; [| split; [| split]]; simpl; [congruence .. | exact Hext].
Qed.

Lemma process_alike gl p st st' log log' :
  same_state st st' ->
  alike same_state (process GITLAB_URL gl p st log)
                   (process GITLAB_URL gl p st' log').
Proof.
  intros Hst. unfold process.
  apply (alike_bind eq); [apply alike_lift |]. intros real _ l l' <-.
  apply (alike_bind eq); [apply get_yaml_content_alike |].
  intros content _ l1 l1' <-.
  destruct (truthy content).
  - destruct (is_str content).
    + apply (alike_bind eq); [reflexivity |]. intros _ _ l2 l2' _. exact Hst.
    + apply (alike_bind eq); [apply alike_lift |]. intros e _ l2 l2' <-.
      apply (alike_bind eq); [apply alike_lift |]. intros b _ l3 l3' <-.
      destruct b; [| apply register_same; exact Hst].
      apply (alike_bind eq); [apply alike_lift |]. intros deps _ l4 l4' <-.
      apply (alike_bind eq); [apply alike_lift |]. intros n _ l5 l5' <-.
      destruct (Nat.ltb 0 n); [| apply register_same; exact Hst].
      apply link_alike. apply register_same. exact Hst.
  - apply (alike_bind eq); [apply get_yaml_content_alike |].
    intros content2 _ l2 l2' <-.
    destruct (truthy content2); [| exact Hst].
    destruct (is_str content2).
    + apply (alike_bind eq); [reflexivity |]. intros _ _ l3 l3' _. exact Hst.
    + apply (alike_bind eq); [apply alike_lift |]. intros e _ l3 l3' <-.
      apply link_alike. apply register_same. exact Hst.
Qed.

End Alike.

(** ** Running the body of the filter loop again *)

Lemma alike_eq_ok {A} (r r' : result (A * list event)) a l :
  alike eq r r' -> r = Ok (a, l) -> exists l', r' = Ok (a, l').
Proof.
  intros H ->. unfold alike in H.
  destruct r' as [[a' l'] | e | n]; try contradiction.
  subst a'. exists l'. reflexivity.
Qed.

Lemma register_again st prjid path e :
  projects_data st
  = Dict.set String.eqb (projects_data st) prjid e ->
  projects_mapping st
  = Dict.set String.eqb (projects_mapping st) path prjid ->
  register st prjid path e = st.
Proof.
  intros Hpd Hmap. unfold register. rewrite <- Hpd, <- Hmap.
  destruct st; reflexivity.
Qed.

Lemma set_again {V} (d : list (string * V)) k v :
  Dict.set String.eqb d k v
  = Dict.set String.eqb (Dict.set String.eqb d k v) k v.
Proof. symmetry. apply set_set_same. Qed.

Section Again.
Variable GITLAB_URL : string.

Lemma link_again p prjid deps st log st1 log1 :
  link GITLAB_URL p prjid deps st log = Ok (st1, log1) ->
  projects_data st1 = projects_data st /\
  projects_mapping st1 = projects_mapping st /\
  forall L, exists st2 L2,
    link GITLAB_URL p prjid deps st1 L = Ok (st2, L2) /\
    same_state st1 st2.
Proof.
  intros H. unfold link in H. peel H as r l1 H1. destruct r as [ub1 ext1].
  apply ret_inv in H. destruct H as [-> _]. simpl.
  split; [reflexivity | split; [reflexivity |]]. intros L.
  unfold add_dependencies in H1. peel H1 as ds l2 H2.
  apply lift_inv in H2. destruct H2 as [H2 _].
  destruct (loop_replay _ _ _ _ _ _ _ _ _ H1) as (more & Hm & Hagain).
  simpl in Hm. subst ext1.
  destruct (Hagain ub1 (projects_extern st ++ more) L (grows_refl _))
    as (L2 & HL2).
  eexists. exists L2. split.
  - unfold link, add_dependencies. simpl.
    unfold bind at 1. unfold bind at 1. unfold lift at 1. rewrite H2.
    rewrite HL2. reflexivity.
  - split; [reflexivity | split; [reflexivity | split; [reflexivity |]]].
    simpl. apply same_externals_again.
Qed.

Lemma process_again gl p st log st1 log1 :
  process GITLAB_URL gl p st log = Ok (st1, log1) ->
  forall L, exists st2 L2,
    process GITLAB_URL gl p st1 L = Ok (st2, L2) /\ same_state st1 st2.
Proof.
  intros H L. unfold process in H |- *.
  peel H as real l0 H0. apply lift_inv in H0. destruct H0 as [H0 _].
  unfold bind at 1. unfold lift at 1. rewrite H0.
  peel H as content l1 H1.
  destruct (alike_eq_ok _ _ _ _
              (get_yaml_content_alike real "meta" "main.yml" l0 L) H1)
    as (L1 & HL1).
  unfold bind at 1. rewrite HL1.
  destruct (truthy content).
  - destruct (is_str content).
    + peel H as u l2 H2. apply ret_inv in H. destruct H as [-> _].
      eexists. eexists. split; [reflexivity | apply same_state_refl].
    + peel H as e l2 H2. apply lift_inv in H2. destruct H2 as [H2 _].
      unfold bind at 1. unfold lift at 1. rewrite H2.
      peel H as b l3 H3. apply lift_inv in H3. destruct H3 as [H3 _].
      unfold bind at 1. unfold lift at 1. rewrite H3.
      assert (forall st', projects_data st'
                = Dict.set String.eqb (projects_data st)
                    (Project.name p ++ "-" ++ str_Z (Project.id p))%string e ->
              projects_mapping st'
                = Dict.set String.eqb (projects_mapping st)
                    (Project.path_with_namespace p)
                    (Project.name p ++ "-" ++ str_Z (Project.id p))%string ->
              register st' (Project.name p ++ "-" ++ str_Z (Project.id p))%string
                (Project.path_with_namespace p) e = st') as Hreg.
      { intros st' Hpd Hmap. apply register_again.
        - rewrite Hpd. apply set_again.
        - rewrite Hmap. apply set_again. }
      destruct b.
      * peel H as deps l4 H4. apply lift_inv in H4. destruct H4 as [H4 _].
        unfold bind at 1. unfold lift at 1. rewrite H4.
        peel H as n l5 H5. apply lift_inv in H5. destruct H5 as [H5 _].
        unfold bind at 1. unfold lift at 1. rewrite H5.
        destruct (Nat.ltb 0 n).
        -- destruct (link_again _ _ _ _ _ _ _ H) as (Hpd & Hmap & Hagain).
           rewrite (Hreg st1 Hpd Hmap). apply Hagain.
        -- apply ret_inv in H. destruct H as [-> _].
           rewrite (Hreg (register st _ _ e) eq_refl eq_refl).
           eexists. eexists. split; [reflexivity | apply same_state_refl].
      * apply ret_inv in H. destruct H as [-> _].
        rewrite (Hreg (register st _ _ e) eq_refl eq_refl).
        eexists. eexists. split; [reflexivity | apply same_state_refl].
  - peel H as content2 l2 H2.
    destruct (alike_eq_ok _ _ _ _
                (get_yaml_content_alike real "roles" "requirements.yml" l1 L1)
                H2) as (L2 & HL2).
    unfold bind at 1. rewrite HL2.
    destruct (truthy content2).
    + destruct (is_str content2).
      * peel H as u l3 H3. apply ret_inv in H. destruct H as [-> _].
        eexists. eexists. split; [reflexivity | apply same_state_refl].
      * peel H as e l3 H3. apply lift_inv in H3. destruct H3 as [H3 _].
        unfold bind at 1. unfold lift at 1. rewrite H3.
        destruct (link_again _ _ _ _ _ _ _ H) as (Hpd & Hmap & Hagain).
        rewrite (register_again st1).
        -- apply Hagain.
        -- rewrite Hpd. apply set_again.
        -- rewrite Hmap. apply set_again.
    + apply ret_inv in H. destruct H as [-> _].
      eexists. eexists. split; [reflexivity | apply same_state_refl].
Qed.

Lemma times_again gl p n : forall st log st1 log1,
  process GITLAB_URL gl p st log = Ok (st1, log1) ->
  forall L, exists stn Ln,
    times n (process GITLAB_URL gl p) st1 L = Ok (stn, Ln) /\
    same_state st1 stn.
Proof.
  induction n as [| n IH]; intros st log st1 log1 H L; cbn [times].
  - eexists. eexists. split; [reflexivity | apply same_state_refl].
  - destruct (process_again _ _ _ _ _ _ H L) as (st2 & L2 & H2 & Hs2).
    destruct (IH _ _ _ _ H2 L2) as (stn & Ln & Hn & Hsn).
    exists stn, Ln. split.
    + unfold bind. rewrite H2. exact Hn.
    + eapply same_state_trans; eassumption.
Qed.

(** Running the body once more, any number of times, ends as running it
    once. *)
Lemma times_alike gl p n st st' log log' :
  same_state st st' ->
  alike same_state (times (S n) (process GITLAB_URL gl p) st log)
                   (process GITLAB_URL gl p st' log').
Proof.
  intros Hst. pose proof (process_alike GITLAB_URL gl p st st' log log' Hst)
    as Hp.
  cbn [times]. unfold bind.
  destruct (process GITLAB_URL gl p st log) as [[st1 l1] | e | k] eqn:E;
    [| exact Hp | exact Hp].
  destruct (times_again gl p n _ _ _ _ E l1) as (stn & Ln & -> & Hsn).
  unfold alike in Hp |- *.
  destruct (process GITLAB_URL gl p st' log') as [[st1' l1'] | e' | k'];
    try contradiction.
  eapply same_state_trans; [apply same_state_sym; exact Hsn | exact Hp].
Qed.

Lemma filters_loop_times gl paths p : forall st log,
  filters_loop GITLAB_URL gl paths p st log
  = times (List.length (filter (fun path => selects path p) paths))
      (process GITLAB_URL gl p) st log.
Proof.
  induction paths as [| path paths IH]; intros st log;
    cbn [filters_loop filter]; [reflexivity |].
  unfold selects at 1.
  destruct (Re.re_match path (Project.path_with_namespace p));
    cbn [List.length times]; [| apply IH].
  apply bind_cong; [reflexivity |]. intros st' log'. apply IH.
Qed.

Lemma none_selected {A} (f : A -> bool) l :
  List.length (filter f l) = O -> existsb f l = false.
Proof.
  induction l as [| x l IH]; simpl; [reflexivity |].
  destruct (f x); simpl; [discriminate | exact IH].
Qed.

Lemma some_selected {A} (f : A -> bool) l n :
  List.length (filter f l) = S n -> existsb f l = true.
Proof.
  induction l as [| x l IH]; simpl; [discriminate |].
  destruct (f x); simpl; [reflexivity | exact IH].
Qed.

Lemma filters_loop_alike gl paths1 paths2 p st st' log log' :
  same_state st st' ->
  existsb (fun path => selects path p) paths1
  = existsb (fun path => selects path p) paths2 ->
  alike same_state (filters_loop GITLAB_URL gl paths1 p st log)
                   (filters_loop GITLAB_URL gl paths2 p st' log').
Proof.
  intros Hst Hsel. rewrite !filters_loop_times.
  destruct (List.length (filter (fun path => selects path p) paths1))
    as [| n1] eqn:E1,
    (List.length (filter (fun path => selects path p) paths2))
    as [| n2] eqn:E2.
  - exact Hst.
  - apply none_selected in E1. apply some_selected in E2. congruence.
  - apply some_selected in E1. apply none_selected in E2. congruence.
  - eapply alike_trans; [apply same_state_trans | |].
    + apply (times_alike gl p n1 st st' log log' Hst).
    + apply alike_sym; [apply same_state_sym |].
      apply (times_alike gl p n2 st' st' log' log' (same_state_refl _)).
Qed.

Lemma projects_loop_alike gl paths1 paths2 projects :
  (forall p, In p projects ->
             existsb (fun path => selects path p) paths1
             = existsb (fun path => selects path p) paths2) ->
  forall st st' log log',
    same_state st st' ->
    alike same_state (projects_loop GITLAB_URL paths1 gl projects st log)
                     (projects_loop GITLAB_URL paths2 gl projects st' log').
Proof.
  induction projects as [| p projects IH]; intros Hsel st st' log log' Hst;
    cbn [projects_loop].
  - exact Hst.
  - assert (forall q, In q projects ->
                      existsb (fun path => selects path q) paths1
                      = existsb (fun path => selects path q) paths2) as Hrest
        by (intros q Hq; apply Hsel; right; exact Hq).
    destruct (Project.archived p).
    + apply (alike_bind eq); [reflexivity |]. intros _ _ l l' _.
      apply IH; assumption.
    + eapply alike_bind.
      * apply filters_loop_alike; [exact Hst |]. apply Hsel. left. reflexivity.
      * intros a a' l l' Ha. apply IH; assumption.
Qed.

End Again.

(** ** The reconciliation reads the external list by membership only *)

Lemma reconcile_step_alike pm external external' acc item log log' :
  same_externals external external' ->
  alike eq (reconcile_step pm external acc item log)
           (reconcile_step pm external' acc item log').
Proof.
  intros He. destruct acc as [pd cnt], item as [target ids].
  unfold reconcile_step. rewrite (He target).
  eapply (alike_bind eq).
  - destruct (mapping_get pm target); [reflexivity |].
    apply (alike_bind eq); [reflexivity |]. intros _ _ l l' _. reflexivity.
  - intros [prjid pd1] _ l l' <-.
    apply (alike_bind eq); [apply alike_lift |]. intros pd2 _ l1 l1' <-.
    reflexivity.
Qed.

Lemma reconcile_loop_alike pm external external' items :
  same_externals external external' ->
  forall acc log log',
    alike eq (reconcile_loop pm external items acc log)
             (reconcile_loop pm external' items acc log').
Proof.
  intros He. induction items as [| item items IH]; intros acc log log';
    cbn [reconcile_loop]; [reflexivity |].
  apply (alike_bind eq); [apply reconcile_step_alike; exact He |].
  intros acc' _ l l' <-. apply IH.
Qed.

Lemma reconcile_alike st st' log log' :
  same_state st st' ->
  alike eq (reconcile st log) (reconcile st' log').
Proof.
  intros (Hpd & Hub & Hmap & Hext). unfold reconcile.
  rewrite Hpd, Hub, Hmap.
  apply (alike_bind eq); [apply reconcile_loop_alike; exact Hext |].
  intros [pd cnt] _ l l' <-. reflexivity.
Qed.

(** X12.  The filters are alternatives: the entity set, or the exception
    or exit status that ends the build, depends only on which listed
    projects match at least one filter, not on how many filters match
    them or on the order of the filters. *)
Theorem filters_are_alternatives
        GITLAB_URL paths1 paths2 gl log log' :
  (forall projects p,
      projects_list gl = Ok projects -> In p projects ->
      existsb (fun path => selects path p) paths1
      = existsb (fun path => selects path p) paths2) ->
  outcome (generate_projects_data GITLAB_URL paths1 gl log)
  = outcome (generate_projects_data GITLAB_URL paths2 gl log').
Proof.
  intros Hsel. apply alike_outcome. unfold generate_projects_data.
  eapply alike_bind; [| intros st st' l l' Hst; apply reconcile_alike;
                        exact Hst].
  unfold traverse.
  destruct (projects_list gl) as [projects | e | n] eqn:Hlist;
    try reflexivity.
  unfold bind, lift.
  apply projects_loop_alike; [| apply same_state_refl].
  intros p Hp. apply (Hsel projects p eq_refl Hp).
Qed.


(** ** What the traversal keeps true *)

Lemma known_set entities k v id :
  known entities id -> known (Dict.set String.eqb entities k v) id.
Proof.
  unfold known. intros H.
  destruct (String.eqb_spec id k) as [-> | Hne].
  - rewrite get_set_same. discriminate.
  - rewrite get_set_other by exact Hne. exact H.
Qed.

Lemma known_set_same entities k v :
  known (Dict.set String.eqb entities k v) k.
Proof. unfold known. rewrite get_set_same. discriminate. Qed.

Lemma get_set_inv {V} (d : list (string * V)) k v k' x :
  Dict.get String.eqb (Dict.set String.eqb d k v) k' = Some x ->
  (k' = k /\ x = v) \/ Dict.get String.eqb d k' = Some x.
Proof.
  destruct (String.eqb_spec k' k) as [-> | Hne].
  - rewrite get_set_same. intros H. injection H as <-. left. auto.
  - rewrite get_set_other by exact Hne. auto.
Qed.

Lemma within_weaken (P Q : string -> Prop) (used_by_data : edges) :
  (forall id, P id -> Q id) ->
  Forall (fun item => Forall P (snd item)) used_by_data ->
  Forall (fun item => Forall Q (snd item)) used_by_data.
Proof.
  intros HPQ H. eapply Forall_impl; [| exact H].
  intros item Hitem. eapply Forall_impl; [| exact Hitem]. exact HPQ.
Qed.

Lemma record_edge_within (P : string -> Prop) used_by_data target prjid :
  P prjid ->
  Forall (fun item => Forall P (snd item)) used_by_data ->
  Forall (fun item => Forall P (snd item))
         (record_edge used_by_data target prjid).
Proof.
  intros Hp Hd. unfold record_edge.
  destruct (Dict.get scalar_eqb used_by_data target) as [ids |] eqn:Hget.
  - destruct (existsb (String.eqb prjid) ids); [exact Hd |].
    apply set_Forall; [exact Hd |]. intros k0. simpl.
    destruct (get_some_in _ _ _ _ Hget) as (k' & Hk').
    rewrite Forall_forall in Hd. specialize (Hd _ Hk'). simpl in Hd.
    apply Forall_app. split; [exact Hd | repeat constructor; exact Hp].
  - apply set_Forall; [exact Hd |]. intros k0. simpl.
    repeat constructor. exact Hp.
Qed.

Section Consistency.
Variable GITLAB_URL : string.
Variable PATH_FILTERS : list Re.re.

Lemma loop_within (P : string -> Prop) project prjid deps :
  P prjid ->
  forall used_by_data external log st' log',
    Forall (fun item => Forall P (snd item)) used_by_data ->
    add_dependencies_loop GITLAB_URL project prjid deps
      (used_by_data, external) log = Ok (st', log') ->
    Forall (fun item => Forall P (snd item)) (fst st').
Proof.
  intros Hp. induction deps as [| dep deps IH];
    intros ub ext log st' log' Hd H; cbn [add_dependencies_loop] in H.
  - apply ret_inv in H. destruct H as [-> _]. exact Hd.
  - peel H as r l1 H1. unfold add_dependency in H1.
    peel H1 as b l2 H2. destruct b.
    + peel H1 as u l3 H3. apply ret_inv in H1. destruct H1 as [-> _].
      apply ret_inv in H. destruct H as [-> _]. exact Hd.
    + peel H1 as t l3 H3. destruct t as [target ext'].
      apply ret_inv in H1. destruct H1 as [-> _].
      eapply IH; [| exact H]. apply record_edge_within; assumption.
Qed.

Lemma link_consistent p prjid deps st log st' log' :
  consistent st -> known (projects_data st) prjid ->
  link GITLAB_URL p prjid deps st log = Ok (st', log') ->
  consistent st'.
Proof.
  intros (Hmap & Hub & Hpd) Hk H. unfold link in H.
  peel H as r l1 H1. destruct r as [ub1 ext1].
  apply ret_inv in H. destruct H as [-> _].
  unfold add_dependencies in H1. peel H1 as ds l2 H2.
  split; [exact Hmap | split; [| exact Hpd]]. simpl.
  apply (loop_within _ _ _ _ Hk _ _ _ _ _ Hub H1).
Qed.

Lemma register_consistent st prjid path e :
  consistent st -> discovered e ->
  consistent (register st prjid path e) /\
  known (projects_data (register st prjid path e)) prjid.
Proof.
  intros (Hmap & Hub & Hpd) He. unfold register. simpl.
  split; [split; [| split] |]; simpl.
  - intros path' prjid' Hget. apply get_set_inv in Hget.
    destruct Hget as [[_ ->] | Hget].
    + apply known_set_same.
    + apply known_set. eapply Hmap. exact Hget.
  - eapply within_weaken; [| exact Hub]. intros id. apply known_set.
  - apply set_Forall; [exact Hpd |]. intros k'. exact He.
  - apply known_set_same.
Qed.

Lemma set_role_attributes_discovered project content e :
  set_role_attributes project content = Ok e -> discovered e.
Proof.
  intros H. unfold set_role_attributes in H.
  apply rbind_inv in H. destruct H as (d & _ & H).
  apply rbind_inv in H. destruct H as (pl & _ & H).
  apply rbind_inv in H. destruct H as (gt & _ & H).
  apply rbind_inv in H. destruct H as (grp & _ & H).
  apply rbind_inv in H. destruct H as (tags & _ & H).
  injection H as <-. split; [left; reflexivity | split; [reflexivity |]].
  eexists. reflexivity.
Qed.

Lemma set_play_attributes_discovered project content e :
  set_play_attributes project content = Ok e -> discovered e.
Proof.
  intros H. unfold set_play_attributes in H.
  apply rbind_inv in H. destruct H as (grp & _ & H).
  apply rbind_inv in H. destruct H as (tags & _ & H).
  injection H as <-. split; [right; reflexivity | split; [reflexivity |]].
  eexists. reflexivity.
Qed.

Lemma process_consistent gl p st log st' log' :
  consistent st ->
  process GITLAB_URL gl p st log = Ok (st', log') ->
  consistent st'.
Proof.
  intros Hc H. unfold process in H.
  peel H as real l0 H0. peel H as content l1 H1.
  destruct (truthy content).
  - destruct (is_str content).
    + peel H as u l2 H2. apply ret_inv in H. destruct H as [-> _]. exact Hc.
    + peel H as e l2 H2. apply lift_inv in H2. destruct H2 as [H2 _].
      apply set_role_attributes_discovered in H2.
      destruct (register_consistent st
                  (Project.name p ++ "-" ++ str_Z (Project.id p))%string
                  (Project.path_with_namespace p) e Hc H2) as [Hc' Hk].
      peel H as b l3 H3. destruct b.
      * peel H as deps l4 H4. peel H as n l5 H5.
        destruct (Nat.ltb 0 n).
        -- eapply link_consistent; eassumption.
        -- apply ret_inv in H. destruct H as [-> _]. exact Hc'.
      * apply ret_inv in H. destruct H as [-> _]. exact Hc'.
  - peel H as content2 l2 H2.
    destruct (truthy content2).
    + destruct (is_str content2).
      * peel H as u l3 H3. apply ret_inv in H. destruct H as [-> _]. exact Hc.
      * peel H as e l3 H3. apply lift_inv in H3. destruct H3 as [H3 _].
        apply set_play_attributes_discovered in H3.
        destruct (register_consistent st
                    (Project.name p ++ "-" ++ str_Z (Project.id p))%string
                    (Project.path_with_namespace p) e Hc H3) as [Hc' Hk].
        eapply link_consistent; eassumption.
    + apply ret_inv in H. destruct H as [-> _]. exact Hc.
Qed.

Lemma filters_loop_consistent gl paths p : forall st log st' log',
  consistent st ->
  filters_loop GITLAB_URL gl paths p st log = Ok (st', log') ->
  consistent st'.
Proof.
  induction paths as [| path paths IH]; intros st log st' log' Hc H;
    cbn [filters_loop] in H.
  - apply ret_inv in H. destruct H as [-> _]. exact Hc.
  - destruct (Re.re_match path (Project.path_with_namespace p)).
    + peel H as st1 l1 H1. apply (IH st1 l1 st' log'); [| exact H].
      eapply process_consistent; eassumption.
    + apply (IH st log st' log'); assumption.
Qed.

Lemma projects_loop_consistent gl projects : forall st log st' log',
  consistent st ->
  projects_loop GITLAB_URL PATH_FILTERS gl projects st log = Ok (st', log') ->
  consistent st'.
Proof.
  induction projects as [| p projects IH]; intros st log st' log' Hc H;
    cbn [projects_loop] in H.
  - apply ret_inv in H. destruct H as [-> _]. exact Hc.
  - destruct (Project.archived p).
    + peel H as u l1 H1. apply (IH st l1 st' log'); assumption.
    + peel H as st1 l1 H1. apply (IH st1 l1 st' log'); [| exact H].
      eapply filters_loop_consistent; eassumption.
Qed.

Lemma traverse_consistent gl log st log' :
  traverse GITLAB_URL PATH_FILTERS gl log = Ok (st, log') -> consistent st.
Proof.
  intros H. unfold traverse in H. peel H as projects l1 H1.
  eapply projects_loop_consistent; [| exact H].
  split; [| split]; simpl; try constructor. intros path prjid. discriminate.
Qed.

End Consistency.

(** ** What the reconciliation keeps true *)

Lemma discovered_settled seen e : discovered e -> settled seen e.
Proof.
  intros ([Hs | Hs] & Hu & Hn); unfold settled, well_formed;
    rewrite Hu, Hs; repeat split; try constructor; exact Hn.
Qed.

Lemma set_used_by_settled seen e ids :
  well_formed e -> Forall seen ids -> NoDup ids ->
  settled seen (Entity.set_used_by e ids).
Proof. intros Hw Hs Hn. split; [exact Hs | split; [exact Hn | exact Hw]]. Qed.

Lemma placeholder_settled seen k target ids :
  k = role_extern \/ k = role_unknown ->
  Forall seen ids -> NoDup ids ->
  settled seen (Entity.set_used_by (placeholder k target) ids).
Proof.
  intros Hk Hs Hn. apply set_used_by_settled; try assumption.
  unfold well_formed. destruct Hk as [-> | ->]; simpl; auto.
Qed.

Section Settling.
Variable projects_mapping : list (string * string).
Variable projects_extern : list scalar.
Variable seen : string -> Prop.

Lemma reconcile_step_settled entities cnt target ids log :
  (forall prjid, mapping_get projects_mapping target = Some prjid ->
                 known entities prjid) ->
  Forall (fun entry => settled seen (snd entry)) entities ->
  Forall seen ids -> NoDup ids ->
  exists entities' log',
    reconcile_step projects_mapping projects_extern (entities, cnt)
      (target, ids) log = Ok ((entities', S cnt), log') /\
    Forall (fun entry => settled seen (snd entry)) entities' /\
    (forall id, known entities id -> known entities' id).
Proof.
  intros Hmap Hall Hs Hn.
  destruct (mapping_get projects_mapping target) as [prjid |] eqn:E.
  - specialize (Hmap prjid eq_refl). unfold known in Hmap.
    destruct (Dict.get String.eqb entities prjid) as [e |] eqn:Hget;
      [| congruence].
    rewrite (reconcile_step_resolved _ _ _ _ _ _ _ _ e E Hget).
    eexists. eexists. split; [reflexivity | split].
    + apply set_Forall; [exact Hall |]. intros k'. simpl.
      destruct (get_some_in _ _ _ _ Hget) as (k0 & Hk0).
      rewrite Forall_forall in Hall. specialize (Hall _ Hk0).
      apply set_used_by_settled; try assumption. apply Hall.
    + intros id. apply known_set.
  - rewrite (reconcile_step_unresolved _ _ _ _ _ _ _ E).
    eexists. eexists. split; [reflexivity | split].
    + apply set_Forall; [exact Hall |]. intros k'. simpl.
      apply placeholder_settled; try assumption.
      destruct (is_extern projects_extern target); auto.
    + intros id. apply known_set.
Qed.

Lemma reconcile_loop_settled items : forall entities cnt log,
  (forall path prjid,
      Dict.get String.eqb projects_mapping path = Some prjid ->
      known entities prjid) ->
  Forall (fun entry => settled seen (snd entry)) entities ->
  Forall (fun item => Forall seen (snd item)) items ->
  deduplicated items ->
  exists entities' cnt' log',
    reconcile_loop projects_mapping projects_extern items (entities, cnt) log
    = Ok ((entities', cnt'), log') /\
    Forall (fun entry => settled seen (snd entry)) entities' /\
    (forall id, known entities id -> known entities' id).
Proof.
  induction items as [| [target ids] items IH];
    intros entities cnt log Hmap Hall Hseen Hdup; cbn [reconcile_loop].
  - eexists. eexists. eexists. split; [reflexivity |]. auto.
  - inversion Hseen as [| x xs Hs Hseen']; subst.
    inversion Hdup as [| y ys Hn Hdup']; subst. simpl in Hs, Hn.
    destruct (reconcile_step_settled entities cnt target ids log)
      as (e1 & l1 & Hstep & Hall1 & Hmono1); try assumption.
    { intros prjid Hget. destruct target; try discriminate.
      eapply Hmap. exact Hget. }
    destruct (IH e1 (S cnt) l1) as (e2 & c2 & l2 & Hloop & Hall2 & Hmono2);
      try assumption.
    { intros path prjid Hget. apply Hmono1. eapply Hmap. exact Hget. }
    exists e2, c2, l2. split; [| split; [exact Hall2 |]].
    + unfold bind. rewrite Hstep. exact Hloop.
    + intros id Hid. apply Hmono2, Hmono1. exact Hid.
Qed.

End Settling.

(** After a traversal that went through, the reconciliation goes
    through, and leaves every entity settled. *)
Lemma reconcile_settles st log :
  consistent st -> deduplicated (used_by_data st) ->
  exists entities log',
    reconcile st log = Ok (entities, log') /\
    Forall (fun entry => settled (known entities) (snd entry)) entities.
Proof.
  intros (Hmap & Hub & Hpd) Hdup. unfold reconcile.
  destruct (reconcile_loop_settled (projects_mapping st) (projects_extern st)
              (known (projects_data st)) (used_by_data st)
              (projects_data st) 0%nat log)
    as (entities & cnt & log' & Hloop & Hall & Hmono); try assumption.
  - eapply Forall_impl; [| exact Hpd]. intros entry.
    apply discovered_settled.
  - exists entities, log'. split.
    + unfold bind. rewrite Hloop. reflexivity.
    + eapply Forall_impl; [| exact Hall].
      intros entry (Hs & Hn & Hw). split; [| split; assumption].
      eapply Forall_impl; [| exact Hs]. exact Hmono.
Qed.

Lemma generate_settles GITLAB_URL PATH_FILTERS gl log entities log' :
  generate_projects_data GITLAB_URL PATH_FILTERS gl log = Ok (entities, log') ->
  Forall (fun entry => settled (known entities) (snd entry)) entities.
Proof.
  intros H. unfold generate_projects_data in H. peel H as st l1 H1.
  pose proof (traverse_consistent _ _ _ _ _ _ H1) as Hc.
  assert (deduplicated (used_by_data st)) as Hd.
  { unfold traverse in H1. peel H1 as projects l2 H2.
    eapply projects_loop_deduplicated; [| exact H1]. constructor. }
  destruct (reconcile_settles st l1 Hc Hd) as (e' & l' & Hr & Hall).
  rewrite Hr in H. injection H as <- _. exact Hall.
Qed.

(** X16.  The build fails in the traversal or not at all: once every
    repository has been read, the reconciliation cannot raise. *)
Theorem reconciliation_never_fails
        GITLAB_URL PATH_FILTERS gl log st log' :
  traverse GITLAB_URL PATH_FILTERS gl log = Ok (st, log') ->
  exists entities log'',
    generate_projects_data GITLAB_URL PATH_FILTERS gl log
    = Ok (entities, log'').
Proof.
  intros H. pose proof (traverse_consistent _ _ _ _ _ _ H) as Hc.
  assert (deduplicated (used_by_data st)) as Hd.
  { unfold traverse in H. peel H as projects l2 H2.
    eapply projects_loop_deduplicated; [| exact H]. constructor. }
  destruct (reconcile_settles st log' Hc Hd) as (e' & l' & Hr & _).
  exists e', l'. unfold generate_projects_data, bind. rewrite H. exact Hr.
Qed.

(** X17.  In the entity set the build returns, every [used_by] list names
    entities of the set only, and names none twice. *)
Theorem used_by_names_entities
        GITLAB_URL PATH_FILTERS gl log entities log' prjid e :
  generate_projects_data GITLAB_URL PATH_FILTERS gl log = Ok (entities, log') ->
  In (prjid, e) entities ->
  NoDup (Entity.used_by e) /\
  forall id, In id (Entity.used_by e) -> known entities id.
Proof.
  intros H Hin. apply generate_settles in H.
  rewrite Forall_forall in H. destruct (H _ Hin) as (Hs & Hn & _).
  split; [exact Hn |]. simpl in Hs. rewrite Forall_forall in Hs. exact Hs.
Qed.

(** X18.  In the entity set the build returns, a role or play is named by
    the name of its repository, and an external or unknown role has no
    url, no web_url, no tags and the group ["unknown"]. *)
Theorem entities_are_well_formed
        GITLAB_URL PATH_FILTERS gl log entities log' prjid e :
  generate_projects_data GITLAB_URL PATH_FILTERS gl log = Ok (entities, log') ->
  In (prjid, e) entities ->
  well_formed e.
Proof.
  intros H Hin. apply generate_settles in H.
  rewrite Forall_forall in H. destruct (H _ Hin) as (_ & _ & Hw). exact Hw.
Qed.


(** ** The diagram *)

Lemma color_of_total e : exists color, color_of e = Ok color.
Proof.
  unfold color_of. destruct (Entity.state e); simpl; eexists; reflexivity.
Qed.

Lemma draw_use_known data prj usedby_id :
  known data usedby_id ->
  exists user,
    Dict.get String.eqb data usedby_id = Some user /\
    exists user_color prj_color,
      draw_use data prj usedby_id
      = Ok [ node (Entity.name user) user_color;
             node (Entity.name prj) prj_color;
             edge (Entity.name user) (Entity.name prj) ].
Proof.
  unfold known, draw_use. intros H.
  destruct (Dict.get String.eqb data usedby_id) as [user |]; [| congruence].
  exists user. split; [reflexivity |].
  destruct (color_of_total user) as (c1 & ->).
  destruct (color_of_total prj) as (c2 & ->).
  exists c1, c2. reflexivity.
Qed.

Lemma draw_uses_known data prj used_by :
  Forall (known data) used_by ->
  exists calls, draw_uses data prj used_by = Ok calls.
Proof.
  induction 1 as [| id ids Hid Hids IH]; simpl; [eexists; reflexivity |].
  destruct (draw_use_known data prj id Hid) as (u & _ & c1 & c2 & ->).
  destruct IH as (calls & ->). simpl. eexists. reflexivity.
Qed.

Lemma draw_entities_known data items :
  Forall (fun entry => Forall (known data) (Entity.used_by (snd entry)))
         items ->
  exists calls, draw_entities data items = Ok calls.
Proof.
  induction 1 as [| [prjid prj] items Hprj Hitems IH]; simpl;
    [eexists; reflexivity |].
  simpl in Hprj.
  destruct (draw_uses_known data prj _ Hprj) as (calls & ->).
  destruct IH as (calls' & ->). simpl. eexists. reflexivity.
Qed.

(** X19.  The diagram of an entity set the build has returned is always
    drawn: no lookup of a user or of a color fails. *)
Theorem generate_dot_graph_never_fails
        GITLAB_URL PATH_FILTERS gl log data log' :
  generate_projects_data GITLAB_URL PATH_FILTERS gl log = Ok (data, log') ->
  exists calls, generate_dot_graph data = Ok calls.
Proof.
  intros H. apply generate_settles in H. apply draw_entities_known.
  eapply Forall_impl; [| exact H]. intros entry (Hs & _). exact Hs.
Qed.

Lemma draw_use_edges data prj usedby_id calls a b :
  draw_use data prj usedby_id = Ok calls ->
  (In (edge a b) calls <->
   exists user, Dict.get String.eqb data usedby_id = Some user /\
                a = Entity.name user /\ b = Entity.name prj).
Proof.
  unfold draw_use.
  destruct (Dict.get String.eqb data usedby_id) as [user |]; [| discriminate].
  intros H. apply rbind_inv in H. destruct H as (c1 & _ & H).
  apply rbind_inv in H. destruct H as (c2 & _ & H). injection H as <-.
  split.
  - intros [H | [H | [H | []]]]; try discriminate.
    injection H as <- <-. exists user. auto.
  - intros (u & Hu & -> & ->). injection Hu as <-.
    right. right. left. reflexivity.
Qed.

Lemma draw_uses_edges data prj used_by : forall calls a b,
  draw_uses data prj used_by = Ok calls ->
  (In (edge a b) calls <->
   exists usedby_id user,
     In usedby_id used_by /\
     Dict.get String.eqb data usedby_id = Some user /\
     a = Entity.name user /\ b = Entity.name prj).
Proof.
  induction used_by as [| id ids IH]; intros calls a b H; simpl in H.
  - injection H as <-. split; [intros [] | intros (i & u & [] & _)].
  - apply rbind_inv in H. destruct H as (c1 & H1 & H).
    apply rbind_inv in H. destruct H as (c2 & H2 & H). injection H as <-.
    rewrite in_app_iff, (draw_use_edges _ _ _ _ a b H1), (IH _ a b H2).
    split.
    + intros [(u & Hu & Ha & Hb) | (i & u & Hi & Hu & Ha & Hb)].
      * exists id, u. repeat split; auto. left. reflexivity.
      * exists i, u. repeat split; auto. right. exact Hi.
    + intros (i & u & [<- | Hi] & Hu & Ha & Hb).
      * left. exists u. auto.
      * right. exists i, u. auto.
Qed.

Lemma draw_entities_edges data items : forall calls a b,
  draw_entities data items = Ok calls ->
  (In (edge a b) calls <->
   exists prjid prj usedby_id user,
     In (prjid, prj) items /\ In usedby_id (Entity.used_by prj) /\
     Dict.get String.eqb data usedby_id = Some user /\
     a = Entity.name user /\ b = Entity.name prj).
Proof.
  induction items as [| [k e] items IH]; intros calls a b H; simpl in H.
  - injection H as <-.
    split; [intros [] | intros (i & p & u & x & [] & _)].
  - apply rbind_inv in H. destruct H as (c1 & H1 & H).
    apply rbind_inv in H. destruct H as (c2 & H2 & H). injection H as <-.
    rewrite in_app_iff, (draw_uses_edges _ _ _ _ a b H1), (IH _ a b H2).
    split.
    + intros [(i & u & Hi & Hu & Ha & Hb)
             | (k' & p & i & u & Hp & Hi & Hu & Ha & Hb)].
      * exists k, e, i, u. repeat split; auto. left. reflexivity.
      * exists k', p, i, u. repeat split; auto. right. exact Hp.
    + intros (k' & p & i & u & [Heq | Hp] & Hi & Hu & Ha & Hb).
      * injection Heq as <- <-. left. exists i, u. auto.
      * right. exists k', p, i, u. auto.
Qed.

(** X20.  The edges of the diagram are the uses: there is an edge from
    [a] to [b] exactly when some entity named [b] has in its [used_by]
    the identity of an entity named [a]. *)
Theorem edges_are_the_uses data calls a b :
  generate_dot_graph data = Ok calls ->
  (In (edge a b) calls <->
   exists user prj,
     uses data user prj /\ a = Entity.name user /\ b = Entity.name prj).
Proof.
  intros H. unfold generate_dot_graph in H.
  rewrite (draw_entities_edges _ _ _ a b H). unfold uses. split.
  - intros (k & p & i & u & Hp & Hi & Hu & Ha & Hb).
    exists u, p. split; [exists k, i; auto | auto].
  - intros (u & p & (k & i & Hp & Hi & Hu) & Ha & Hb).
    exists k, p, i, u. auto.
Qed.

(** An identity in a [used_by] list that is not the identity of an
    entity makes the inner loop fail with [KeyError]. *)
Lemma draw_uses_unknown data prj pre usedby_id post :
  Forall (known data) pre ->
  Dict.get String.eqb data usedby_id = None ->
  draw_uses data prj (pre ++ usedby_id :: post) = Raise (KeyError usedby_id).
Proof.
  intros Hpre Hnone. induction Hpre as [| id ids Hid Hids IH]; simpl.
  - unfold draw_use. rewrite Hnone. reflexivity.
  - destruct (draw_use_known data prj id Hid) as (u & _ & c1 & c2 & ->).
    simpl. rewrite IH. reflexivity.
Qed.


(** ** The option loop *)

Lemma lstrip_no_lead c s : String.prefix (String c "") (lstrip c s) = false.
Proof.
  induction s as [| c' s IH]; simpl; [reflexivity |].
  destruct (Ascii.eqb_spec c' c) as [-> | Hne]; [exact IH |].
  simpl. destruct (Ascii.ascii_dec c c'); [congruence | reflexivity].
Qed.

Lemma last_cons {A} (x : A) l d : last (x :: l) d = last l x.
Proof.
  revert x d. induction l as [| y l IH]; intros x d; [reflexivity |].
  change (last (x :: y :: l) d) with (last (y :: l) d).
  rewrite (IH y d), (IH y x). reflexivity.
Qed.

(** X1.  When the option loop goes through, the filters are those given
    with [-f], in their order and without leading slashes, after the
    ones already there; the url and the token are the last ones given;
    the flag is set if [-U] was given. *)
Theorem options_loop_result opts : forall st st',
  options_loop opts st = Ok st' ->
  Main.PATH_FILTERS st'
  = Main.PATH_FILTERS st
      ++ map (fun oa => lstrip "/" (snd oa)) (filter is_filter opts) /\
  Forall (fun path => String.prefix "/" path = false)
         (map (fun oa => lstrip "/" (snd oa)) (filter is_filter opts)) /\
  Main.GITLAB_URL st'
  = last (map snd (filter is_url opts)) (Main.GITLAB_URL st) /\
  Main.token st'
  = last (map (fun oa => Some (snd oa)) (filter is_token opts))
         (Main.token st) /\
  Main.show_unknown st' = Main.show_unknown st || existsb is_flag opts.
Proof.
  induction opts as [| [o a] opts IH]; intros st st' H; simpl in H.
  - injection H as <-. simpl. rewrite List.app_nil_r, orb_false_r.
    repeat split; constructor.
  - apply rbind_inv in H. destruct H as (st1 & H1 & H).
    destruct (IH _ _ H) as (Hf & Hs & Hu & Ht & Hw). clear IH H.
    unfold handle_option in H1.
    cbn [filter existsb].
    change (is_filter (o, a)) with (one_of o ["-f"; "--filter"]).
    change (is_url (o, a)) with (one_of o ["-g"; "--gitlab-url"]).
    change (is_token (o, a)) with (one_of o ["-t"; "--token"]).
    change (is_flag (o, a)) with (one_of o ["-U"; "--show-unkown"]).
    destruct (one_of o ["-h"; "--help"]) eqn:Eh; [discriminate |].
    destruct (one_of o ["-f"; "--filter"]) eqn:Ef.
    { injection H1 as <-. simpl in Hf, Hu, Ht, Hw.
      assert (one_of o ["-g"; "--gitlab-url"] = false) as ->
          by (unfold one_of in *; simpl in *;
              destruct (String.eqb_spec o "-f") as [-> |];
              [reflexivity |];
              destruct (String.eqb_spec o "--filter") as [-> |];
              [reflexivity | discriminate]).
      assert (one_of o ["-t"; "--token"] = false) as ->
          by (unfold one_of in *; simpl in *;
              destruct (String.eqb_spec o "-f") as [-> |];
              [reflexivity |];
              destruct (String.eqb_spec o "--filter") as [-> |];
              [reflexivity | discriminate]).
      assert (one_of o ["-U"; "--show-unkown"] = false) as ->
          by (unfold one_of in *; simpl in *;
              destruct (String.eqb_spec o "-f") as [-> |];
              [reflexivity |];
              destruct (String.eqb_spec o "--filter") as [-> |];
              [reflexivity | discriminate]).
      cbn [map snd]. rewrite Hf, <- List.app_assoc. simpl.
      repeat split; try assumption.
      constructor; [apply (lstrip_no_lead "/") | exact Hs]. }
    destruct (one_of o ["-g"; "--gitlab-url"]) eqn:Eg.
    { injection H1 as <-. simpl in Hf, Hu, Ht, Hw.
      assert (one_of o ["-t"; "--token"] = false) as ->
          by (unfold one_of in *; simpl in *;
              destruct (String.eqb_spec o "-g") as [-> |];
              [reflexivity |];
              destruct (String.eqb_spec o "--gitlab-url") as [-> |];
              [reflexivity | discriminate]).
      assert (one_of o ["-U"; "--show-unkown"] = false) as ->
          by (unfold one_of in *; simpl in *;
              destruct (String.eqb_spec o "-g") as [-> |];
              [reflexivity |];
              destruct (String.eqb_spec o "--gitlab-url") as [-> |];
              [reflexivity | discriminate]).
      cbn [map snd]. rewrite last_cons.
      repeat split; assumption. }
    destruct (one_of o ["-t"; "--token"]) eqn:Et.
    { injection H1 as <-. simpl in Hf, Hu, Ht, Hw.
      assert (one_of o ["-U"; "--show-unkown"] = false) as ->
          by (unfold one_of in *; simpl in *;
              destruct (String.eqb_spec o "-t") as [-> |];
              [reflexivity |];
              destruct (String.eqb_spec o "--token") as [-> |];
              [reflexivity | discriminate]).
      cbn [map snd]. rewrite last_cons.
      repeat split; assumption. }
    destruct (one_of o ["-U"; "--show-unkown"]) eqn:EU; [| discriminate].
    injection H1 as <-. simpl in Hf, Hu, Ht, Hw.
    rewrite orb_true_r. repeat split; assumption.
Qed.

(** X2.  [-h] ends the program with status 0 as soon as the loop reaches
    it; what follows it on the command line is not looked at. *)
Theorem help_exits pre o a post st st1 :
  options_loop pre st = Ok st1 ->
  one_of o [ "-h"; "--help" ] = true ->
  options_loop (pre ++ (o, a) :: post) st = Exit 0.
Proof.
  revert st. induction pre as [| [o' a'] pre IH]; intros st Hpre Hh;
    simpl in Hpre |- *.
  - unfold handle_option. rewrite Hh. reflexivity.
  - apply rbind_inv in Hpre. destruct Hpre as (st' & -> & Hpre). simpl.
    apply IH; assumption.
Qed.

(** X3.  Of the names [getopt] can return, the loop handles all but
    [--show-unknown], on which it raises; and the two long names it
    tests for besides, [--gitlab-url] and [--show-unkown], are none
    that [getopt] returns. *)
Theorem show_unknown_is_unhandled o a st :
  In o getopt_names ->
  (handle_option st o a = Raise unhandled_option <-> o = "--show-unknown") /\
  o <> "--gitlab-url" /\ o <> "--show-unkown".
Proof.
  unfold getopt_names. simpl.
  intros [<- | [<- | [<- | [<- | [<- | [<- | [<- | [<- | [<- | []]]]]]]]]];
    (split; [split; [intros H; try reflexivity; vm_compute in H;
                     discriminate
                    | intros H; try discriminate; reflexivity]
            | split; discriminate]).
Qed.


(** ** A source URL of the own instance *)

Section OwnSource.
Variable GITLAB_URL : string.

Lemma dependency_target_own project m path c external log :
  assoc m "src"
  = Some (YStr ("git@" ++ replace "https://" "" GITLAB_URL
                  ++ String ":" (path ++ String c "git"))) ->
  path <> EmptyString -> occurs Re.newline path = false ->
  c <> Re.newline ->
  dependency_target GITLAB_URL project (YMap m) external log
  = Ok ((SStr path, external), log).
Proof.
  intros Hsrc Hne Hnl Hc. unfold dependency_target, subscript.
  rewrite Hsrc. rewrite url_pattern_matches; try assumption.
  - reflexivity.
  - simpl. destruct (Ascii.eqb_spec c Re.newline); [contradiction |].
    reflexivity.
Qed.

End OwnSource.

(** X6.  A requirement whose source is
    [git@<host>:<path><c>git], with the host of the configured instance
    and any character [c] but a newline in the place of the dot, is
    recorded under [<path>]; nothing is printed and the external list
    is left alone.  So [git@host:group/role.git] is recorded under
    [group/role], and so is [git@host:group/role-git]. *)
Theorem own_src_is_recorded_under_its_path
        GITLAB_URL project prjid m path c used_by_data external log :
  Re.plain (replace "https://" "" GITLAB_URL) = true ->
  assoc m "include" = None ->
  assoc m "src"
  = Some (YStr ("git@" ++ replace "https://" "" GITLAB_URL
                  ++ String ":" (path ++ String c "git"))) ->
  path <> EmptyString -> occurs Re.newline path = false ->
  c <> Re.newline ->
  add_dependency GITLAB_URL project prjid (YMap m) (used_by_data, external) log
  = Ok (Next (record_edge used_by_data (SStr path) prjid, external), log).
Proof.
  intros _ Hinc Hsrc Hne Hnl Hc. unfold add_dependency, contains.
  rewrite Hinc. unfold bind, lift.
  rewrite (dependency_target_own GITLAB_URL project m path c external log
             Hsrc Hne Hnl Hc).
  reflexivity.
Qed.

(** ** What the fetcher returns *)

(** X5.  A document other than the empty dictionary comes from one place
    only: the directory was listed, the first entry of the listing that
    carries the file name was retrieved, and the document is what the
    parser made of it.  The call then printed nothing. *)
Theorem get_yaml_content_document project path filename log doc log' :
  get_yaml_content project path filename log = Ok (doc, log') ->
  doc <> YMap [] ->
  exists items meta_main file_info,
    Project.repository_tree project path = Ok items /\
    first_named items filename = Some meta_main /\
    Item.name meta_main = filename /\
    Project.repository_blob project (Item.id meta_main) = Ok file_info /\
    FileInfo.content file_info = Ok doc /\
    log' = log ++ [Fetched (Project.id project) path filename].
Proof.
  unfold get_yaml_content. intros H Hdoc.
  peel H as u l1 H1. unfold emit in H1. injection H1 as _ <-.
  destruct (Project.repository_tree project path) as [items | e | n] eqn:Ht.
  - destruct (Nat.ltb 0 (List.length items)).
    + destruct (first_named items filename) as [meta_main |] eqn:Hf.
      * destruct (Project.repository_blob project (Item.id meta_main))
          as [file_info | e | n] eqn:Hb.
        -- apply lift_inv in H. destruct H as [Hc <-].
           exists items, meta_main, file_info.
           repeat split; try assumption.
           unfold first_named in Hf. apply find_some in Hf.
           apply String.eqb_eq. exact (proj2 Hf).
        -- destruct e; try discriminate.
           peel H as u1 l2 H2. apply ret_inv in H. destruct H as [-> _].
           contradiction Hdoc. reflexivity.
        -- discriminate.
      * apply ret_inv in H. destruct H as [-> _].
        contradiction Hdoc. reflexivity.
    + apply ret_inv in H. destruct H as [-> _].
      contradiction Hdoc. reflexivity.
  - destruct e; try discriminate.
    peel H as u1 l2 H2. peel H as u2 l3 H3.
    apply ret_inv in H. destruct H as [-> _].
    contradiction Hdoc. reflexivity.
  - discriminate.
Qed.

(** ** The record of a play *)

(** X4.  A play gets its record exactly when its path has a namespace
    (a part without a newline before the last slash, and something after
    it) and its tags can be listed.  The record holds the data of the
    repository and the namespace; it has no description, platforms or
    galaxy tags, and the requirements file has no part in it. *)
Theorem set_play_attributes_record project content e :
  set_play_attributes project content = Ok e <->
  exists g seg git_tags,
    Project.path_with_namespace project = (g ++ String "/" seg)%string /\
    g <> EmptyString /\ occurs Re.newline g = false /\
    seg <> EmptyString /\ occurs "/" seg = false /\
    Project.tags project = Ok git_tags /\
    e = {| Entity.state := play;
           Entity.name := SStr (Project.name project);
           Entity.url := Project.ssh_url_to_repo project;
           Entity.web_url := Project.web_url project;
           Entity.group := g;
           Entity.used_by := [];
           Entity.git_tags := git_tags;
           Entity.description := None;
           Entity.platforms := None;
           Entity.galaxy_tags := None |}.
Proof.
  unfold set_play_attributes, group_of. split.
  - intros H. apply rbind_inv in H. destruct H as (g & Hg & H).
    apply rbind_inv in H. destruct H as (tags & Htags & H).
    injection H as <-.
    destruct (Re.re_match group_pattern (Project.path_with_namespace project))
      as [caps |] eqn:Hm; [| discriminate].
    apply group_pattern_sound in Hm.
    destruct Hm as (g' & seg & -> & Hp & Hg1 & Hg2 & Hs1 & Hs2).
    simpl in Hg. injection Hg as <-.
    exists g', seg, tags. repeat split; assumption.
  - intros (g & seg & tags & Hp & Hg1 & Hg2 & Hs1 & Hs2 & Htags & ->).
    rewrite Hp, (group_pattern_complete g seg Hg1 Hg2 Hs1 Hs2).
    simpl. rewrite Htags. reflexivity.
Qed.

(** ** Identities *)

Lemma digits_no_dash d : occurs "-" (NilEmpty.string_of_uint d) = false.
Proof. induction d; simpl; assumption || reflexivity. Qed.

Lemma str_Z_no_dash z : (0 <= z)%Z -> occurs "-" (str_Z z) = false.
Proof.
  intros Hz. unfold str_Z. destruct z as [| p | p]; [reflexivity | | lia].
  simpl. destruct (Pos.to_uint p); try reflexivity; apply digits_no_dash.
Qed.

Lemma str_Z_inj z z' : str_Z z = str_Z z' -> z = z'.
Proof.
  unfold str_Z. intros H.
  assert (forall x, Z.to_int x <> Pos Nil /\ Z.to_int x <> Neg Nil) as Hnn.
  { intros [| p | p]; simpl; split; try discriminate;
      intros E; injection E as E;
      exact (DecimalPos.Unsigned.to_uint_nonnil p E). }
  pose proof (NilZero.isi _ (proj1 (Hnn z)) (proj2 (Hnn z))) as Hi.
  pose proof (NilZero.isi _ (proj1 (Hnn z')) (proj2 (Hnn z'))) as Hj.
  rewrite H, Hj in Hi. injection Hi as Hi.
  rewrite <- (DecimalZ.of_to z), <- (DecimalZ.of_to z'), Hi. reflexivity.
Qed.

(** The texts before and after the last occurrence of a character are
    determined by the string. *)
Lemma last_separator_unique c g : forall g' seg seg',
  occurs c seg = false -> occurs c seg' = false ->
  (g ++ String c seg)%string = (g' ++ String c seg')%string ->
  g = g' /\ seg = seg'.
Proof.
  induction g as [| a g IH]; intros [| a' g'] seg seg' Hs Hs' H; simpl in H.
  - injection H as ->. split; reflexivity.
  - injection H as <- ->. rewrite occurs_append in Hs. simpl in Hs.
    rewrite Ascii.eqb_refl in Hs. rewrite orb_true_r in Hs. discriminate.
  - injection H as -> <-. rewrite occurs_append in Hs'. simpl in Hs'.
    rewrite Ascii.eqb_refl in Hs'. rewrite orb_true_r in Hs'. discriminate.
  - injection H as -> H. destruct (IH g' seg seg' Hs Hs' H) as [-> ->].
    split; reflexivity.
Qed.

(** X15.  The identity [name-id] under which a repository is entered
    tells repositories apart: with ids that are not negative, as the
    platform hands them out, two repositories have the same identity
    only if they have the same name and the same id. *)
Theorem prjid_tells_repositories_apart name name' id id' :
  (0 <= id)%Z -> (0 <= id')%Z ->
  (name ++ "-" ++ str_Z id)%string = (name' ++ "-" ++ str_Z id')%string ->
  name = name' /\ id = id'.
Proof.
  intros Hid Hid' H.
  change ((name ++ String "-" (str_Z id))%string
          = (name' ++ String "-" (str_Z id'))%string) in H.
  apply last_separator_unique in H; try (apply str_Z_no_dash; assumption).
  destruct H as [-> H]. split; [reflexivity |]. apply str_Z_inj. exact H.
Qed.

(** ** Projects the traversal passes over *)

Section PassedOver.
Variable GITLAB_URL : string.

Lemma process_reads_get gl gl' p st log :
  (forall id, projects_get gl' id = projects_get gl id) ->
  process GITLAB_URL gl' p st log = process GITLAB_URL gl p st log.
Proof. intros Hget. unfold process. rewrite Hget. reflexivity. Qed.

Lemma filters_loop_reads_get gl gl' paths p :
  (forall id, projects_get gl' id = projects_get gl id) ->
  forall st log,
    filters_loop GITLAB_URL gl' paths p st log
    = filters_loop GITLAB_URL gl paths p st log.
Proof.
  intros Hget. induction paths as [| path paths IH]; intros st log;
    cbn [filters_loop]; [reflexivity |].
  destruct (Re.re_match path (Project.path_with_namespace p)); [| apply IH].
  unfold bind. rewrite (process_reads_get gl gl' p st log Hget).
  destruct (process GITLAB_URL gl p st log) as [[st1 l1] | e | n];
    try reflexivity.
  apply IH.
Qed.

Lemma projects_loop_reads_get paths gl gl' projects :
  (forall id, projects_get gl' id = projects_get gl id) ->
  forall st log,
    projects_loop GITLAB_URL paths gl' projects st log
    = projects_loop GITLAB_URL paths gl projects st log.
Proof.
  intros Hget. induction projects as [| p projects IH]; intros st log;
    cbn [projects_loop]; [reflexivity |].
  destruct (Project.archived p).
  - unfold bind.
    destruct (cprint (skip_archived (Project.name p)) blue log)
      as [[u l1] | e | n]; try reflexivity.
    apply IH.
  - unfold bind. rewrite (filters_loop_reads_get gl gl' paths p Hget).
    destruct (filters_loop GITLAB_URL gl paths p st log)
      as [[st1 l1] | e | n]; try reflexivity.
    apply IH.
Qed.

Lemma projects_loop_visible paths gl projects : forall st st' log log',
  same_state st st' ->
  alike same_state
    (projects_loop GITLAB_URL paths gl projects st log)
    (projects_loop GITLAB_URL paths gl (filter (visible paths) projects)
       st' log').
Proof.
  induction projects as [| p projects IH]; intros st st' log log' Hst;
    cbn [projects_loop filter].
  - exact Hst.
  - unfold visible at 1.
    destruct (Project.archived p) eqn:Ha; cbn [negb andb].
    + unfold bind, cprint, emit. apply IH. exact Hst.
    + destruct (existsb (fun path => selects path p) paths) eqn:Hsel.
      * cbn [projects_loop]. rewrite Ha.
        eapply alike_bind.
        -- apply filters_loop_alike; [exact Hst | reflexivity].
        -- intros a a' l l' Ha'. apply IH. exact Ha'.
      * unfold bind at 1. rewrite filters_loop_times.
        assert (List.length (filter (fun path => selects path p) paths) = O)
          as ->.
        { destruct (List.length (filter (fun path => selects path p) paths))
            eqn:E; [reflexivity |].
          apply some_selected in E. congruence. }
        cbn [times]. unfold ret. apply IH. exact Hst.
Qed.

Lemma projects_loop_unfiltered gl projects : forall st log,
  exists log',
    projects_loop GITLAB_URL [] gl projects st log = Ok (st, log').
Proof.
  induction projects as [| p projects IH]; intros st log;
    cbn [projects_loop filters_loop].
  - exists log. reflexivity.
  - destruct (Project.archived p).
    + unfold bind, cprint, emit. apply IH.
    + unfold bind, ret. apply IH.
Qed.

End PassedOver.

(** X13.  Archived projects and projects no filter matches leave no trace
    in the entity set: the build ends as it would on a platform that
    does not list them, where a role that only they provide shows up as
    unknown in both. *)
Theorem passed_over_projects_leave_no_trace
        GITLAB_URL paths gl gl' projects log log' :
  projects_list gl = Ok projects ->
  projects_list gl' = Ok (filter (visible paths) projects) ->
  (forall id, projects_get gl' id = projects_get gl id) ->
  outcome (generate_projects_data GITLAB_URL paths gl log)
  = outcome (generate_projects_data GITLAB_URL paths gl' log').
Proof.
  intros Hl Hl' Hget. apply alike_outcome. unfold generate_projects_data.
  eapply alike_bind; [| intros st st' l l' Hst; apply reconcile_alike;
                        exact Hst].
  unfold traverse. rewrite Hl, Hl'. unfold bind, lift.
  rewrite (projects_loop_reads_get GITLAB_URL paths gl gl' _ Hget).
  apply projects_loop_visible. apply same_state_refl.
Qed.

(** X14.  Without a filter the entity set is empty, whatever the platform
    lists: the traversal takes a project only when a filter matches it,
    and [PATH_FILTERS] starts out empty. *)
Theorem without_filters_nothing_is_found GITLAB_URL gl projects log :
  projects_list gl = Ok projects ->
  outcome (generate_projects_data GITLAB_URL [] gl log) = Ok [].
Proof.
  intros Hl. unfold generate_projects_data, traverse. rewrite Hl.
  unfold bind at 1. unfold bind at 1. unfold lift.
  destruct (projects_loop_unfiltered GITLAB_URL gl projects initial log)
    as (log' & ->).
  reflexivity.
Qed.

(** X10.  The body of the filter loop runs once for every filter that
    matches the path of the project, each run starting from the state
    the one before it left: there is no [break] after a match. *)
Theorem body_runs_once_per_matching_filter GITLAB_URL gl paths p st log :
  filters_loop GITLAB_URL gl paths p st log
  = times (List.length (filter (fun path => selects path p) paths))
      (process GITLAB_URL gl p) st log.
Proof. apply filters_loop_times. Qed.

(** ** The nodes of the diagram *)

Lemma draw_use_nodes data prj usedby_id calls n c :
  draw_use data prj usedby_id = Ok calls ->
  (In (node n c) calls <->
   exists user, Dict.get String.eqb data usedby_id = Some user /\
                ((n = Entity.name user /\ color_of user = Ok c) \/
                 (n = Entity.name prj /\ color_of prj = Ok c))).
Proof.
  unfold draw_use.
  destruct (Dict.get String.eqb data usedby_id) as [user |]; [| discriminate].
  intros H. apply rbind_inv in H. destruct H as (c1 & H1 & H).
  apply rbind_inv in H. destruct H as (c2 & H2 & H). injection H as <-.
  split.
  - intros [H | [H | [H | []]]]; try discriminate.
    + injection H as <- <-. exists user. auto.
    + injection H as <- <-. exists user. auto.
  - intros (u & Hu & [[-> Hc] | [-> Hc]]); injection Hu as <-.
    + left. congruence.
    + right. left. congruence.
Qed.

Lemma draw_uses_nodes data prj used_by : forall calls n c,
  draw_uses data prj used_by = Ok calls ->
  (In (node n c) calls <->
   exists usedby_id user,
     In usedby_id used_by /\
     Dict.get String.eqb data usedby_id = Some user /\
     ((n = Entity.name user /\ color_of user = Ok c) \/
      (n = Entity.name prj /\ color_of prj = Ok c))).
Proof.
  induction used_by as [| id ids IH]; intros calls n c H; simpl in H.
  - injection H as <-. split; [intros [] | intros (i & u & [] & _)].
  - apply rbind_inv in H. destruct H as (c1 & H1 & H).
    apply rbind_inv in H. destruct H as (c2 & H2 & H). injection H as <-.
    rewrite in_app_iff, (draw_use_nodes _ _ _ _ n c H1), (IH _ n c H2).
    split.
    + intros [(u & Hu & Hn) | (i & u & Hi & Hu & Hn)].
      * exists id, u. repeat split; auto. left. reflexivity.
      * exists i, u. repeat split; auto. right. exact Hi.
    + intros (i & u & [<- | Hi] & Hu & Hn).
      * left. exists u. auto.
      * right. exists i, u. auto.
Qed.

Lemma draw_entities_nodes data items : forall calls n c,
  draw_entities data items = Ok calls ->
  (In (node n c) calls <->
   exists prjid prj usedby_id user,
     In (prjid, prj) items /\ In usedby_id (Entity.used_by prj) /\
     Dict.get String.eqb data usedby_id = Some user /\
     ((n = Entity.name user /\ color_of user = Ok c) \/
      (n = Entity.name prj /\ color_of prj = Ok c))).
Proof.
  induction items as [| [k e] items IH]; intros calls n c H; simpl in H.
  - injection H as <-.
    split; [intros [] | intros (i & p & u & x & [] & _)].
  - apply rbind_inv in H. destruct H as (c1 & H1 & H).
    apply rbind_inv in H. destruct H as (c2 & H2 & H). injection H as <-.
    rewrite in_app_iff, (draw_uses_nodes _ _ _ _ n c H1), (IH _ n c H2).
    split.
    + intros [(i & u & Hi & Hu & Hn)
             | (k' & p & i & u & Hp & Hi & Hu & Hn)].
      * exists k, e, i, u. repeat split; auto. left. reflexivity.
      * exists k', p, i, u. repeat split; auto. right. exact Hp.
    + intros (k' & p & i & u & [Heq | Hp] & Hi & Hu & Hn).
      * injection Heq as <- <-. left. exists i, u. auto.
      * right. exists k', p, i, u. auto.
Qed.

(** X21.  A node is drawn only for an entity that takes part in a use,
    as the user or as the one used, and in the color of its state: a
    role or play that nobody uses and that uses nobody is not in the
    diagram. *)
Theorem nodes_take_part_in_a_use data calls n c :
  generate_dot_graph data = Ok calls ->
  (In (node n c) calls <->
   exists user prj,
     uses data user prj /\
     ((n = Entity.name user /\ color_of user = Ok c) \/
      (n = Entity.name prj /\ color_of prj = Ok c))).
Proof.
  intros H. unfold generate_dot_graph in H.
  rewrite (draw_entities_nodes _ _ _ n c H). unfold uses. split.
  - intros (k & p & i & u & Hp & Hi & Hu & Hn).
    exists u, p. split; [exists k, i; auto | auto].
  - intros (u & p & (k & i & Hp & Hi & Hu) & Hn).
    exists k, p, i, u. auto.
Qed.

Lemma draw_entities_app data items : forall items',
  draw_entities data (items ++ items')
  = rbind (draw_entities data items) (fun calls =>
    rbind (draw_entities data items') (fun calls' =>
    Ok (calls ++ calls'))).
Proof.
  induction items as [| [k e] items IH]; intros items'; simpl.
  - destruct (draw_entities data items'); reflexivity.
  - destruct (draw_uses data e (Entity.used_by e)) as [c1 | x | n];
      try reflexivity.
    simpl. rewrite IH.
    destruct (draw_entities data items) as [c2 | x | n]; try reflexivity.
    simpl.
    destruct (draw_entities data items') as [c3 | x | n]; try reflexivity.
    simpl. rewrite List.app_assoc. reflexivity.
Qed.

(** X22.  On an entity set in which a [used_by] list holds an identity
    that no entity has, the diagram fails with [KeyError] on the first
    such identity. *)
Theorem unknown_user_fails_the_diagram
        data before prjid prj after pre usedby_id post :
  data = before ++ (prjid, prj) :: after ->
  Forall (fun entry => Forall (known data) (Entity.used_by (snd entry)))
         before ->
  Entity.used_by prj = pre ++ usedby_id :: post ->
  Forall (known data) pre ->
  Dict.get String.eqb data usedby_id = None ->
  generate_dot_graph data = Raise (KeyError usedby_id).
Proof.
  intros Hdata Hbefore Hused Hpre Hnone. unfold generate_dot_graph.
  rewrite Hdata at 2. rewrite draw_entities_app.
  destruct (draw_entities_known data before Hbefore) as (calls & ->).
  simpl. rewrite Hused, (draw_uses_unknown data prj pre usedby_id post
                           Hpre Hnone).
  reflexivity.
Qed.


(** ** The properties at work *)

Lemma own_src_is_recorded_under_its_path_witness :
  add_dependency Scenario.GITLAB_URL Scenario.site "site-5"
    (YMap [ ("src", YStr "git@gitlab.example.com:infra/webserver-git") ])
    ([], []) []
  = Ok (Next ([ (SStr "infra/webserver", [ "site-5" ]) ], []), []).
Proof.
  apply (own_src_is_recorded_under_its_path Scenario.GITLAB_URL Scenario.site
           "site-5"
           [ ("src", YStr "git@gitlab.example.com:infra/webserver-git") ]
           "infra/webserver" "-"%char [] [] []);
    try reflexivity; discriminate.
Defined.

Lemma add_dependencies_only_adds_witness :
  grows [ (SStr "infra/webserver", [ "other-1" ]) ]
        [ (SStr "infra/webserver", [ "other-1"; "site-5" ]);
          (SStr "community.general", [ "site-5" ]) ] /\
  exists more, [ SStr "community.general" ] = [] ++ more.
Proof.
  apply (add_dependencies_only_adds Scenario.GITLAB_URL Scenario.site "site-5"
           Overview.requirements
           [ (SStr "infra/webserver", [ "other-1" ]) ] [] []
           [ (SStr "infra/webserver", [ "other-1"; "site-5" ]);
             (SStr "community.general", [ "site-5" ]) ]
           [ SStr "community.general" ]
           [ Printed yellow
               (no_src "site" (YStr "community.general") "src") ]).
  vm_compute. reflexivity.
Defined.

Lemma add_dependencies_twice_witness :
  exists more log'',
    [ SStr "community.general" ] = [] ++ more /\
    add_dependencies Scenario.GITLAB_URL Scenario.site "site-5"
      Overview.requirements
      [ (SStr "infra/webserver", [ "site-5" ]);
        (SStr "community.general", [ "site-5" ]) ]
      [ SStr "community.general" ]
      [ Printed yellow (no_src "site" (YStr "community.general") "src") ]
    = Ok (([ (SStr "infra/webserver", [ "site-5" ]);
             (SStr "community.general", [ "site-5" ]) ],
           [ SStr "community.general" ] ++ more), log'').
Proof.
  apply (add_dependencies_twice Scenario.GITLAB_URL Scenario.site "site-5"
           Overview.requirements [] [] []).
  vm_compute. reflexivity.
Defined.

Lemma filters_are_alternatives_witness :
  outcome (generate_projects_data Scenario.GITLAB_URL
             Scenario.overlapping_filters Scenario.webserver_and_site [])
  = outcome (generate_projects_data Scenario.GITLAB_URL
               Scenario.PATH_FILTERS Scenario.webserver_and_site []).
Proof.
  apply (filters_are_alternatives Scenario.GITLAB_URL
           Scenario.overlapping_filters Scenario.PATH_FILTERS
           Scenario.webserver_and_site [] []).
  intros projects p Hl Hp. injection Hl as <-.
  destruct Hp as [<- | [<- | []]]; reflexivity.
Defined.

Lemma reconciliation_never_fails_witness :
  exists entities log'',
    generate_projects_data Scenario.GITLAB_URL Scenario.PATH_FILTERS
      (Scenario.snapshot [ Scenario.galaxy_user ]) []
    = Ok (entities, log'').
Proof.
  eapply (reconciliation_never_fails Scenario.GITLAB_URL Scenario.PATH_FILTERS
            (Scenario.snapshot [ Scenario.galaxy_user ]) []).
  vm_compute. reflexivity.
Defined.

Lemma used_by_names_entities_witness :
  NoDup [ "site-5" ] /\
  forall id, In id [ "site-5" ] -> known Overview.webserver_and_site id.
Proof.
  eapply (used_by_names_entities Scenario.GITLAB_URL Scenario.PATH_FILTERS
            Scenario.webserver_and_site [] Overview.webserver_and_site _
            "webserver-12" Overview.webserver).
  - vm_compute. reflexivity.
  - left. reflexivity.
Defined.

Lemma entities_are_well_formed_witness :
  well_formed
    (Entity.set_used_by (placeholder role_extern (SStr "community.general"))
       [ "deploy-7" ]).
Proof.
  eapply (entities_are_well_formed Scenario.GITLAB_URL Scenario.PATH_FILTERS
            (Scenario.snapshot [ Scenario.galaxy_user ]) [] _ _
            "zzz-unknown-0").
  - vm_compute. reflexivity.
  - right. left. reflexivity.
Defined.

Lemma generate_dot_graph_never_fails_witness :
  exists calls, generate_dot_graph Overview.webserver_and_site = Ok calls.
Proof.
  eapply (generate_dot_graph_never_fails Scenario.GITLAB_URL
            Scenario.PATH_FILTERS Scenario.webserver_and_site []).
  vm_compute. reflexivity.
Defined.

Lemma edges_are_the_uses_witness :
  In (edge (SStr "site") (SStr "webserver")) Overview.diagram <->
  exists user prj,
    uses Overview.webserver_and_site user prj /\
    SStr "site" = Entity.name user /\ SStr "webserver" = Entity.name prj.
Proof.
  apply (edges_are_the_uses Overview.webserver_and_site Overview.diagram).
  reflexivity.
Defined.

Lemma nodes_take_part_in_a_use_witness :
  In (node (SStr "site") "limegreen") Overview.diagram <->
  exists user prj,
    uses Overview.webserver_and_site user prj /\
    ((SStr "site" = Entity.name user /\ color_of user = Ok "limegreen") \/
     (SStr "site" = Entity.name prj /\ color_of prj = Ok "limegreen")).
Proof.
  apply (nodes_take_part_in_a_use Overview.webserver_and_site
           Overview.diagram).
  reflexivity.
Defined.

Lemma unknown_user_fails_the_diagram_witness :
  generate_dot_graph Overview.dangling = Raise (KeyError "gone-1").
Proof.
  apply (unknown_user_fails_the_diagram Overview.dangling []
           "webserver-12"
           (Entity.set_used_by Overview.webserver [ "site-5"; "gone-1" ])
           [ ("site-5", Overview.site) ] [ "site-5" ] "gone-1" []).
  - reflexivity.
  - constructor.
  - reflexivity.
  - constructor; [| constructor]. unfold known. simpl. discriminate.
  - reflexivity.
Defined.

Lemma options_loop_result_witness :
  Main.PATH_FILTERS Overview.settings = [] ++ [ "infra/"; "apps" ] /\
  Forall (fun path => String.prefix "/" path = false) [ "infra/"; "apps" ] /\
  Main.GITLAB_URL Overview.settings
  = last [ "https://git.example.org" ] "https://gitlab.example.com" /\
  Main.token Overview.settings = last [ Some "secret" ] None /\
  Main.show_unknown Overview.settings = false || true.
Proof.
  apply (options_loop_result Overview.command_line Main.initial
           Overview.settings).
  reflexivity.
Defined.

Lemma help_exits_witness :
  options_loop ([ ("-f", "infra/") ] ++ ("--help", "") :: [ ("-x", "") ])
    Main.initial
  = Exit 0.
Proof.
  eapply (help_exits [ ("-f", "infra/") ] "--help" "" [ ("-x", "") ]
            Main.initial).
  - reflexivity.
  - reflexivity.
Defined.

Lemma show_unknown_is_unhandled_witness :
  (handle_option Main.initial "--show-unknown" "" = Raise unhandled_option
   <-> "--show-unknown" = "--show-unknown") /\
  "--show-unknown" <> "--gitlab-url" /\ "--show-unknown" <> "--show-unkown".
Proof.
  apply (show_unknown_is_unhandled "--show-unknown" "" Main.initial).
  vm_compute. do 8 right. left. reflexivity.
Defined.

Lemma get_yaml_content_document_witness :
  exists items meta_main file_info,
    Project.repository_tree Scenario.webserver "meta" = Ok items /\
    first_named items "main.yml" = Some meta_main /\
    Item.name meta_main = "main.yml" /\
    Project.repository_blob Scenario.webserver (Item.id meta_main)
    = Ok file_info /\
    FileInfo.content file_info
    = Ok (YMap [ ("galaxy_info",
                  YMap [ ("description", YStr "Installs nginx") ]) ]) /\
    [ Fetched 12 "meta" "main.yml" ]
    = [] ++ [ Fetched (Project.id Scenario.webserver) "meta" "main.yml" ].
Proof.
  apply (get_yaml_content_document Scenario.webserver "meta" "main.yml" []).
  - reflexivity.
  - discriminate.
Defined.

Lemma prjid_tells_repositories_apart_witness :
  "webserver" = "webserver" /\ 12%Z = 12%Z.
Proof.
  apply (prjid_tells_repositories_apart "webserver" "webserver" 12 12).
  - lia.
  - lia.
  - reflexivity.
Defined.

Lemma passed_over_projects_leave_no_trace_witness :
  outcome (generate_projects_data Scenario.GITLAB_URL Scenario.PATH_FILTERS
             Overview.with_retired [])
  = outcome (generate_projects_data Scenario.GITLAB_URL Scenario.PATH_FILTERS
               Overview.without_retired []).
Proof.
  apply (passed_over_projects_leave_no_trace Scenario.GITLAB_URL
           Scenario.PATH_FILTERS Overview.with_retired
           Overview.without_retired
           [ Scenario.webserver; Overview.retired; Scenario.site ] [] []).
  - reflexivity.
  - reflexivity.
  - intros id. reflexivity.
Defined.

Lemma without_filters_nothing_is_found_witness :
  outcome (generate_projects_data Scenario.GITLAB_URL []
             Scenario.webserver_and_site [])
  = Ok [].
Proof.
  apply (without_filters_nothing_is_found Scenario.GITLAB_URL
           Scenario.webserver_and_site [ Scenario.webserver; Scenario.site ] []).
  reflexivity.
Defined.

Lemma process_fetches_witness :
  exists content rest,
    outcome (get_yaml_content Scenario.site "meta" "main.yml" []) = Ok content /\
    [ Fetched 5 "meta" "main.yml"; Printed blue (skip_no_files "site");
      Fetched 5 "roles" "requirements.yml" ]
    = [] ++ rest /\
    fetches (Project.id Scenario.site) rest
    = ("meta", "main.yml")
        :: (if truthy content then [] else [ ("roles", "requirements.yml") ]).
Proof.
  eapply (process_fetches Scenario.GITLAB_URL Scenario.webserver_and_site
            Scenario.site Scenario.site initial []).
  - reflexivity.
  - vm_compute. reflexivity.
Defined.

Lemma url_pattern_needs_git_prefix_witness :
  Re.re_match (url_pattern Scenario.GITLAB_URL)
    "https://github.com/geerlingguy/ansible-role-java.git"
  = None.
Proof.
  apply (url_pattern_needs_git_prefix Scenario.GITLAB_URL).
  - reflexivity.
  - reflexivity.
Defined.
